(** * Winter school 2023: the webcam tracking driver and the cost library

    A shallow embedding of the two Python files of the repository,

      - [perception/05_tracker_webcam.py]  (module [Webcam] below),
      - [simulation/sim1_rigid_body/costs.py]  (module [Costs] below),

    and the properties of their behaviour.  Both files are glue around
    native libraries (OpenCV, NumPy, the m3t tracker, Pinocchio).  What the
    libraries compute is left uninterpreted: a library function is a
    [Variable] of the enclosing [Section], a library call with an effect is
    an [event] of the trace, and a value a library hands back to the script
    at run time (a frame, a key code, a status flag) is an input of the
    run.  What the scripts themselves do with those values is modelled
    line by line. *)

From Stdlib Require Import ZArith List String Ascii Bool Lia Floats DecimalString.
From stdpp Require Import base option list gmap strings.
Import ListNotations.

Set Warnings "-inexact-float".

Local Open Scope string_scope.
Local Open Scope list_scope.
Local Open Scope Z_scope.

(* ===================================================================== *)
(** * Python values, exceptions and the error monad *)
(* ===================================================================== *)

Module Py.

(** The exceptions the two files can raise on their own paths.  The text
    of a [ZeroDivisionError] differs between versions of Python and is
    left out. *)
Inductive exn : Type :=
| ValueError (msg : string)
| AttributeError (msg : string)
| NameError (msg : string)
| TypeError (msg : string)
| IndexError (msg : string)
| OverflowError (msg : string)
| ZeroDivisionError
| AssertionError
| SystemExit (code : Z).

Inductive result (A : Type) : Type :=
| Ok (a : A)
| Raise (e : exn).
Arguments Ok {A} a.
Arguments Raise {A} e.

#[export] Instance result_ret : MRet result := fun A a => Ok a.
#[export] Instance result_bind : MBind result := fun A B f m =>
  match m with
  | Ok a => f a
  | Raise e => Raise e
  end.

Definition is_ok {A} (r : result A) : bool :=
  match r with Ok _ => true | Raise _ => false end.

(** A Python number as the scripts use them: an [int] (unbounded) or a
    [float] (IEEE binary64, the kernel's primitive floats). *)
Inductive num : Type :=
| Int (z : Z)
| Float (f : float).

(** [float(z)] for an integer: the nearest binary64 value. *)
Definition float_of_Z (z : Z) : float :=
  SF2Prim (SpecFloat.binary_normalize FloatOps.prec FloatOps.emax z 0 false).

(** [a / b] on two [int]s is true division; the scripts only divide by the
    literal [2], so the divisor is never zero. *)
Definition truediv_int (a b : Z) : float :=
  (float_of_Z a / float_of_Z b)%float.

(** [str(n)] of a natural number. *)
Definition str_nat (n : nat) : string := NilEmpty.string_of_uint (Nat.to_uint n).

(** [ord(c)] of a one-character string. *)
Definition ord (c : ascii) : Z := Z.of_N (N_of_ascii c).

End Py.
Import Py.

(** The cases of a membership [H : x ∈ [a; b; ...]] in a literal list. *)
Ltac list_cases H :=
  repeat (apply elem_of_cons in H as [H|H]); [..|by apply elem_of_nil in H].

(* ===================================================================== *)
(** * perception/05_tracker_webcam.py *)
(* ===================================================================== *)

Module Webcam.

(** ** argparse, as far as [parse_script_input] uses it

    [argparse] is Python's library.  Its lexer (splitting [sys.argv] into
    option occurrences, abbreviations, [--opt=value]) is not modelled: a
    command line is given as the sequence of option occurrences the lexer
    recognises, each an option string with the value that follows it, if
    any.  What is modelled is what the parser does with them: defaults,
    actions, type conversion, the strings no action takes, and the check
    of required options. *)

Inductive arg_value : Type :=
| ANone
| AStr (s : string)
| AFloat (f : float)
| ABool (b : bool).

Inductive arg_type : Type := type_str | type_float.

Inductive arg_action : Type :=
| store (ty : arg_type)
| store_true
| print_help.

Record argument : Type := Argument {
  option_strings : list string;
  dest : string;
  action : arg_action;
  required : bool;
  default : arg_value;
  help : string
}.

Record ArgumentParser : Type := {
  prog : string;
  description : string;
  actions : list argument
}.

(** [argparse.ArgumentParser(prog=..., description=...)]: [add_help] is
    left at its default, so the parser starts with the [-h/--help] action. *)
Definition help_argument : argument :=
  Argument ["-h"; "--help"] "help" print_help false ANone
           "show this help message and exit".

Definition new_ArgumentParser (prog description : string) : ArgumentParser :=
  {| prog := prog; description := description; actions := [help_argument] |}.

Definition add_argument (a : argument) (p : ArgumentParser) : ArgumentParser :=
  {| prog := prog p; description := description p;
     actions := (actions p ++ [a])%list |}.

(** The namespace [parse_args] returns: attribute name to value. *)
Abbreviation Namespace := (gmap string arg_value).

(** One option occurrence of the command line. *)
Abbreviation occurrence := (string * option string)%type.

Definition find_action (p : ArgumentParser) (flag : string) : option argument :=
  List.find (fun a => bool_decide (flag ∈ option_strings a)) (actions p).

(** Every action but help has its default set before the command line is
    read. *)
Definition set_defaults (p : ArgumentParser) : Namespace :=
  fold_left (fun ns a =>
               match action a with
               | print_help => ns
               | _ => <[dest a := default a]> ns
               end) (actions p) ∅.

(** ** Data of the script *)

(** A frame as [vid.read()] returns it: a NumPy array, of which the script
    reads the shape only. *)
Record Frame : Type := { shape : list Z; pixels : list Z }.

(** A NumPy [float64] matrix, row by row. *)
Abbreviation Matrix := (list (list float)).

(** [np.array(l)] on a flat list with a [float] among its items: every
    item becomes a [float64]. *)
Definition np_array (l : list num) : list float :=
  List.map (fun n => match n with Int z => float_of_Z z | Float f => f end) l.

(** [a.reshape((rows, cols))] of a flat array of [rows * cols] items. *)
Fixpoint reshape (rows cols : nat) (a : list float) : Matrix :=
  match rows with
  | O => []
  | S rows' => take cols a :: reshape rows' cols (drop cols a)
  end.

(** [m[:3,:3]] read, and [m[:3,:3] = b] written in place. *)
Definition get_block3 (m : Matrix) : Matrix := List.map (take 3) (take 3 m).

Fixpoint set_rows (n : nat) (m b : Matrix) : Matrix :=
  match n, m, b with
  | S n', row :: m', brow :: b' => (brow ++ drop 3 row)%list :: set_rows n' m' b'
  | _, _, _ => m
  end.

Definition set_block3 (m b : Matrix) : Matrix := set_rows 3 m b.

(** The dictionaries of lines 40-53. *)
Abbreviation Intrinsics := (gmap string num).

Record CamIntrinsics : Type := {
  intrinsics_color : Intrinsics;
  quat_d_c_xyzw : list Z;
  trans_d_c : list Z
}.

Inductive print_arg : Type :=
| PStr (s : string)
| PFloat (f : float)
| PMatrix (m : Matrix).

(** The calls into the libraries, in the order the script makes them, each
    with what it is given and what it returns. *)
Inductive event : Type :=
| cv2_VideoCapture (index : Z)
| vid_read (ret : bool) (frame : option Frame)
| call_setup_single_object_tracker (args : Namespace) (cam : CamIntrinsics)
| optimizer_scale_tikhonov (scale_t scale_r : Z)
| optimizer_SetUp
| print (args : list print_arg)
| set_color_camera_image (frame : option Frame)
| tracker_UpdateCameras (ok : bool)
| cv2_waitKey (delay k : Z)
| set_body_body2world_pose (pose : Matrix)
| time_time (t : float)
| tracker_ExecuteTrackingStep (i : Z) (pose_after : Matrix)
| color_viewer_UpdateViewer (i : Z)
| vid_release
| cv2_destroyAllWindows.

(** The script's monad: the trace of library calls so far, and a value or
    the exception that ended the run. *)
Definition M (A : Type) : Type := (list event * result A)%type.

#[export] Instance M_ret : MRet M := fun A a => ([], Ok a).
#[export] Instance M_bind : MBind M := fun A B f m =>
  match m with
  | (t, Ok a) => let '(t', r) := f a in ((t ++ t')%list, r)
  | (t, Raise e) => (t, Raise e)
  end.

Definition emit (e : event) : M unit := ([e], Ok tt).
Definition raise {A} (e : exn) : M A := ([], Raise e).
Definition lift {A} (r : result A) : M A := ([], r).

Definition trace {A} (m : M A) : list event := fst m.
Definition outcome {A} (m : M A) : result A := snd m.

(** The variables of the script, and [body.body2world_pose], the one
    attribute of a tracker object the script writes.  The attribute is a
    property of a native object: the assignment of line 92 copies the
    matrix into the body, so what the tracker writes there afterwards does
    not reach the script's own array [body2world_pose]. *)
Record Vars : Type := {
  args : Namespace;
  ret : bool;
  frame : option Frame;
  height : Z;
  width : Z;
  f_approx : float;
  intrinsics_approx : Intrinsics;
  cam_intrinsics : CamIntrinsics;
  body2world_pose : Matrix;
  first : bool;
  tracking : bool;
  i : Z;
  body_body2world_pose : Matrix
}.

Definition set_read (r : bool) (f : option Frame) (s : Vars) : Vars :=
  {| args := args s; ret := r; frame := f; height := height s;
     width := width s; f_approx := f_approx s;
     intrinsics_approx := intrinsics_approx s;
     cam_intrinsics := cam_intrinsics s;
     body2world_pose := body2world_pose s; first := first s;
     tracking := tracking s; i := i s;
     body_body2world_pose := body_body2world_pose s |}.

Definition set_first (b : bool) (s : Vars) : Vars :=
  {| args := args s; ret := ret s; frame := frame s; height := height s;
     width := width s; f_approx := f_approx s;
     intrinsics_approx := intrinsics_approx s;
     cam_intrinsics := cam_intrinsics s;
     body2world_pose := body2world_pose s; first := b;
     tracking := tracking s; i := i s;
     body_body2world_pose := body_body2world_pose s |}.

Definition set_tracking (b : bool) (s : Vars) : Vars :=
  {| args := args s; ret := ret s; frame := frame s; height := height s;
     width := width s; f_approx := f_approx s;
     intrinsics_approx := intrinsics_approx s;
     cam_intrinsics := cam_intrinsics s;
     body2world_pose := body2world_pose s; first := first s;
     tracking := b; i := i s;
     body_body2world_pose := body_body2world_pose s |}.

Definition set_i (n : Z) (s : Vars) : Vars :=
  {| args := args s; ret := ret s; frame := frame s; height := height s;
     width := width s; f_approx := f_approx s;
     intrinsics_approx := intrinsics_approx s;
     cam_intrinsics := cam_intrinsics s;
     body2world_pose := body2world_pose s; first := first s;
     tracking := tracking s; i := n;
     body_body2world_pose := body_body2world_pose s |}.

Definition set_body_pose (m : Matrix) (s : Vars) : Vars :=
  {| args := args s; ret := ret s; frame := frame s; height := height s;
     width := width s; f_approx := f_approx s;
     intrinsics_approx := intrinsics_approx s;
     cam_intrinsics := cam_intrinsics s;
     body2world_pose := body2world_pose s; first := first s;
     tracking := tracking s; i := i s;
     body_body2world_pose := m |}.

(** What the libraries hand to the script: before the loop, the first
    frame read and the pose of the body [setup_single_object_tracker]
    returns; in an iteration, the frame read, the status of
    [tracker.UpdateCameras], the key of [cv2.waitKey], the two readings of
    the clock and the pose [tracker.ExecuteTrackingStep] leaves in the
    body.  The last three are used only when the step runs; the other
    library calls are taken to leave the pose of the body as it is. *)
Record Startup : Type := {
  first_read : bool * option Frame;
  setup_pose : Matrix
}.

Record Iteration : Type := {
  it_read : bool * option Frame;
  it_ok : bool;
  it_key : Z;
  it_t0 : float;
  it_t1 : float;
  it_pose : Matrix
}.

Definition nl : string := String (ascii_of_nat 10) EmptyString.

(** The library functions the script computes with: [float(s)] on a
    command-line string ([None] when Python raises), NumPy's [tan],
    [deg2rad] and matrix product [@], and the two functions of the
    [quaternion] package. *)
Class Libraries : Type := {
  float_of_string : string -> option float;
  np_tan : float -> float;
  np_deg2rad : float -> float;
  np_matmul : Matrix -> Matrix -> Matrix;
  quaternion : Type;
  from_rotation_vector : list float -> quaternion;
  as_rotation_matrix : quaternion -> Matrix
}.

Section Script.

Context {lib : Libraries}.

Definition convert (ty : arg_type) (s : string) : result arg_value :=
  match ty with
  | type_str => Ok (AStr s)
  | type_float =>
      match float_of_string s with
      | Some f => Ok (AFloat f)
      | None => Raise (SystemExit 2)
      end
  end.

(** The options of the command line in order; [seen] collects the
    destinations that were given, [extras] the strings no action takes:
    an unknown option with its value, and a value that follows a flag.
    They are set aside and the parser goes on.  A missing value and a
    value of the wrong type are usage errors (exit status 2) raised where
    they are met; [-h] prints the help and exits with status 0 where it is
    met. *)
Fixpoint consume (p : ArgumentParser) (argv : list occurrence)
         (ns : Namespace) (seen extras : list string)
  : result (Namespace * list string * list string) :=
  match argv with
  | [] => Ok (ns, seen, extras)
  | (flag, val) :: rest =>
      match find_action p flag with
      | None => consume p rest ns seen (extras ++ flag :: option_list val)
      | Some a =>
          match action a, val with
          | print_help, _ => Raise (SystemExit 0)
          | store_true, None =>
              consume p rest (<[dest a := ABool true]> ns) (dest a :: seen)
                      extras
          | store_true, Some s =>
              consume p rest (<[dest a := ABool true]> ns) (dest a :: seen)
                      (extras ++ [s])
          | store ty, Some s =>
              match convert ty s with
              | Ok v =>
                  consume p rest (<[dest a := v]> ns) (dest a :: seen) extras
              | Raise e => Raise e
              end
          | store _, None => Raise (SystemExit 2)
          end
      end
  end.

(** The required options that were not given. *)
Definition missing_required (p : ArgumentParser) (seen : list string)
  : list argument :=
  List.filter (fun a => required a && negb (bool_decide (dest a ∈ seen)))
              (actions p).

(** [parse_args]: the required options are checked once the command line
    is used up, then the strings set aside; either is a usage error. *)
Definition parse_args (p : ArgumentParser) (argv : list occurrence)
  : result Namespace :=
  '(ns, seen, extras) ← consume p argv (set_defaults p) [] [];
  match missing_required p seen with
  | [] =>
      match extras with
      | [] => Ok ns
      | _ :: _ => Raise (SystemExit 2)
      end
  | _ :: _ => Raise (SystemExit 2)
  end.

(** ** [parse_script_input] (lines 16-29) *)

Definition body_name_argument : argument :=
  Argument ["-b"; "--body_name"] "body_name" (store type_str) true ANone
           "Name of the object to track. need to match".

Definition models_dir_argument : argument :=
  Argument ["-m"; "--models_dir"] "models_dir" (store type_str) true ANone
           "Path to directory where object model file {body_name}.obj is stored".

Definition fov_argument : argument :=
  Argument ["--fov"] "fov" (store type_float) false (AFloat 50.0)
           "Approximate horizontal field of view of the webcam in degrees".

Definition scale_geometry_argument : argument :=
  Argument ["--scale_geometry"] "scale_geometry" (store type_float) false
           (AFloat 0.001)
           "Scale factor to convert model geometry to meters.".

Definition tmp_dir_argument : argument :=
  Argument ["--tmp_dir"] "tmp_dir" (store type_str) false (AStr "tmp")
           "Directory to store preprocessing files generated by the tracker.".

Definition use_region_argument : argument :=
  Argument ["--use_region"] "use_region" store_true false (ABool false) "".

(** The six [add_argument] calls, in the order of the source. *)
Definition script_arguments : list argument :=
  [ body_name_argument; models_dir_argument; fov_argument;
    scale_geometry_argument; tmp_dir_argument; use_region_argument ].

Definition parser : ArgumentParser :=
  fold_left (fun p a => add_argument a p) script_arguments
    (new_ArgumentParser "run_webcam_example"
                        "Run the m3t tracker from webcam video stream").

Definition parse_script_input (argv : list occurrence) : result Namespace :=
  parse_args parser argv.


(** [args.fov], as [np.deg2rad] takes it. *)
Definition args_fov (a : Namespace) : result float :=
  match a !! "fov" with
  | Some (AFloat f) => Ok f
  | Some _ => Raise (TypeError "fov is not a number")
  | None => Raise (AttributeError "'Namespace' object has no attribute 'fov'")
  end.

(** [frame.shape] (line 36): [frame] is [None] when the capture gave no
    image. *)
Definition frame_shape (f : option Frame) : result (list Z) :=
  match f with
  | Some fr => Ok (shape fr)
  | None => Raise (AttributeError "'NoneType' object has no attribute 'shape'")
  end.

(** [height, width, _ = ...] (line 36). *)
Definition unpack3 (l : list Z) : result (Z * Z * Z) :=
  match l with
  | [] => Raise (ValueError "not enough values to unpack (expected 3, got 0)")
  | [_] => Raise (ValueError "not enough values to unpack (expected 3, got 1)")
  | [_; _] =>
      Raise (ValueError "not enough values to unpack (expected 3, got 2)")
  | [a; b; c] => Ok (a, b, c)
  | _ => Raise (ValueError "too many values to unpack (expected 3)")
  end.

(** Lines 39-47. *)
Definition focal_approx (width : Z) (fov : float) : float :=
  (truediv_int width 2 / np_tan (np_deg2rad fov / 2))%float.

Definition make_intrinsics (f_approx : float) (width height : Z) : Intrinsics :=
  <["height" := Int height]>
  (<["width" := Int width]>
  (<["ppv" := Float (truediv_int height 2)]>
  (<["ppu" := Float (truediv_int width 2)]>
  (<["fv" := Float f_approx]>
  (<["fu" := Float f_approx]> ∅))))).

(** Lines 49-53. *)
Definition make_cam_intrinsics (intr : Intrinsics) : CamIntrinsics :=
  {| intrinsics_color := intr;
     quat_d_c_xyzw := [0; 0; 0; 1];
     trans_d_c := [0; 0; 0] |}.

(** Lines 60-65: the initial pose of the object. *)
Definition pose_literal : list num :=
  [ Int 1; Int 0; Int 0;    Int 0;
    Int 0; Int 0; Int (-1); Int 0;
    Int 0; Int 1; Int 0;    Float 0.456;
    Int 0; Int 0; Int 0;    Int 1 ].

Definition dR_l : Matrix :=
  as_rotation_matrix (from_rotation_vector [0.2; 0; 0.0]%float).

Definition initial_body2world_pose : Matrix :=
  let m := reshape 4 4 (np_array pose_literal) in
  set_block3 m (np_matmul (get_block3 m) dR_l).

(** Lines 31-82: everything before the loop. *)
Definition startup (argv : list occurrence) (st : Startup) : M Vars :=
  a ← lift (parse_script_input argv);
  emit (cv2_VideoCapture 0);;
  let '(r, f) := first_read st in
  emit (vid_read r f);;
  sh ← lift (frame_shape f);
  '(h, w, _) ← lift (unpack3 sh);
  fov ← lift (args_fov a);
  let fa := focal_approx w fov in
  let intr := make_intrinsics fa w h in
  let cam := make_cam_intrinsics intr in
  emit (call_setup_single_object_tracker a cam);;
  let pose := initial_body2world_pose in
  emit (optimizer_scale_tikhonov 1 1);;
  emit optimizer_SetUp;;
  emit (print [PStr (nl ++ "------" ++ nl ++ "Press q to quit during execution")%string]);;
  emit (print [PStr "Press d to reset object pose (and stop tracking)"]);;
  emit (print [PStr "Press x to start tracking"]);;
  mret {| args := a; ret := r; frame := f; height := h; width := w;
          f_approx := fa; intrinsics_approx := intr; cam_intrinsics := cam;
          body2world_pose := pose; first := true; tracking := false; i := 0;
          body_body2world_pose := setup_pose st |}.

(** Lines 84-111: one turn of the loop. *)
Inductive ctl : Type := Next | Stop.

Definition malformed : exn :=
  ValueError "Something is wrong with the provided images".

(** Lines 91-97: the key tests that write [first], [tracking] and the
    pose of the body. *)
Definition handle_keys (k : Z) (s : Vars) : M Vars :=
  s ← (if first s || (k =? ord "d"%char)%Z
       then emit (set_body_body2world_pose (body2world_pose s));;
            mret (set_tracking false
                    (set_first false
                       (set_body_pose (body2world_pose s) s)))
       else mret s);
  if (k =? ord "x"%char)%Z
  then emit (print [PStr "StartTracking"]);;
       mret (set_tracking true s)
  else mret s.

(** Lines 101-107: the tracking step and its two reports. *)
Definition tracking_step (it : Iteration) (s : Vars) : M Vars :=
  emit (time_time (it_t0 it));;
  emit (tracker_ExecuteTrackingStep (i s) (it_pose it));;
  let s := set_body_pose (it_pose it) s in
  emit (time_time (it_t1 it));;
  emit (print [PStr "ExecuteTrackingCycle (ms)";
               PFloat (float_of_Z 1000 * (it_t1 it - it_t0 it))%float]);;
  emit (print [PStr ("body.body2world_pose" ++ nl)%string;
               PMatrix (body_body2world_pose s)]);;
  mret s.

Definition loop_body (it : Iteration) (s : Vars) : M (ctl * Vars) :=
  let '(r, f) := it_read it in
  emit (vid_read r f);;
  let s := set_read r f s in
  emit (set_color_camera_image f);;
  let ok := it_ok it in
  emit (tracker_UpdateCameras ok);;
  (if negb ok then raise malformed else mret tt);;
  let k := it_key it in
  emit (cv2_waitKey 1 k);;
  s ← handle_keys k s;
  if (k =? ord "q"%char)%Z then mret (Stop, s)
  else
    s ← (if tracking s then tracking_step it s else mret s);
    let s := set_i (i s + 1) s in
    emit (color_viewer_UpdateViewer (i s));;
    mret (Next, s).

(** [while True]: the loop over the iterations the run is given.  It ends
    by [break] ([Exited]) or by an exception; [Running] is a loop that is
    still going when the given iterations are used up. *)
Inductive final : Type :=
| Running (s : Vars)
| Exited (s : Vars).

Definition vars_of (r : final) : Vars :=
  match r with Running s | Exited s => s end.

Fixpoint while_true (its : list Iteration) (s : Vars) : M final :=
  match its with
  | [] => mret (Running s)
  | it :: its' =>
      match loop_body it s with
      | (t, Ok (Stop, s')) => (t, Ok (Exited s'))
      | (t, Ok (Next, s')) =>
          let '(t', r) := while_true its' s' in ((t ++ t')%list, r)
      | (t, Raise e) => (t, Raise e)
      end
  end.

(** Lines 113-114 run once the loop is left by [break]. *)
Definition teardown (r : final) : M final :=
  match r with
  | Exited _ => emit vid_release;; emit cv2_destroyAllWindows;; mret r
  | Running _ => mret r
  end.

Definition script (argv : list occurrence) (st : Startup)
           (its : list Iteration) : M final :=
  s ← startup argv st;
  r ← while_true its s;
  teardown r.

End Script.

(** ** Notions the properties are stated with *)

Section Notions.

Context {lib : Libraries}.

(** [given flags argv]: one of the option strings [flags] occurs on the
    command line. *)
Definition given (flags : list string) (argv : list occurrence) : bool :=
  existsb (fun o => bool_decide (o.1 ∈ flags)) argv.

(** What an occurrence of the action [a] with the value [val] stores. *)
Definition stores (a : argument) (val : option string) (v : arg_value) : Prop :=
  match action a, val with
  | store ty, Some s => convert ty s = Ok v
  | store_true, None => v = ABool true
  | _, _ => False
  end.

(** An occurrence the parser of the script takes: one of the five options
    that want a value, with a value ([--fov] and [--scale_geometry] with
    one that [float] reads), or the flag [--use_region] without one. *)
Definition accepted (o : occurrence) : bool :=
  match o.2 with
  | Some s =>
      bool_decide (o.1 ∈ ["-b"; "--body_name"; "-m"; "--models_dir";
                          "--tmp_dir"])
      || bool_decide (o.1 ∈ ["--fov"; "--scale_geometry"])
         && bool_decide (is_Some (float_of_string s))
  | None => bool_decide (o.1 = "--use_region")
  end.

(** What follows the last occurrence of one of the option strings
    [flags], if there is one. *)
Definition last_value (flags : list string) (argv : list occurrence)
  : option (option string) :=
  snd <$> last (filter (fun o : occurrence => o.1 ∈ flags) argv).

End Notions.


(** The events that write [body.body2world_pose]. *)
Definition writes_pose (e : event) : bool :=
  match e with
  | set_body_body2world_pose _ | tracker_ExecuteTrackingStep _ _ => true
  | _ => false
  end.


Definition is_UpdateCameras (e : event) : bool :=
  match e with
  | tracker_UpdateCameras _ => true
  | _ => false
  end.

(** The value of [tracking] that line 100 tests in the turn [it]: the
    one the key tests of lines 91-97 leave. *)
Definition tracking_tested (it : Iteration) (s : Vars) : bool :=
  match outcome (handle_keys (it_key it)
                             (set_read (it_read it).1 (it_read it).2 s)) with
  | Ok s' => tracking s'
  | Raise _ => false
  end.

(** The poses written into the body, in order: by the assignment of line
    92 and by the tracker's step. *)
Definition poses_written (t : list event) : list Matrix :=
  omap (fun e => match e with
                 | set_body_body2world_pose p
                 | tracker_ExecuteTrackingStep _ p => Some p
                 | _ => None
                 end) t.

(** The pose the body holds after the calls [t], when it held [p] before
    them: the last one written, if any was. *)
Definition pose_after (p : Matrix) (t : list event) : Matrix :=
  match last (poses_written t) with
  | Some q => q
  | None => p
  end.

(** ** Notions for the properties of whole runs *)

(** A turn after which the loop goes on: the cameras are fine and the key
    is not [q]. *)
Definition goes_on (it : Iteration) : Prop :=
  it_ok it = true /\ it_key it <> ord "q".

(** The frame numbers [color_viewer.UpdateViewer] and
    [tracker.ExecuteTrackingStep] were called with, in order. *)
Definition viewer_updates (t : list event) : list Z :=
  omap (fun e => match e with
                 | color_viewer_UpdateViewer k => Some k
                 | _ => None
                 end) t.

Definition tracking_steps (t : list event) : list Z :=
  omap (fun e => match e with
                 | tracker_ExecuteTrackingStep k _ => Some k
                 | _ => None
                 end) t.

(** The two calls of lines 113-114. *)
Definition is_release (e : event) : bool :=
  match e with
  | vid_release | cv2_destroyAllWindows => true
  | _ => false
  end.

Definition is_setup (e : event) : bool :=
  match e with
  | call_setup_single_object_tracker _ _ => true
  | _ => false
  end.

(** Stand-ins for the libraries, to run the script on concrete inputs:
    [float] reads the one string ["60"], the other functions return their
    argument. *)
Definition sample_libraries : Libraries :=
  {| float_of_string := fun s => if String.eqb s "60" then Some 60%float else None;
     np_tan := fun x => x;
     np_deg2rad := fun x => x;
     np_matmul := fun a _ => a;
     quaternion := unit;
     from_rotation_vector := fun _ => tt;
     as_rotation_matrix := fun _ => [] |}.

Definition sample_frame : Frame := {| shape := [480; 640; 3]; pixels := [] |}.

Definition sample_startup : Startup :=
  {| first_read := (true, Some sample_frame); setup_pose := [] |}.

Definition sample_argv : list occurrence :=
  [("-b", Some "obj_000014"); ("-m", Some "models")].

(** A command line with five of the six options, two of them twice. *)
Definition sample_command_line : list occurrence :=
  [ ("--fov", Some "60"); ("-b", Some "obj_000001"); ("--use_region", None);
    ("--tmp_dir", Some "scratch"); ("-m", Some "models");
    ("--body_name", Some "obj_000014"); ("--use_region", None) ].

(** The variables in a turn after the first, with tracking off. *)
Definition sample_vars : Vars :=
  {| args := ∅; ret := true; frame := Some sample_frame;
     height := 480; width := 640; f_approx := 686%float;
     intrinsics_approx := ∅;
     cam_intrinsics := {| intrinsics_color := ∅; quat_d_c_xyzw := [0; 0; 0; 1];
                          trans_d_c := [0; 0; 0] |};
     body2world_pose := [[1%float]]; first := false; tracking := false;
     i := 3; body_body2world_pose := [[2%float]] |}.

(** An iteration in which the key [k] is read and the cameras report
    [ok]. *)
Definition sample_iteration (k : Z) (ok : bool) : Iteration :=
  {| it_read := (true, Some sample_frame); it_ok := ok; it_key := k;
     it_t0 := 1%float; it_t1 := 2%float; it_pose := [[1%float]] |}.

End Webcam.

(* ===================================================================== *)
(** * simulation/sim1_rigid_body/costs.py *)
(* ===================================================================== *)

Module Costs.

Abbreviation vec := (list float).
Abbreviation Matrix := (list (list float)).
Abbreviation loc := positive.

(** What the file reads of a [pin.Model]. *)
Record Joint : Type := { joint_nq : Z }.

Record Model : Type := {
  nq : Z;
  nv : Z;
  nframes : Z;
  joints : list Joint
}.

(** ** NumPy on one- and two-dimensional arrays *)

(** The shape of a one-dimensional array, as NumPy prints it. *)
Definition shape1 (a : vec) : string :=
  ("(" ++ str_nat (length a) ++ ",)")%string.

(** An elementwise binary operation, with NumPy's broadcasting of an array
    of one item. *)
Definition broadcast2 (f : float -> float -> float) (a b : vec) : result vec :=
  if (length a =? length b)%nat then Ok (zip_with f a b)
  else match a, b with
       | [x], _ => Ok (List.map (f x) b)
       | _, [y] => Ok (List.map (fun x => f x y) a)
       | _, _ =>
           Raise (ValueError
                    ("operands could not be broadcast together with shapes "
                       ++ shape1 a ++ " " ++ shape1 b ++ " ")%string)
       end.

Definition np_sub : vec -> vec -> result vec := broadcast2 PrimFloat.sub.

(** [k * a] for an [int] [k], [-a], [a ** 2]. *)
Definition np_scale (k : Z) (a : vec) : vec :=
  List.map (fun x => float_of_Z k * x)%float a.
Definition np_neg (a : vec) : vec := List.map PrimFloat.opp a.
Definition np_square (a : vec) : vec := List.map (fun x => x * x)%float a.

Definition mat_scale (k : Z) (m : Matrix) : Matrix := List.map (np_scale k) m.
Definition mat_neg (m : Matrix) : Matrix := List.map np_neg m.

(** [m.T]. *)
Fixpoint transpose (m : Matrix) : Matrix :=
  match m with
  | [] => []
  | [row] => List.map (fun x => [x]) row
  | row :: rest => zip_with cons row (transpose rest)
  end.

(** [np.zeros(n)]. *)
Definition np_zeros (n : Z) : result vec :=
  if n <? 0 then Raise (ValueError "negative dimensions are not allowed")
  else Ok (replicate (Z.to_nat n) 0%float).

(** [g[k:] = a], in place. *)
Definition set_from (k : nat) (g a : vec) : result vec :=
  if (length (drop k g) =? length a)%nat then Ok (take k g ++ a)%list
  else match a with
       | [x] => Ok (take k g ++ replicate (length (drop k g)) x)%list
       | _ =>
           Raise (ValueError
                    ("could not broadcast input array from shape "
                       ++ shape1 a ++ " into shape " ++ shape1 (drop k g))%string)
       end.

(** The builtin [sum] of an array: it starts from the [int] [0] and adds
    the items from the left, so the sum of an empty array is that [int]
    and any other a [float64] ([Float]). *)
Definition py_add (a : num) (x : float) : num :=
  match a with
  | Int z => Float (float_of_Z z + x)
  | Float f => Float (f + x)
  end.

Definition py_sum (a : vec) : num := fold_left py_add a (Int 0).

(** ** Pinocchio and the viewer

    The dynamics library and NumPy's BLAS-backed products are not
    interpreted.  A [pin.Data] is a workspace the algorithms write: each
    algorithm takes the workspace and gives the new one back. *)
Class Pinocchio : Type := {
  Data : Type;
  SE3 : Type;
  framesForwardKinematics : Model -> Data -> vec -> Data;
  computeJointJacobians : Model -> Data -> vec -> Data;
  forwardKinematics : Model -> Data -> vec -> Data;
  updateFramePlacement : Model -> Data -> Z -> Data * SE3;
  getFrameJacobian_LOCAL_WORLD_ALIGNED : Model -> Data -> Z -> Matrix;
  computeFrameJacobian : Model -> Data -> vec -> Z -> Data * Matrix;
  computeGeneralizedGravity : Model -> Data -> vec -> Data * vec;
  computeGeneralizedGravityDerivatives : Model -> Data -> vec -> Data * Matrix;
  aba : Model -> Data -> vec -> vec -> vec -> Data * vec;
  computeABADerivatives : Model -> Data -> vec -> vec -> vec -> Data;
  computeRNEADerivatives : Model -> Data -> vec -> vec -> vec -> Data;
  difference : Model -> vec -> vec -> vec;
  dDifference : Model -> vec -> vec -> Matrix * Matrix;
  oMf : Data -> Z -> SE3;
  dtau_dq : Data -> Matrix;
  ddq_dq : Data -> Matrix;
  ddq : Data -> vec;
  tau : Data -> vec;
  translation : SE3 -> vec;
  SE3_inverse : SE3 -> SE3;
  SE3_mul : SE3 -> SE3 -> SE3;
  SE3_of : Matrix -> vec -> SE3;
  log_vector : SE3 -> vec;
  Jlog6 : SE3 -> Matrix;
  utils_rotate : string -> float -> Matrix;
  SE3ToXYZQUATtuple : SE3 -> vec;
  integrate : Model -> vec -> vec -> vec;
  np_matvec : Matrix -> vec -> vec;
  np_matmul : Matrix -> Matrix -> Matrix;
  np_dot : vec -> vec -> float;
  np_norm : vec -> float
}.

Inductive cost_class : Type :=
| Cost3d
| Cost6d
| CostPosture
| CostGravity
| CostWeightedGravity
| CostPostureDiff.

Definition class_name (c : cost_class) : string :=
  match c with
  | Cost3d => "Cost3d"
  | Cost6d => "Cost6d"
  | CostPosture => "CostPosture"
  | CostGravity => "CostGravity"
  | CostWeightedGravity => "CostWeightedGravity"
  | CostPostureDiff => "CostPostureDiff"
  end.

(** The calls on the viewer, in order. *)
Inductive viewer_call : Type :=
| applyViewerConfiguration (viz : loc) (name : string) (xyzquat : vec)
| viz_display (viz : loc) (q : vec)
| time_sleep (seconds : float).

(** ** Names

    A name a function body reads without binding it is looked up in the
    module, then in the builtins.  [module_names] are all the names the
    file binds at module level: the imports, the classes, and the names of
    the test block. *)
Definition module_names : list string :=
  [ "time"; "np"; "pin"; "det"; "eig"; "inv"; "norm"; "pinv"; "svd";
    "vizutils";
    "Cost3d"; "Cost6d"; "CostPosture"; "CostGravity"; "CostWeightedGravity";
    "CostPostureDiff";
    "robex"; "copy"; "Tdiff1"; "robot"; "q"; "Tdiffq"; "CostClass"; "cost";
    "Tg"; "Tgn" ].

(** The names of the [builtins] module (Python 3). *)
Definition builtin_names : list string :=
  [ "ArithmeticError"; "AssertionError"; "AttributeError"; "BaseException";
    "BaseExceptionGroup"; "BlockingIOError"; "BrokenPipeError";
    "BufferError"; "BytesWarning"; "ChildProcessError";
    "ConnectionAbortedError"; "ConnectionError"; "ConnectionRefusedError";
    "ConnectionResetError"; "DeprecationWarning"; "EOFError"; "Ellipsis";
    "EncodingWarning"; "EnvironmentError"; "Exception"; "ExceptionGroup";
    "False"; "FileExistsError"; "FileNotFoundError"; "FloatingPointError";
    "FutureWarning"; "GeneratorExit"; "IOError"; "ImportError";
    "ImportWarning"; "IndentationError"; "IndexError"; "InterruptedError";
    "IsADirectoryError"; "KeyError"; "KeyboardInterrupt"; "LookupError";
    "MemoryError"; "ModuleNotFoundError"; "NameError"; "None";
    "NotADirectoryError"; "NotImplemented"; "NotImplementedError";
    "OSError"; "OverflowError"; "PendingDeprecationWarning";
    "PermissionError"; "ProcessLookupError"; "RecursionError";
    "ReferenceError"; "ResourceWarning"; "RuntimeError"; "RuntimeWarning";
    "StopAsyncIteration"; "StopIteration"; "SyntaxError"; "SyntaxWarning";
    "SystemError"; "SystemExit"; "TabError"; "TimeoutError"; "True";
    "TypeError"; "UnboundLocalError"; "UnicodeDecodeError";
    "UnicodeEncodeError"; "UnicodeError"; "UnicodeTranslateError";
    "UnicodeWarning"; "UserWarning"; "ValueError"; "Warning";
    "ZeroDivisionError"; "__build_class__"; "__debug__"; "__doc__";
    "__import__"; "__loader__"; "__name__"; "__package__"; "__spec__";
    "abs"; "aiter"; "all"; "anext"; "any"; "ascii"; "bin"; "bool";
    "breakpoint"; "bytearray"; "bytes"; "callable"; "chr"; "classmethod";
    "compile"; "complex"; "copyright"; "credits"; "delattr"; "dict"; "dir";
    "divmod"; "enumerate"; "eval"; "exec"; "exit"; "filter"; "float";
    "format"; "frozenset"; "getattr"; "globals"; "hasattr"; "hash"; "help";
    "hex"; "id"; "input"; "int"; "isinstance"; "issubclass"; "iter"; "len";
    "license"; "list"; "locals"; "map"; "max"; "memoryview"; "min"; "next";
    "object"; "oct"; "open"; "ord"; "pow"; "print"; "property"; "quit";
    "range"; "repr"; "reversed"; "round"; "set"; "setattr"; "slice";
    "sorted"; "staticmethod"; "str"; "sum"; "super"; "tuple"; "type";
    "vars"; "zip" ].

Definition name_is_bound (name : string) : bool :=
  bool_decide (name ∈ module_names) || bool_decide (name ∈ builtin_names).

Section WithPinocchio.

Context {pin : Pinocchio}.

(** ** Objects and the store *)

(** The numbers of the cost classes come out of NumPy: [VNum (Float f)]
    is a NumPy [float64] scalar (the [sum] of a non-empty array, an
    [np.dot]), [VNum (Int z)] a Python [int] (the [sum] of an empty array).
    [VFloat f] is a Python [float], which only a function handed to
    [Tdiff1], or a division of an [int], can produce.  The two kinds of
    float differ when they are divided by zero. *)
Inductive value : Type :=
| VNone
| VBool (b : bool)
| VNum (n : num)
| VFloat (f : float)
| VVec (v : vec)
| VMat (m : Matrix)
| VSE3 (m : SE3)
| VModel (m : Model)
| VData (d : loc)
| VViz (v : loc)
| VGlobal (name : string).

(** An instance: its class and its [__dict__]. *)
Record object : Type := {
  cls : cost_class;
  dict : gmap string value
}.

(** Instances and [pin.Data] workspaces are held by reference; the calls
    made on the viewer are recorded. *)
Record store : Type := {
  objs : gmap loc object;
  datas : gmap loc Data;
  viewer : list viewer_call
}.

Definition C (A : Type) : Type := store -> result (A * store).

#[export] Instance C_ret : MRet C := fun A a st => Ok (a, st).
#[export] Instance C_bind : MBind C := fun A B f m st =>
  match m st with
  | Ok (a, st') => f a st'
  | Raise e => Raise e
  end.

Definition throw {A} (e : exn) : C A := fun _ => Raise e.

Definition liftR {A} (r : result A) : C A := fun st =>
  match r with
  | Ok a => Ok (a, st)
  | Raise e => Raise e
  end.

Definition no_attribute (c : cost_class) (name : string) : exn :=
  AttributeError ("'" ++ class_name c ++ "' object has no attribute '"
                      ++ name ++ "'")%string.

Definition name_not_defined (name : string) : exn :=
  NameError ("name '" ++ name ++ "' is not defined")%string.

(** A reference that names nothing cannot be built in Python; the model
    answers it with an error of its own. *)
Definition dangling : exn := TypeError "dangling reference".

Definition get_object (self : loc) : C object := fun st =>
  match objs st !! self with
  | Some o => Ok (o, st)
  | None => Raise dangling
  end.

(** [object.__new__(cls)]: a fresh instance with an empty [__dict__]. *)
Definition new_object (c : cost_class) : C loc := fun st =>
  let l := fresh (dom (objs st)) in
  Ok (l, {| objs := <[l := {| cls := c; dict := ∅ |}]> (objs st);
            datas := datas st; viewer := viewer st |}).

(** [self.name], read and written. *)
Definition getattr (self : loc) (name : string) : C value :=
  o ← get_object self;
  match dict o !! name with
  | Some v => mret v
  | None => throw (no_attribute (cls o) name)
  end.

Definition setattr (self : loc) (name : string) (v : value) : C unit := fun st =>
  match objs st !! self with
  | Some o =>
      Ok (tt, {| objs := <[self := {| cls := cls o;
                                      dict := <[name := v]> (dict o) |}]>
                           (objs st);
                 datas := datas st; viewer := viewer st |})
  | None => Raise dangling
  end.

(** A global name read in a function body. *)
Definition load_global (name : string) : C value :=
  if name_is_bound name then mret (VGlobal name)
  else throw (name_not_defined name).

(** An algorithm run on the workspace [d]. *)
Definition on_data {A} (d : loc) (f : Data -> Data * A) : C A := fun st =>
  match datas st !! d with
  | Some x =>
      let '(x', a) := f x in
      Ok (a, {| objs := objs st; datas := <[d := x']> (datas st);
                viewer := viewer st |})
  | None => Raise dangling
  end.

Definition read_data {A} (d : loc) (f : Data -> A) : C A :=
  on_data d (fun x => (x, f x)).

Definition viewer_do (c : viewer_call) : C unit := fun st =>
  Ok (tt, {| objs := objs st; datas := datas st;
             viewer := (viewer st ++ [c])%list |}).

(** What a library function makes of an argument of the wrong type. *)
Definition wrong_type {A} : C A := throw (TypeError "wrong argument type").

Definition as_model (v : value) : C Model :=
  match v with VModel m => mret m | _ => wrong_type end.
Definition as_data (v : value) : C loc :=
  match v with VData d => mret d | _ => wrong_type end.
Definition as_vec (v : value) : C vec :=
  match v with VVec a => mret a | _ => wrong_type end.
Definition as_int (v : value) : C Z :=
  match v with VNum (Int z) => mret z | _ => wrong_type end.
Definition as_SE3 (v : value) : C SE3 :=
  match v with VSE3 m => mret m | _ => wrong_type end.
Definition as_viz (v : value) : C loc :=
  match v with VViz l => mret l | _ => wrong_type end.

(** The truth value of [if v:] for the values tested. *)
Definition truthy (v : value) : C bool :=
  match v with
  | VBool b => mret b
  | VNone => mret false
  | _ => wrong_type
  end.

Definition attr_model (self : loc) (name : string) : C Model :=
  v ← getattr self name; as_model v.
Definition attr_data (self : loc) (name : string) : C loc :=
  v ← getattr self name; as_data v.
Definition attr_vec (self : loc) (name : string) : C vec :=
  v ← getattr self name; as_vec v.
Definition attr_int (self : loc) (name : string) : C Z :=
  v ← getattr self name; as_int v.
Definition attr_SE3 (self : loc) (name : string) : C SE3 :=
  v ← getattr self name; as_SE3 v.

Definition viz_value (viz : option loc) : value :=
  match viz with Some l => VViz l | None => VNone end.

(** [np.array([0.5, 0.1, 0.27])], the default target of lines 15 and 52. *)
Definition default_position : vec := [0.5; 0.1; 0.27]%float.

(** [np.pi / 4]. *)
Definition quarter_pi : float := (3.141592653589793 / 4)%float.

(** A method takes [self] and the configuration [q]. *)
Definition method : Type := loc -> vec -> C value.

(** ** Cost3d (lines 11-43) *)

Definition Cost3d_init (rmodel : Model) (rdata : loc) (frame_index : option Z)
           (ptarget : option vec) (viz : option loc) : C loc :=
  self ← new_object Cost3d;
  setattr self "rmodel" (VModel rmodel);;
  setattr self "rdata" (VData rdata);;
  setattr self "ptarget" (VVec (default default_position ptarget));;
  setattr self "frame_index"
          (VNum (Int (default (nframes rmodel - 1) frame_index)));;
  setattr self "viz" (viz_value viz);;
  mret self.

Definition Cost3d_residual : method := fun self q =>
  m ← attr_model self "rmodel";
  d ← attr_data self "rdata";
  on_data d (fun x => (framesForwardKinematics m x q, tt));;
  d ← attr_data self "rdata";
  k ← attr_int self "frame_index";
  M ← read_data d (fun x => oMf x k);
  p ← attr_vec self "ptarget";
  r ← liftR (np_sub (translation M) p);
  mret (VVec r).

Definition Cost3d_callback : method := fun self q =>
  viz ← getattr self "viz";
  match viz with
  | VNone => mret VNone
  | _ =>
      m ← attr_model self "rmodel";
      d ← attr_data self "rdata";
      on_data d (fun x => (framesForwardKinematics m x q, tt));;
      d ← attr_data self "rdata";
      k ← attr_int self "frame_index";
      M ← read_data d (fun x => oMf x k);
      v ← getattr self "viz";
      v ← as_viz v;
      viewer_do (applyViewerConfiguration v "world/ball" (SE3ToXYZQUATtuple M));;
      v ← getattr self "viz";
      v ← as_viz v;
      p ← attr_vec self "ptarget";
      viewer_do (applyViewerConfiguration v "world/box"
                   (p ++ List.map float_of_Z [1; 0; 0; 0]));;
      v ← getattr self "viz";
      v ← as_viz v;
      viewer_do (viz_display v q);;
      viewer_do (time_sleep 1e-2);;
      mret VNone
  end.

Definition Cost3d_calcDiff : method := fun self q =>
  m ← attr_model self "rmodel";
  d ← attr_data self "rdata";
  on_data d (fun x => (framesForwardKinematics m x q, tt));;
  m ← attr_model self "rmodel";
  d ← attr_data self "rdata";
  on_data d (fun x => (computeJointJacobians m x q, tt));;
  d ← attr_data self "rdata";
  k ← attr_int self "frame_index";
  M ← read_data d (fun x => oMf x k);
  m ← attr_model self "rmodel";
  d ← attr_data self "rdata";
  k ← attr_int self "frame_index";
  J ← read_data d (fun x => take 3 (getFrameJacobian_LOCAL_WORLD_ALIGNED m x k));
  let A := mat_scale 2 (transpose J) in
  p ← attr_vec self "ptarget";
  r ← liftR (np_sub (translation M) p);
  mret (VVec (np_matvec A r)).

(** ** Cost6d (lines 47-78) *)

Definition Cost6d_init (rmodel : Model) (rdata : loc) (frame_index : option Z)
           (Mtarget : option SE3) (viz : option loc) : C loc :=
  self ← new_object Cost6d;
  setattr self "rmodel" (VModel rmodel);;
  setattr self "rdata" (VData rdata);;
  setattr self "Mtarget"
          (VSE3 (default (SE3_of (utils_rotate "x" quarter_pi) default_position)
                         Mtarget));;
  setattr self "frame_index"
          (VNum (Int (default (nframes rmodel - 1) frame_index)));;
  setattr self "viz" (viz_value viz);;
  mret self.

Definition Cost6d_residual : method := fun self q =>
  m ← attr_model self "rmodel";
  d ← attr_data self "rdata";
  on_data d (fun x => (forwardKinematics m x q, tt));;
  m ← attr_model self "rmodel";
  d ← attr_data self "rdata";
  k ← attr_int self "frame_index";
  M ← on_data d (fun x => updateFramePlacement m x k);
  T ← attr_SE3 self "Mtarget";
  setattr self "deltaM" (VSE3 (SE3_mul (SE3_inverse T) M));;
  dM ← attr_SE3 self "deltaM";
  mret (VVec (log_vector dM)).

(** Line 69 reads [M], which the function never binds.  The reads of the
    imported modules are written out here; they always find their name,
    and the other methods leave them out. *)
Definition Cost6d_callback : method := fun self q =>
  viz ← getattr self "viz";
  match viz with
  | VNone => mret VNone
  | _ =>
      load_global "vizutils";;
      v ← getattr self "viz";
      load_global "pin";;
      M ← load_global "M";
      M ← as_SE3 M;
      v ← as_viz v;
      viewer_do (applyViewerConfiguration v "world/ball" (SE3ToXYZQUATtuple M));;
      load_global "vizutils";;
      v ← getattr self "viz";
      load_global "pin";;
      T ← attr_SE3 self "Mtarget";
      v ← as_viz v;
      viewer_do (applyViewerConfiguration v "world/box" (SE3ToXYZQUATtuple T));;
      v ← getattr self "viz";
      v ← as_viz v;
      viewer_do (viz_display v q);;
      load_global "time";;
      viewer_do (time_sleep 1e-2);;
      mret VNone
  end.

(** ** CostPosture (lines 82-103)

    [drawn] is the configuration [pin.randomConfiguration(rmodel)] returns
    when it is called, that is when no [qref] is given.  [rmodel.joints[1]]
    is the [IndexError] of Pinocchio's vector binding on a model with the
    universe joint only. *)

Definition CostPosture_init (rmodel : Model) (rdata : loc) (qref : option vec)
           (viz : option loc) (drawn : vec) : C loc :=
  self ← new_object CostPosture;
  setattr self "qref" (VVec (default drawn qref));;
  match joints rmodel !! 1%nat with
  | Some j =>
      setattr self "removeFreeFlyer" (VBool (joint_nq j =? 7));;
      mret self
  | None => throw (IndexError "Index out of range")
  end.

Definition CostPosture_residual : method := fun self q =>
  b ← getattr self "removeFreeFlyer";
  b ← truthy b;
  if (b : bool)
  then qref ← attr_vec self "qref";
       r ← liftR (np_sub q qref);
       mret (VVec (drop 7 r))
  else qref ← attr_vec self "qref";
       r ← liftR (np_sub q qref);
       mret (VVec r).

(** ** CostGravity (lines 107-122) *)

Definition CostGravity_init (rmodel : Model) (rdata : loc) (viz : option loc)
  : C loc :=
  self ← new_object CostGravity;
  setattr self "rmodel" (VModel rmodel);;
  setattr self "rdata" (VData rdata);;
  setattr self "viz" (viz_value viz);;
  mret self.

Definition CostGravity_residual : method := fun self q =>
  m ← attr_model self "rmodel";
  d ← attr_data self "rdata";
  g ← on_data d (fun x => computeGeneralizedGravity m x q);
  mret (VVec g).

(** ** CostWeightedGravity (lines 125-143) *)

Definition CostWeightedGravity_init (rmodel : Model) (rdata : loc)
           (viz : option loc) : C loc :=
  self ← new_object CostWeightedGravity;
  setattr self "rmodel" (VModel rmodel);;
  setattr self "rdata" (VData rdata);;
  setattr self "viz" (viz_value viz);;
  m ← attr_model self "rmodel";
  z ← liftR (np_zeros (nv m));
  setattr self "v0" (VVec z);;
  mret self.

Definition CostWeightedGravity_calc : method := fun self q =>
  m ← attr_model self "rmodel";
  d ← attr_data self "rdata";
  g ← on_data d (fun x => computeGeneralizedGravity m x q);
  m ← attr_model self "rmodel";
  d ← attr_data self "rdata";
  v0 ← attr_vec self "v0";
  v0' ← attr_vec self "v0";
  a ← on_data d (fun x => aba m x q v0 v0');
  let taugrav := np_neg a in
  mret (VNum (Float (np_dot taugrav g))).

Definition CostWeightedGravity_calcDiff : method := fun self q =>
  m ← attr_model self "rmodel";
  d ← attr_data self "rdata";
  v0 ← attr_vec self "v0";
  v0' ← attr_vec self "v0";
  on_data d (fun x => (computeABADerivatives m x q v0 v0', tt));;
  m ← attr_model self "rmodel";
  d ← attr_data self "rdata";
  v0 ← attr_vec self "v0";
  v0' ← attr_vec self "v0";
  on_data d (fun x => (computeRNEADerivatives m x q v0 v0', tt));;
  d ← attr_data self "rdata";
  A ← read_data d (fun x => mat_neg (transpose (dtau_dq x)));
  d ← attr_data self "rdata";
  a ← read_data d ddq;
  let left := np_matvec A a in
  d ← attr_data self "rdata";
  B ← read_data d (fun x => transpose (ddq_dq x));
  d ← attr_data self "rdata";
  b ← read_data d tau;
  r ← liftR (np_sub left (np_matvec B b));
  mret (VVec r).

(** ** CostPostureDiff (lines 147-160) *)

Definition CostPostureDiff_init (rmodel : Model) (rdata : loc)
           (qref : option vec) (viz : option loc) (drawn : vec) : C loc :=
  self ← new_object CostPostureDiff;
  setattr self "rmodel" (VModel rmodel);;
  setattr self "qref" (VVec (default drawn qref));;
  mret self.

Definition CostPostureDiff_residual : method := fun self q =>
  m ← attr_model self "rmodel";
  qref ← attr_vec self "qref";
  mret (VVec (difference m q qref)).

(** ** [self.residual(q)]

    The attribute is looked up in the instance, then in its class.  No
    instance of the file holds a [residual] of its own; a class has the
    method or the lookup is an [AttributeError]. *)
Definition residual_of (c : cost_class) : option method :=
  match c with
  | Cost3d => Some Cost3d_residual
  | Cost6d => Some Cost6d_residual
  | CostPosture => Some CostPosture_residual
  | CostGravity => Some CostGravity_residual
  | CostWeightedGravity => None
  | CostPostureDiff => Some CostPostureDiff_residual
  end.

Definition call_residual (self : loc) (q : vec) : C value :=
  o ← get_object self;
  match dict o !! "residual" with
  | Some _ => throw (TypeError "object is not callable")
  | None =>
      match residual_of (cls o) with
      | Some f => f self q
      | None => throw (no_attribute (cls o) "residual")
      end
  end.

(** [sum(self.residual(q) ** 2)], the [calc] of lines 25, 64, 95, 117 and
    156. *)
Definition sum_of_squared_residual : method := fun self q =>
  r ← call_residual self q;
  r ← as_vec r;
  mret (VNum (py_sum (np_square r))).

Definition Cost3d_calc : method := sum_of_squared_residual.
Definition Cost6d_calc : method := sum_of_squared_residual.
Definition CostPosture_calc : method := sum_of_squared_residual.
Definition CostGravity_calc : method := sum_of_squared_residual.
Definition CostPostureDiff_calc : method := sum_of_squared_residual.

(** ** The derivatives that call [self.residual] *)

Definition Cost6d_calcDiff : method := fun self q =>
  m ← attr_model self "rmodel";
  d ← attr_data self "rdata";
  k ← attr_int self "frame_index";
  J ← on_data d (fun x => computeFrameJacobian m x q k);
  r ← call_residual self q;
  dM ← attr_SE3 self "deltaM";
  let Jlog := Jlog6 dM in
  r ← as_vec r;
  let A := mat_scale 2 (transpose J) in
  mret (VVec (np_matvec (np_matmul A (transpose Jlog)) r)).

Definition CostPosture_calcDiff : method := fun self q =>
  b ← getattr self "removeFreeFlyer";
  b ← truthy b;
  if (b : bool)
  then m ← attr_model self "rmodel";
       g ← liftR (np_zeros (nv m));
       r ← call_residual self q;
       r ← as_vec r;
       g ← liftR (set_from 6 g (np_scale 2 r));
       mret (VVec g)
  else r ← call_residual self q;
       r ← as_vec r;
       mret (VVec (np_scale 2 r)).

Definition CostGravity_calcDiff : method := fun self q =>
  g ← call_residual self q;
  m ← attr_model self "rmodel";
  d ← attr_data self "rdata";
  G ← on_data d (fun x => computeGeneralizedGravityDerivatives m x q);
  g ← as_vec g;
  mret (VVec (np_matvec (mat_scale 2 (transpose G)) g)).

Definition CostPostureDiff_calcDiff : method := fun self q =>
  m ← attr_model self "rmodel";
  qref ← attr_vec self "qref";
  let '(J, _) := dDifference m q qref in
  let A := mat_scale 2 (transpose J) in
  r ← call_residual self q;
  r ← as_vec r;
  mret (VVec (np_matvec A r)).

(** ** The classes: the methods each [class] statement defines *)

Definition class_methods (c : cost_class) : list (string * method) :=
  match c with
  | Cost3d =>
      [ ("residual", Cost3d_residual); ("calc", Cost3d_calc);
        ("callback", Cost3d_callback); ("calcDiff", Cost3d_calcDiff) ]
  | Cost6d =>
      [ ("residual", Cost6d_residual); ("calc", Cost6d_calc);
        ("callback", Cost6d_callback); ("calcDiff", Cost6d_calcDiff) ]
  | CostPosture =>
      [ ("residual", CostPosture_residual); ("calc", CostPosture_calc);
        ("calcDiff", CostPosture_calcDiff) ]
  | CostGravity =>
      [ ("residual", CostGravity_residual); ("calc", CostGravity_calc);
        ("calcDiff", CostGravity_calcDiff) ]
  | CostWeightedGravity =>
      [ ("calc", CostWeightedGravity_calc);
        ("calcDiff", CostWeightedGravity_calcDiff) ]
  | CostPostureDiff =>
      [ ("residual", CostPostureDiff_residual); ("calc", CostPostureDiff_calc);
        ("calcDiff", CostPostureDiff_calcDiff) ]
  end.

Definition method_names (c : cost_class) : list string :=
  List.map fst (class_methods c).

Definition find_method (c : cost_class) (name : string) : option method :=
  snd <$> List.find (fun p => String.eqb (fst p) name) (class_methods c).

(** [obj.name(q)], called from outside the class. *)
Definition call_method (self : loc) (name : string) (q : vec) : C value :=
  o ← get_object self;
  match dict o !! name with
  | Some _ => throw (TypeError "object is not callable")
  | None =>
      match find_method (cls o) name with
      | Some f => f self q
      | None => throw (no_attribute (cls o) name)
      end
  end.

(** ** [Class(...)]: the six ways the file can build a cost *)

Inductive construction : Type :=
| new_Cost3d (rmodel : Model) (rdata : loc) (frame_index : option Z)
             (ptarget : option vec) (viz : option loc)
| new_Cost6d (rmodel : Model) (rdata : loc) (frame_index : option Z)
             (Mtarget : option SE3) (viz : option loc)
| new_CostPosture (rmodel : Model) (rdata : loc) (qref : option vec)
                  (viz : option loc) (drawn : vec)
| new_CostGravity (rmodel : Model) (rdata : loc) (viz : option loc)
| new_CostWeightedGravity (rmodel : Model) (rdata : loc) (viz : option loc)
| new_CostPostureDiff (rmodel : Model) (rdata : loc) (qref : option vec)
                      (viz : option loc) (drawn : vec).

Definition class_of (k : construction) : cost_class :=
  match k with
  | new_Cost3d _ _ _ _ _ => Cost3d
  | new_Cost6d _ _ _ _ _ => Cost6d
  | new_CostPosture _ _ _ _ _ => CostPosture
  | new_CostGravity _ _ _ => CostGravity
  | new_CostWeightedGravity _ _ _ => CostWeightedGravity
  | new_CostPostureDiff _ _ _ _ _ => CostPostureDiff
  end.

Definition construct (k : construction) : C loc :=
  match k with
  | new_Cost3d m d f p v => Cost3d_init m d f p v
  | new_Cost6d m d f t v => Cost6d_init m d f t v
  | new_CostPosture m d r v q => CostPosture_init m d r v q
  | new_CostGravity m d v => CostGravity_init m d v
  | new_CostWeightedGravity m d v => CostWeightedGravity_init m d v
  | new_CostPostureDiff m d r v q => CostPostureDiff_init m d r v q
  end.

(** The store with the instance [o] at [self]. *)
Definition with_object (self : loc) (o : object) (st : store) : store :=
  {| objs := <[self := o]> (objs st); datas := datas st; viewer := viewer st |}.


(** ** The test block (lines 167-237) *)

Definition num_float (n : num) : float :=
  match n with Int z => float_of_Z z | Float f => f end.

(** A scalar operand: a Python [int], a Python [float] or a NumPy
    [float64]. *)
Inductive scalar : Type :=
| SInt (z : Z)
| SPy (f : float)
| SNp (f : float).

Definition as_scalar (v : value) : option scalar :=
  match v with
  | VNum (Int z) => Some (SInt z)
  | VNum (Float f) => Some (SNp f)
  | VFloat f => Some (SPy f)
  | _ => None
  end.

Definition is_np (s : scalar) : bool :=
  match s with SNp _ => true | _ => false end.

(** An [int] that meets a float is converted to one, which fails when its
    nearest binary64 value is infinite. *)
Definition int_as_float (z : Z) : C float :=
  if PrimFloat.is_infinity (float_of_Z z)
  then throw (OverflowError "int too large to convert to float")
  else mret (float_of_Z z).

Definition scalar_float (s : scalar) : C float :=
  match s with
  | SInt z => int_as_float z
  | SPy f | SNp f => mret f
  end.

(** [a - b] on two scalars: an [int] for two [int]s, a NumPy scalar when
    either is one, a Python [float] otherwise. *)
Definition scalar_sub (a b : scalar) : C value :=
  match a, b with
  | SInt x, SInt y => mret (VNum (Int (x - y)))
  | _, _ =>
      x ← scalar_float a;
      y ← scalar_float b;
      mret (if is_np a || is_np b then VNum (Float (x - y))
            else VFloat (x - y))
  end.

(** [a - b] on numbers and arrays. *)
Definition value_sub (a b : value) : C value :=
  match a, b with
  | VVec x, VVec y => r ← liftR (np_sub x y); mret (VVec r)
  | VVec x, _ =>
      match as_scalar b with
      | Some y => y ← scalar_float y;
                  mret (VVec (List.map (fun u => u - y)%float x))
      | None => wrong_type
      end
  | _, VVec y =>
      match as_scalar a with
      | Some x => x ← scalar_float x;
                  mret (VVec (List.map (fun u => x - u)%float y))
      | None => wrong_type
      end
  | _, _ =>
      match as_scalar a, as_scalar b with
      | Some x, Some y => scalar_sub x y
      | _, _ => wrong_type
      end
  end.

(** [a / eps] for the Python [float] [eps]: Python's division of an [int]
    or a [float] raises on a zero divisor, NumPy's gives an infinity or a
    NaN (and a warning). *)
Definition value_div (a : value) (eps : float) : C value :=
  match a with
  | VVec x => mret (VVec (List.map (fun u => u / eps)%float x))
  | _ =>
      match as_scalar a with
      | Some (SNp x) => mret (VNum (Float (x / eps)))
      | Some s =>
          x ← scalar_float s;
          if PrimFloat.is_zero eps then throw ZeroDivisionError
          else mret (VFloat (x / eps))
      | None => wrong_type
      end
  end.

(** [norm(a)]; of a matrix, the norm of its entries. *)
Definition value_norm (a : value) : C float :=
  match a with
  | VVec x => mret (np_norm x)
  | VMat m => mret (np_norm (concat m))
  | _ =>
      match as_scalar a with
      | Some s => x ← scalar_float s; mret (PrimFloat.abs x)
      | None => wrong_type
      end
  end.

(** The items of [fs] when all are numbers, and when all are arrays. *)
Fixpoint all_numbers (fs : list value) : option vec :=
  match fs with
  | [] => Some []
  | VNum x :: fs' => cons (num_float x) <$> all_numbers fs'
  | VFloat x :: fs' => cons x <$> all_numbers fs'
  | _ :: _ => None
  end.

Fixpoint all_arrays (fs : list value) : option (list vec) :=
  match fs with
  | [] => Some []
  | VVec x :: fs' => cons x <$> all_arrays fs'
  | _ :: _ => None
  end.

Definition same_lengths (rows : list vec) : bool :=
  match rows with
  | [] => true
  | r :: rest => forallb (fun x => (length x =? length r)%nat) rest
  end.

Definition ragged : exn :=
  ValueError "all input arrays must have the same shape".

(** [np.stack(fs, axis=1)] and [np.array(fs)]. *)
Definition np_stack_axis1 (fs : list value) : C value :=
  match all_arrays fs with
  | Some rows => if same_lengths rows then mret (VMat (transpose rows))
                 else throw ragged
  | None => throw ragged
  end.

Definition inhomogeneous (n : nat) : exn :=
  ValueError ("setting an array element with a sequence. The requested "
                ++ "array has an inhomogeneous shape after 1 dimensions. "
                ++ "The detected shape was (" ++ str_nat n
                ++ ",) + inhomogeneous part.")%string.

Definition np_array_of (fs : list value) : C value :=
  match all_numbers fs with
  | Some a => mret (VVec a)
  | None =>
      match all_arrays fs with
      | Some rows => if same_lengths rows then mret (VMat rows)
                     else throw (inhomogeneous (length fs))
      | None => throw (inhomogeneous (length fs))
      end
  end.

(** The loop of lines 178-182 over the directions [ks]. *)
Fixpoint Tdiff1_loop (func : vec -> C value) (exp : vec -> vec -> vec)
         (q : vec) (f0 : value) (eps : float) (ks : list nat)
         (v : vec) (fs : list value) : C (list value) :=
  match ks with
  | [] => mret fs
  | k :: ks' =>
      let v := <[k := eps]> v in
      let qk := exp q v in
      fun st =>
        match (fk ← func qk; d ← value_sub fk f0; value_div d eps) st with
        | Ok (d, st') =>
            let v := <[k := (default 0 (v !! k) - eps)%float]> v in
            Tdiff1_loop func exp q f0 eps ks' v (fs ++ [d]) st'
        | Raise e => Raise e
        end
  end.

(** [Tdiff1] (lines 171-186). *)
Definition Tdiff1 (func : vec -> C value) (exp : vec -> vec -> vec)
           (n : Z) (q : vec) (eps : float) : C value :=
  f0 ← func q;
  v ← liftR (np_zeros n);
  fs ← Tdiff1_loop func exp q f0 eps (seq 0 (Z.to_nat n)) v [];
  match fs with
  | [] => throw (IndexError "list index out of range")
  | VVec a :: _ =>
      if (1 <? length a)%nat then np_stack_axis1 fs else np_array_of fs
  | _ :: _ => np_array_of fs
  end.

(** [Tdiffq] (lines 194-195), on the model of the robot. *)
Definition Tdiffq (rmodel : Model) (f : vec -> C value) (q : vec) : C value :=
  Tdiff1 f (integrate rmodel) (nv rmodel) q 1e-6.

Definition py_assert (b : bool) : C unit :=
  if b then mret tt else throw AssertionError.

(** The two forms of the assertion: lines 202, 209, 216 and lines 223,
    230, 237. *)
Inductive tolerance : Type := absolute | relative.

(** The three lines each test runs on its [cost]. *)
Definition check_gradient (rmodel : Model) (cost : loc) (q : vec)
           (tol : tolerance) : C unit :=
  Tg ← call_method cost "calcDiff" q;
  Tgn ← Tdiffq rmodel (call_method cost "calc") q;
  d ← value_sub Tg Tgn;
  n ← value_norm d;
  match tol with
  | absolute => py_assert (n <? 1e-4)%float
  | relative =>
      c ← call_method cost "calc" q;
      match c with
      | VNum x => py_assert (n / num_float x <? 1e-4)%float
      | VFloat x => py_assert (n / x <? 1e-4)%float
      | _ => wrong_type
      end
  end.

Definition test (rmodel : Model) (k : construction) (q : vec)
           (tol : tolerance) : C unit :=
  cost ← construct k;
  check_gradient rmodel cost q tol.

(** Lines 197-209, and the whole block.  [rmodel] and [rdata] are the
    robot [loadTalos] returns, [q], [qref3] and [qref6] the
    configurations the three calls of [pin.randomConfiguration] draw. *)
Definition tests_before_CostPosture (rmodel : Model) (rdata : loc) (q : vec)
  : C unit :=
  test rmodel (new_Cost3d rmodel rdata None None None) q absolute;;
  test rmodel (new_Cost6d rmodel rdata None None None) q absolute.

Definition self_test (rmodel : Model) (rdata : loc) (q qref3 qref6 : vec)
  : C unit :=
  tests_before_CostPosture rmodel rdata q;;
  test rmodel (new_CostPosture rmodel rdata None None qref3) q absolute;;
  test rmodel (new_CostGravity rmodel rdata None) q relative;;
  test rmodel (new_CostWeightedGravity rmodel rdata None) q relative;;
  test rmodel (new_CostPostureDiff rmodel rdata None None qref6) q relative.

(** ** Notions for the properties of the classes *)

(** The viewer a constructor call is given, if any. *)
Definition construction_viz (k : construction) : option loc :=
  match k with
  | new_Cost3d _ _ _ _ v | new_Cost6d _ _ _ _ v
  | new_CostPosture _ _ _ v _ | new_CostGravity _ _ v
  | new_CostWeightedGravity _ _ v | new_CostPostureDiff _ _ _ v _ => v
  end.

(** A computation that, when it returns, has left every instance and the
    calls made on the viewer as they were. *)
Definition keeps_instances {A} (m : C A) (st : store) : Prop :=
  forall a st', m st = Ok (a, st') ->
                objs st' = objs st /\ viewer st' = viewer st.

(** [m] keeps the instances in every store that holds [o] at [self]. *)
Definition keeps_at (self : loc) (o : object) {A} (m : C A) : Prop :=
  forall st, objs st !! self = Some o -> keeps_instances m st.

(** A float a function handed to [Tdiff1] returns: a Python [float] or a
    NumPy [float64]. *)
Definition float_value (python : bool) (x : float) : value :=
  if python then VFloat x else VNum (Float x).

(** The tangent vector [Tdiff1] perturbs with in the direction [k] of [n]:
    [eps] at the index [k], zero elsewhere. *)
Definition perturbation (n k : nat) (eps : float) : vec :=
  <[k := eps]> (replicate n 0%float).

End WithPinocchio.

(** Stand-ins for Pinocchio, to run the classes on concrete inputs: the
    workspace and the placements carry nothing, the algorithms return
    empty arrays, every frame is at the origin, every matrix-vector
    product is the zero vector of seven entries and every norm is zero. *)
Definition sample_pinocchio : Pinocchio :=
  {| Data := unit;
     SE3 := unit;
     framesForwardKinematics := fun _ x _ => x;
     computeJointJacobians := fun _ x _ => x;
     forwardKinematics := fun _ x _ => x;
     updateFramePlacement := fun _ x _ => (x, tt);
     getFrameJacobian_LOCAL_WORLD_ALIGNED := fun _ _ _ => [];
     computeFrameJacobian := fun _ x _ _ => (x, []);
     computeGeneralizedGravity := fun _ x _ => (x, []);
     computeGeneralizedGravityDerivatives := fun _ x _ => (x, []);
     aba := fun _ x _ _ _ => (x, []);
     computeABADerivatives := fun _ x _ _ _ => x;
     computeRNEADerivatives := fun _ x _ _ _ => x;
     difference := fun _ _ _ => [];
     dDifference := fun _ _ _ => ([], []);
     oMf := fun _ _ => tt;
     dtau_dq := fun _ => [];
     ddq_dq := fun _ => [];
     ddq := fun _ => [];
     tau := fun _ => [];
     translation := fun _ => [0; 0; 0]%float;
     SE3_inverse := fun m => m;
     SE3_mul := fun m _ => m;
     SE3_of := fun _ _ => tt;
     log_vector := fun _ => [];
     Jlog6 := fun _ => [];
     utils_rotate := fun _ _ => [];
     SE3ToXYZQUATtuple := fun _ => [];
     integrate := fun _ q _ => q;
     np_matvec := fun _ _ => replicate 7 0%float;
     np_matmul := fun a _ => a;
     np_dot := fun _ _ => 0%float;
     np_norm := fun _ => 0%float |}.

(** A robot with a free-flyer root joint (seven coordinates) and one
    revolute joint, and a store that holds its workspace at address 1. *)
Definition sample_model : Model :=
  {| nq := 8; nv := 7; nframes := 3;
     joints := [ {| joint_nq := 0 |}; {| joint_nq := 7 |}; {| joint_nq := 1 |} ] |}.

Definition sample_store : store (pin := sample_pinocchio) :=
  {| objs := ∅; datas := {[ 1%positive := tt ]}; viewer := [] |}.

Definition sample_q : vec := [0; 0; 0; 0; 0; 0; 1; 0.5]%float.

(** An arm fixed to the ground: two revolute joints, no free flyer. *)
Definition sample_arm : Model :=
  {| nq := 2; nv := 2; nframes := 3;
     joints := [ {| joint_nq := 0 |}; {| joint_nq := 1 |}; {| joint_nq := 1 |} ] |}.

(** The first coordinate, as a cost that touches no workspace and returns
    a Python [float]. *)
Definition sample_func
  : vec -> C (pin := sample_pinocchio) (value (pin := sample_pinocchio)) :=
  fun v => mret (float_value true (default 0%float (head v))).

End Costs.

(* ===================================================================== *)
(** * Properties of the webcam driver *)
(* ===================================================================== *)

Module WebcamProperties.

Import Webcam.

Section Properties.

Context {lib : Libraries}.

(** ** The command line *)

Lemma find_action_some p flag a :
  find_action p flag = Some a -> a ∈ actions p /\ flag ∈ option_strings a.
Proof.
  unfold find_action. intros H. apply find_some in H as [Hin Hb].
  split; [by apply list_elem_of_In | by apply bool_decide_eq_true in Hb].
Qed.

(** The strings set aside only grow. *)
Lemma consume_extras p argv : forall ns seen ex ns' seen' ex',
  consume p argv ns seen ex = Ok (ns', seen', ex') ->
  exists more, ex' = (ex ++ more)%list.
Proof.
  induction argv as [|[flag val] rest IH]; intros ns seen ex ns' seen' ex' H.
  - cbn in H. injection H as <- <- <-. exists []. by rewrite app_nil_r.
  - cbn [consume] in H.
    destruct (find_action _ _) as [a|].
    + destruct (action a) as [ty| |]; [ | |discriminate].
      * destruct val as [s|]; [|discriminate].
        destruct (convert ty s); [|discriminate]. by eapply IH.
      * destruct val as [s|]; [|by eapply IH].
        apply IH in H as [more ->]. exists (s :: more).
        by rewrite <- app_assoc.
    + apply IH in H as [more ->]. eexists. by rewrite <- app_assoc.
Qed.

Lemma consume_extras_nil p argv ns seen ex ns' seen' :
  consume p argv ns seen ex = Ok (ns', seen', []) -> ex = [].
Proof.
  intros H. apply consume_extras in H as [more H]. by destruct ex.
Qed.

(** A run that set a string aside does not end with none. *)
Ltac set_aside H :=
  exfalso; apply consume_extras_nil in H; revert H; clear;
  let x := fresh in intros x; apply app_eq_nil in x as [_ x]; discriminate x.

Ltac consume_step H val a Ha :=
  let w := fresh "w" in
  let s := fresh "s" in
  cbn [consume] in H;
  match type of H with
  | context [find_action ?p ?f] =>
      destruct (find_action p f) as [a|] eqn:?; [|set_aside H]
  end;
  destruct (action a) as [ty| |] eqn:Ha;
  [ destruct val as [s|];
    [ destruct (convert ty s) as [w|] eqn:?; [|discriminate H]
    | discriminate H ]
  | destruct val; [set_aside H|]
  | discriminate H ].

Lemma consume_recognised p argv : forall ns seen ex ns' seen',
  consume p argv ns seen ex = Ok (ns', seen', []) ->
  forall o, o ∈ argv ->
    exists a v, find_action p o.1 = Some a /\ stores a o.2 v.
Proof.
  induction argv as [|[flag val] rest IH]; intros ns seen ex ns' seen' H o Ho.
  - by apply elem_of_nil in Ho.
  - consume_step H val a Ha; apply elem_of_cons in Ho as [->|Ho];
      try (eapply IH; [exact H|exact Ho]);
      eexists a, _; (split; [done|]); unfold stores; rewrite Ha; cbn;
      first [eassumption|reflexivity].
Qed.

Lemma consume_seen p argv : forall ns seen ex ns' seen' d,
  consume p argv ns seen ex = Ok (ns', seen', []) ->
  d ∈ seen' ->
  d ∈ seen \/ exists o a, o ∈ argv /\ find_action p o.1 = Some a /\ dest a = d.
Proof.
  induction argv as [|[flag val] rest IH]; intros ns seen ex ns' seen' d H Hd.
  - cbn in H. injection H as <- <- _. by left.
  - consume_step H val a Ha;
      (eapply IH in H; [|exact Hd]);
      (destruct H as [H|(o & a' & Ho & Hfo & Hda)];
       [ apply elem_of_cons in H as [->|H];
         [ right; eexists _, a; split; [apply list_elem_of_here|done]
         | by left ]
       | right; exists o, a'; split; [by right|done] ]).
Qed.

Lemma consume_untouched p argv : forall ns seen ex ns' seen' d,
  consume p argv ns seen ex = Ok (ns', seen', []) ->
  (forall o a, o ∈ argv -> find_action p o.1 = Some a -> dest a <> d) ->
  ns' !! d = ns !! d.
Proof.
  induction argv as [|[flag val] rest IH]; intros ns seen ex ns' seen' d H Hd.
  - cbn in H. by injection H as <- <- _.
  - assert (Hrest : forall o a, o ∈ rest -> find_action p o.1 = Some a -> dest a <> d)
      by (intros o a' Ho; apply Hd; by right).
    consume_step H val a Ha;
      rewrite (IH _ _ _ _ _ _ H Hrest);
      apply lookup_insert_ne; (eapply Hd; [apply list_elem_of_here|done]).
Qed.

Lemma consume_stored p argv : forall ns seen ex ns' seen' d v,
  consume p argv ns seen ex = Ok (ns', seen', []) ->
  ns' !! d = Some v ->
  (ns !! d = Some v /\
   forall o a, o ∈ argv -> find_action p o.1 = Some a -> dest a <> d) \/
  exists o a, o ∈ argv /\ find_action p o.1 = Some a /\ dest a = d /\ stores a o.2 v.
Proof.
  induction argv as [|[flag val] rest IH]; intros ns seen ex ns' seen' d v H Hv.
  - cbn in H. injection H as <- <- _. left. split; [done|].
    intros o a Ho. by apply elem_of_nil in Ho.
  - consume_step H val a Ha;
      (eapply IH in H; [|exact Hv]);
      (destruct H as [[H Hun]|(o & a' & Ho & Hfo & Hda & Hst)];
       [ destruct (decide (dest a = d)) as [Heq|Hne];
         [ rewrite Heq, lookup_insert_eq in H; injection H as <-;
           right; eexists _, a; split; [apply list_elem_of_here|];
           split; [done|]; split; [done|];
           unfold stores; rewrite Ha; simpl; done
         | rewrite lookup_insert_ne in H by done; left; split; [done|];
           intros o a' Ho Hfo; apply elem_of_cons in Ho as [->|Ho];
           [ simpl in Hfo; congruence | by eapply Hun ] ]
       | right; exists o, a'; split; [by right|done] ]).
Qed.

(** The parser ends a run by a usage error, or by the help where the
    command line asks for it. *)
Lemma consume_raises p argv : forall ns seen ex e,
  consume p argv ns seen ex = Raise e ->
  e = SystemExit 2
  \/ e = SystemExit 0
     /\ exists o a, o ∈ argv /\ find_action p o.1 = Some a
                    /\ action a = print_help.
Proof.
  induction argv as [|[flag val] rest IH]; intros ns seen ex e H; [discriminate|].
  assert (Hrest : forall ns seen ex,
            consume p rest ns seen ex = Raise e ->
            e = SystemExit 2
            \/ e = SystemExit 0
               /\ exists o a, o ∈ (flag, val) :: rest
                              /\ find_action p o.1 = Some a
                              /\ action a = print_help).
  { intros ns0 seen0 ex0 H0.
    destruct (IH _ _ _ _ H0) as [?|[? (o & a & Ho & Hf & Ha)]]; [by left|].
    right. split; [done|]. exists o, a. split; [by right|done]. }
  cbn [consume] in H.
  destruct (find_action p flag) as [a|] eqn:Hf; [|by eapply Hrest].
  destruct (action a) as [ty| |] eqn:Ha.
  - destruct val as [s|]; [|injection H as <-; by left].
    unfold convert in H. destruct ty; [by eapply Hrest|].
    destruct (float_of_string s); [by eapply Hrest|injection H as <-; by left].
  - destruct val; by eapply Hrest.
  - injection H as <-. right. split; [done|].
    exists (flag, val), a. split; [apply list_elem_of_here|done].
Qed.

Lemma consume_keeps p argv : forall ns seen ex ns' seen' d,
  consume p argv ns seen ex = Ok (ns', seen', []) ->
  is_Some (ns !! d) -> is_Some (ns' !! d).
Proof.
  induction argv as [|[flag val] rest IH]; intros ns seen ex ns' seen' d H Hd.
  - cbn in H. by injection H as <- <- _.
  - consume_step H val a Ha;
      (eapply IH; [exact H|]);
      (destruct (decide (dest a = d)) as [Heq|Hne];
       [ rewrite Heq, lookup_insert_eq; eauto
       | by rewrite lookup_insert_ne ]).
Qed.

(** What the last occurrence of an option stored is what the namespace
    holds. *)
Lemma consume_last p pre o post a : forall ns seen ex ns' seen',
  consume p (pre ++ o :: post) ns seen ex = Ok (ns', seen', []) ->
  find_action p o.1 = Some a ->
  (forall o' a', o' ∈ post -> find_action p o'.1 = Some a' -> dest a' <> dest a) ->
  exists v, stores a o.2 v /\ ns' !! dest a = Some v.
Proof.
  induction pre as [|[flag val] pre IH]; intros ns seen ex ns' seen' H Hf Hpost.
  - destruct o as [flag val]. cbn [app] in H. cbn in Hf. cbn [consume] in H.
    rewrite Hf in H.
    destruct (action a) as [ty| |] eqn:Ha.
    + destruct val as [s|]; [|discriminate H].
      destruct (convert ty s) as [w|] eqn:Hw; [|discriminate H].
      exists w. split; [unfold stores; by rewrite Ha|].
      rewrite (consume_untouched _ _ _ _ _ _ _ _ H Hpost).
      apply lookup_insert_eq.
    + destruct val as [s|]; [set_aside H|].
      exists (ABool true). split; [unfold stores; by rewrite Ha|].
      rewrite (consume_untouched _ _ _ _ _ _ _ _ H Hpost).
      apply lookup_insert_eq.
    + discriminate H.
  - cbn [app] in H. consume_step H val a0 Ha0; by eapply IH.
Qed.

(** Occurrences that all store something are all consumed, and every
    destination they reach is seen. *)
Lemma consume_all p argv :
  (forall o, o ∈ argv -> exists a v, find_action p o.1 = Some a /\ stores a o.2 v) ->
  forall ns seen, exists ns' seen',
    consume p argv ns seen [] = Ok (ns', seen', [])
    /\ (forall d, d ∈ seen -> d ∈ seen')
    /\ (forall o a, o ∈ argv -> find_action p o.1 = Some a -> dest a ∈ seen').
Proof.
  induction argv as [|[flag val] rest IH]; intros Hall ns seen.
  - exists ns, seen. split; [done|]. split; [done|].
    intros o a Ho. by apply elem_of_nil in Ho.
  - destruct (Hall (flag, val)) as (a & v & Hf & Hst); [apply list_elem_of_here|].
    assert (Hrest : forall o, o ∈ rest ->
              exists a v, find_action p o.1 = Some a /\ stores a o.2 v)
      by (intros o Ho; apply Hall; by right).
    cbn in Hf, Hst. cbn [consume]. rewrite Hf. unfold stores in Hst.
    destruct (action a) as [ty| |] eqn:Ha; [| |done].
    + destruct val as [s|]; [|done]. rewrite Hst.
      destruct (IH Hrest (<[dest a := v]> ns) (dest a :: seen))
        as (ns' & seen' & Hc & Hseen & Hdest).
      exists ns', seen'. split; [done|]. split.
      * intros d Hd. apply Hseen. by right.
      * intros o a' Ho Hfo. apply elem_of_cons in Ho as [->|Ho];
          [|by eapply Hdest].
        cbn in Hfo. assert (a' = a) as -> by congruence.
        apply Hseen, list_elem_of_here.
    + destruct val as [s|]; [done|].
      destruct (IH Hrest (<[dest a := ABool true]> ns) (dest a :: seen))
        as (ns' & seen' & Hc & Hseen & Hdest).
      exists ns', seen'. split; [done|]. split.
      * intros d Hd. apply Hseen. by right.
      * intros o a' Ho Hfo. apply elem_of_cons in Ho as [->|Ho];
          [|by eapply Hdest].
        cbn in Hfo. assert (a' = a) as -> by congruence.
        apply Hseen, list_elem_of_here.
Qed.

(** ** The parser of the script *)

Lemma parser_actions : actions parser = help_argument :: script_arguments.
Proof. reflexivity. Qed.

Lemma given_false flags argv o :
  given flags argv = false -> o ∈ argv -> o.1 ∉ flags.
Proof.
  unfold given. intros H Ho Hin.
  assert (existsb (fun o => bool_decide (o.1 ∈ flags)) argv = true) as Ht.
  { apply existsb_exists. exists o. split; [by apply list_elem_of_In|].
    by apply bool_decide_eq_true. }
  congruence.
Qed.

Lemma given_true flags argv :
  given flags argv = true -> exists o, o ∈ argv /\ o.1 ∈ flags.
Proof.
  unfold given. intros H. apply existsb_exists in H as (o & Ho & Hb).
  exists o. split; [by apply list_elem_of_In|by apply bool_decide_eq_true in Hb].
Qed.

(** The action a destination belongs to, and the option strings that
    reach it. *)
Lemma parser_dest flag a :
  find_action parser flag = Some a ->
  a ∈ help_argument :: script_arguments /\ flag ∈ option_strings a.
Proof. intros H. apply find_action_some in H. by rewrite parser_actions in H. Qed.

Ltac each_action Hin :=
  unfold script_arguments in Hin;
  repeat (apply elem_of_cons in Hin as [->|Hin]);
  [..|by apply elem_of_nil in Hin].

(** An option string belongs to one action, and reaches it. *)
Lemma flag_action flag a arg :
  arg ∈ script_arguments ->
  find_action parser flag = Some a ->
  flag ∈ option_strings arg ->
  a = arg.
Proof.
  intros Harg Hf Hfl. apply parser_dest in Hf as [Ha Hfa].
  apply elem_of_cons in Ha as [->|Ha].
  - each_action Harg; cbn in Hfl, Hfa;
      list_cases Hfl; subst flag; list_cases Hfa; discriminate.
  - each_action Ha; each_action Harg; try reflexivity; cbn in Hfl, Hfa;
      list_cases Hfl; subst flag; list_cases Hfa; discriminate.
Qed.

Lemma find_declared flag arg :
  arg ∈ script_arguments ->
  flag ∈ option_strings arg ->
  find_action parser flag = Some arg.
Proof.
  intros Harg Hfl.
  each_action Harg; cbn in Hfl; list_cases Hfl; subst flag; reflexivity.
Qed.

Lemma not_given_untouched flags d argv :
  (forall a, a ∈ help_argument :: script_arguments -> dest a = d ->
             option_strings a = flags) ->
  given flags argv = false ->
  forall o a, o ∈ argv -> find_action parser o.1 = Some a -> dest a <> d.
Proof.
  intros Hflags Hg o a Ho Hf Hd.
  apply parser_dest in Hf as [Hin Hfl].
  rewrite (Hflags a Hin Hd) in Hfl.
  by eapply given_false.
Qed.

Lemma flags_of_dest d flags arg :
  arg ∈ script_arguments -> dest arg = d -> option_strings arg = flags ->
  d <> "help" ->
  (forall a, a ∈ script_arguments -> dest a = d -> a = arg) ->
  forall a, a ∈ help_argument :: script_arguments -> dest a = d ->
            option_strings a = flags.
Proof.
  intros _ _ Hfl Hh Huniq a Hin Hd.
  apply elem_of_cons in Hin as [->|Hin]; [by destruct Hh|].
  by rewrite (Huniq a Hin Hd).
Qed.

Lemma dest_unique a b :
  a ∈ script_arguments -> b ∈ script_arguments -> dest a = dest b -> a = b.
Proof.
  intros Ha Hb. each_action Ha; each_action Hb; intros H; done.
Qed.

Lemma dest_not_help arg : arg ∈ script_arguments -> dest arg <> "help".
Proof. intros Harg. each_action Harg; discriminate. Qed.

(** The occurrences that do not name an option of [arg] do not write its
    destination. *)
Lemma others_untouched arg (post : list occurrence) :
  arg ∈ script_arguments ->
  Forall (fun o : occurrence => o.1 ∉ option_strings arg) post ->
  forall o a, o ∈ post -> find_action parser o.1 = Some a -> dest a <> dest arg.
Proof.
  intros Harg Hpost o a Ho Hf Hd.
  rewrite Forall_forall in Hpost. apply (Hpost o Ho).
  apply parser_dest in Hf as [Hin Hfl].
  apply elem_of_cons in Hin as [->|Hin].
  - by destruct (dest_not_help arg Harg).
  - by rewrite <- (dest_unique a arg Hin Harg Hd).
Qed.

Lemma parse_ok_inv argv ns :
  parse_script_input argv = Ok ns ->
  exists seen, consume parser argv (set_defaults parser) [] [] = Ok (ns, seen, [])
               /\ missing_required parser seen = [].
Proof.
  unfold parse_script_input, parse_args, mbind, result_bind.
  destruct (consume parser argv (set_defaults parser) [] [])
    as [[[ns' seen] ex]|e]; [|discriminate].
  destruct (missing_required parser seen) eqn:Hm; [|discriminate].
  destruct ex; [|discriminate].
  intros [= <-]. eauto.
Qed.

Lemma parse_raises argv e :
  parse_script_input argv = Raise e ->
  e = SystemExit 2
  \/ e = SystemExit 0 /\ given ["-h"; "--help"] argv = true.
Proof.
  unfold parse_script_input, parse_args, mbind, result_bind.
  destruct (consume parser argv (set_defaults parser) [] [])
    as [[[ns seen] ex]|e'] eqn:Hc.
  - destruct (missing_required parser seen); [destruct ex|];
      intros [= <-]; by left.
  - intros [= <-].
    apply consume_raises in Hc as [?|[? (o & a & Ho & Hf & Ha)]]; [by left|].
    right. split; [done|].
    apply parser_dest in Hf as [Hin Hfl].
    apply elem_of_cons in Hin as [->|Hin]; [|by each_action Hin].
    unfold given. apply existsb_exists. exists o.
    split; [by apply list_elem_of_In|by apply bool_decide_eq_true].
Qed.

Lemma required_seen seen :
  missing_required parser seen = [] <->
  "body_name" ∈ seen /\ "models_dir" ∈ seen.
Proof.
  unfold missing_required. rewrite parser_actions. cbn.
  destruct (bool_decide_reflect ("body_name" ∈ seen));
    destruct (bool_decide_reflect ("models_dir" ∈ seen)); cbn;
    split; try done; intros [? ?]; done.
Qed.

Lemma seen_given d flags arg argv ns seen :
  arg ∈ script_arguments -> dest arg = d -> option_strings arg = flags ->
  d <> "help" ->
  consume parser argv (set_defaults parser) [] [] = Ok (ns, seen, []) ->
  d ∈ seen -> given flags argv = true.
Proof.
  intros Harg Hd Hfl Hh Hc Hseen.
  destruct (given flags argv) eqn:Hg; [done|exfalso].
  pose proof (consume_seen _ _ _ _ _ _ _ _ Hc Hseen) as
    [Hnil|(o & a & Ho & Hf & Hda)].
  - by apply elem_of_nil in Hnil.
  - revert Hda. eapply not_given_untouched; [|exact Hg|exact Ho|exact Hf].
    eapply flags_of_dest; eauto. intros b Hb Hdb.
    apply dest_unique; congruence.
Qed.

Lemma default_kept d flags arg argv ns seen :
  arg ∈ script_arguments -> dest arg = d -> option_strings arg = flags ->
  d <> "help" ->
  consume parser argv (set_defaults parser) [] [] = Ok (ns, seen, []) ->
  given flags argv = false ->
  ns !! d = set_defaults parser !! d.
Proof.
  intros Harg Hd Hfl Hh Hc Hg.
  eapply consume_untouched; [exact Hc|].
  eapply not_given_untouched; [|exact Hg].
  eapply flags_of_dest; eauto. intros b Hb Hdb.
  apply dest_unique; congruence.
Qed.

Lemma parse_dom argv ns seen :
  consume parser argv (set_defaults parser) [] [] = Ok (ns, seen, []) ->
  dom ns = list_to_set (List.map dest script_arguments).
Proof.
  intros Hc. apply set_eq. intros d. rewrite elem_of_dom. split.
  - intros [v Hv].
    pose proof (consume_stored _ _ _ _ _ _ _ _ _ Hc Hv) as
      [[Hdef _]|(o & a & Ho & Hf & Hda & Hst)].
    + apply (elem_of_dom_2 (D := gset string)) in Hdef. revert Hdef.
      by vm_compute.
    + apply parser_dest in Hf as [Hin _].
      apply elem_of_cons in Hin as [->|Hin].
      { unfold stores in Hst. simpl in Hst. by destruct (o.2). }
      subst d. apply elem_of_list_to_set, list_elem_of_fmap. eauto.
  - intros Hd. eapply consume_keeps; [exact Hc|].
    apply elem_of_list_to_set in Hd. cbn in Hd.
    repeat (apply elem_of_cons in Hd as [->|Hd]); try (by eexists).
    by apply elem_of_nil in Hd.
Qed.

Ltac in_list :=
  unfold script_arguments;
  repeat first [apply list_elem_of_here | apply list_elem_of_further].

Lemma body_name_declared : body_name_argument ∈ script_arguments.
Proof. in_list. Qed.
Lemma models_dir_declared : models_dir_argument ∈ script_arguments.
Proof. in_list. Qed.
Lemma fov_declared : fov_argument ∈ script_arguments.
Proof. in_list. Qed.
Lemma scale_geometry_declared : scale_geometry_argument ∈ script_arguments.
Proof. in_list. Qed.
Lemma tmp_dir_declared : tmp_dir_argument ∈ script_arguments.
Proof. in_list. Qed.
Lemma use_region_declared : use_region_argument ∈ script_arguments.
Proof. in_list. Qed.

(** ** Which occurrences the parser takes *)

Lemma accepted_stores o :
  accepted o = true ->
  exists a v, find_action parser o.1 = Some a /\ stores a o.2 v.
Proof.
  destruct o as [flag [s|]]; unfold accepted; cbn.
  - intros H. apply orb_true_iff in H as [H|H].
    + apply bool_decide_eq_true in H. list_cases H; subst flag;
        eexists _, _; (split; [reflexivity|]); reflexivity.
    + apply andb_true_iff in H as [H Hs].
      apply bool_decide_eq_true in H, Hs. destruct Hs as [f Hs].
      list_cases H; subst flag;
        eexists _, (AFloat f); (split; [reflexivity|]);
        unfold stores, convert; cbn; by rewrite Hs.
  - intros H. apply bool_decide_eq_true in H. subst flag.
    eexists _, _. split; reflexivity.
Qed.

Lemma stores_accepted o a v :
  find_action parser o.1 = Some a -> stores a o.2 v -> accepted o = true.
Proof.
  destruct o as [flag val]. cbn. intros Hf Hst.
  apply parser_dest in Hf as [Hin Hfl].
  apply elem_of_cons in Hin as [->|Hin];
    [unfold stores in Hst; cbn in Hst; by destruct val|].
  unfold accepted. cbn.
  each_action Hin; unfold stores in Hst; cbn in Hst, Hfl;
    destruct val as [s|]; try done;
    list_cases Hfl; subst flag; try reflexivity;
    unfold convert in Hst; destruct (float_of_string s) eqn:Hs; try done;
    cbn; apply bool_decide_eq_true; eauto.
Qed.

Lemma last_value_None flags argv :
  last_value flags argv = None <-> given flags argv = false.
Proof.
  unfold last_value. rewrite fmap_None, last_None. split.
  - intros Hnil. destruct (given flags argv) eqn:Hg; [exfalso|done].
    apply given_true in Hg as (o & Ho & Hfl).
    assert (o ∈ filter (fun o : occurrence => o.1 ∈ flags) argv) as Hin
      by by apply list_elem_of_filter.
    rewrite Hnil in Hin. by apply elem_of_nil in Hin.
  - intros Hg. destruct (filter _ argv) as [|o l] eqn:Hfil; [done|exfalso].
    assert (o ∈ filter (fun o : occurrence => o.1 ∈ flags) argv) as Hin
      by (rewrite Hfil; apply list_elem_of_here).
    apply list_elem_of_filter in Hin as [Hfl Ho].
    by eapply given_false.
Qed.

(** What a destination holds after a parse: its default when its option
    was not given, what the last occurrence of the option stored when it
    was. *)
Lemma parse_last arg argv ns seen :
  arg ∈ script_arguments ->
  consume parser argv (set_defaults parser) [] [] = Ok (ns, seen, []) ->
  match last_value (option_strings arg) argv with
  | None => ns !! dest arg = Some (default arg)
  | Some val => exists v, stores arg val v /\ ns !! dest arg = Some v
  end.
Proof.
  intros Harg Hc.
  destruct (last_value (option_strings arg) argv) as [val|] eqn:Hlast.
  - unfold last_value in Hlast.
    apply fmap_Some in Hlast as (o & Hlast & ->).
    pose proof Hlast as Hin. apply last_Some in Hin as [l' Hin].
    assert (o ∈ filter (fun o : occurrence => o.1 ∈ option_strings arg) argv)
      as Hmem by (rewrite Hin; apply elem_of_app; right; apply list_elem_of_here).
    apply list_elem_of_filter in Hmem as [Hfl _].
    apply last_filter_Some in Hlast as (pre & post & -> & Hpost).
    eapply consume_last; [exact Hc|by apply find_declared|].
    by apply others_untouched.
  - apply last_value_None in Hlast.
    erewrite (default_kept (dest arg) _ arg); eauto using dest_not_help.
    each_action Harg; reflexivity.
Qed.

(** C7.  The script declares exactly six options, with the option strings
    [-b/--body_name], [-m/--models_dir], [--fov], [--scale_geometry],
    [--tmp_dir] and [--use_region], of which the first two are required.
    Parsing succeeds exactly when every occurrence of the command line is
    one of the six, well formed (a value for the first five, one that
    [float] reads for [--fov] and [--scale_geometry], none for
    [--use_region]), and both required options are given; otherwise the
    process exits, with the status 2 of a usage error or, only where the
    built-in [-h/--help] is asked for, with the status 0; it exits in
    particular when either required option is absent.
    When parsing succeeds the namespace holds exactly the six
    destinations: [body_name] and [models_dir] hold the string of the
    last occurrence of their option; [fov], [scale_geometry] and
    [tmp_dir] hold their default ([50.0], [0.001], ['tmp']) when the
    option is not given and what its last occurrence gives when it is;
    [use_region] holds [True] when the flag is given and its default
    [False] when it is not. *)
Theorem parse_script_input_six_flags (argv : list occurrence) :
  List.map option_strings script_arguments =
    [ ["-b"; "--body_name"]; ["-m"; "--models_dir"]; ["--fov"];
      ["--scale_geometry"]; ["--tmp_dir"]; ["--use_region"] ]
  /\ List.map required script_arguments = [true; true; false; false; false; false]
  /\ (is_ok (parse_script_input argv) = true <->
      forallb accepted argv = true
      /\ given ["-b"; "--body_name"] argv = true
      /\ given ["-m"; "--models_dir"] argv = true)
  /\ (forall e, parse_script_input argv = Raise e ->
        e = SystemExit 2
        \/ e = SystemExit 0 /\ given ["-h"; "--help"] argv = true)
  /\ (given ["-b"; "--body_name"] argv = false \/
      given ["-m"; "--models_dir"] argv = false ->
      exists code, parse_script_input argv = Raise (SystemExit code))
  /\ (forall ns, parse_script_input argv = Ok ns ->
        dom ns = list_to_set (List.map dest script_arguments)
        /\ (exists b, last_value ["-b"; "--body_name"] argv = Some (Some b)
                      /\ ns !! "body_name" = Some (AStr b))
        /\ (exists m, last_value ["-m"; "--models_dir"] argv = Some (Some m)
                      /\ ns !! "models_dir" = Some (AStr m))
        /\ match last_value ["--fov"] argv with
           | None => ns !! "fov" = Some (AFloat 50.0)
           | Some val => exists s f, val = Some s /\ float_of_string s = Some f
                                     /\ ns !! "fov" = Some (AFloat f)
           end
        /\ match last_value ["--scale_geometry"] argv with
           | None => ns !! "scale_geometry" = Some (AFloat 0.001)
           | Some val => exists s f, val = Some s /\ float_of_string s = Some f
                                     /\ ns !! "scale_geometry" = Some (AFloat f)
           end
        /\ match last_value ["--tmp_dir"] argv with
           | None => ns !! "tmp_dir" = Some (AStr "tmp")
           | Some val => exists s, val = Some s
                                   /\ ns !! "tmp_dir" = Some (AStr s)
           end
        /\ ns !! "use_region" = Some (ABool (given ["--use_region"] argv))).
Proof.
  split; [reflexivity|]. split; [reflexivity|].
  assert (Hiff : is_ok (parse_script_input argv) = true <->
                 forallb accepted argv = true
                 /\ given ["-b"; "--body_name"] argv = true
                 /\ given ["-m"; "--models_dir"] argv = true).
  { split.
    - destruct (parse_script_input argv) as [ns|e] eqn:Hp; [|done]. intros _.
      apply parse_ok_inv in Hp as (seen & Hc & Hm).
      apply required_seen in Hm as [Hb Hm]. split; [|split].
      + apply forallb_forall. intros o Ho%list_elem_of_In.
        destruct (consume_recognised _ _ _ _ _ _ _ Hc o Ho)
          as (a & v & Hf & Hst).
        by eapply stores_accepted.
      + by eapply (seen_given "body_name" _ body_name_argument);
          eauto using body_name_declared.
      + by eapply (seen_given "models_dir" _ models_dir_argument);
          eauto using models_dir_declared.
    - intros (Hacc & Hb & Hm).
      destruct (consume_all parser argv) with (ns := set_defaults parser)
                                              (seen := @nil string)
        as (ns' & seen' & Hc & _ & Hdest).
      { intros o Ho. apply accepted_stores. rewrite forallb_forall in Hacc.
        apply Hacc. by apply list_elem_of_In. }
      unfold parse_script_input, parse_args, mbind, result_bind. rewrite Hc.
      assert (missing_required parser seen' = []) as ->; [|done].
      apply required_seen. split.
      + apply given_true in Hb as (o & Ho & Hfl).
        apply (Hdest o body_name_argument Ho).
        apply find_declared; [exact body_name_declared|done].
      + apply given_true in Hm as (o & Ho & Hfl).
        apply (Hdest o models_dir_argument Ho).
        apply find_declared; [exact models_dir_declared|done]. }
  split; [exact Hiff|]. split; [apply parse_raises|]. split.
  - intros Habsent.
    destruct (parse_script_input argv) as [ns|e] eqn:Hp.
    + destruct Hiff as [Hiff _]. destruct (Hiff eq_refl) as (_ & Hb & Hm).
      destruct Habsent; congruence.
    + apply parse_raises in Hp as [->|[-> _]]; eauto.
  - intros ns Hp.
    assert (Hok : is_ok (parse_script_input argv) = true) by by rewrite Hp.
    apply Hiff in Hok as (_ & Hb & Hm).
    apply parse_ok_inv in Hp as (seen & Hc & _).
    split; [by eapply parse_dom|].
    pose proof (parse_last _ _ _ _ body_name_declared Hc) as Hbody.
    pose proof (parse_last _ _ _ _ models_dir_declared Hc) as Hmodels.
    pose proof (parse_last _ _ _ _ fov_declared Hc) as Hfov.
    pose proof (parse_last _ _ _ _ scale_geometry_declared Hc) as Hscale.
    pose proof (parse_last _ _ _ _ tmp_dir_declared Hc) as Htmp.
    pose proof (parse_last _ _ _ _ use_region_declared Hc) as Hregion.
    cbn [option_strings dest default body_name_argument models_dir_argument
         fov_argument scale_geometry_argument tmp_dir_argument
         use_region_argument] in *.
    split; [|split; [|split; [|split; [|split]]]].
    + destruct (last_value ["-b"; "--body_name"] argv) as [val|] eqn:Hl.
      * destruct Hbody as (v & Hst & Hv). unfold stores in Hst. cbn in Hst.
        destruct val as [b|]; [|done]. injection Hst as <-. eauto.
      * apply last_value_None in Hl. congruence.
    + destruct (last_value ["-m"; "--models_dir"] argv) as [val|] eqn:Hl.
      * destruct Hmodels as (v & Hst & Hv). unfold stores in Hst. cbn in Hst.
        destruct val as [m|]; [|done]. injection Hst as <-. eauto.
      * apply last_value_None in Hl. congruence.
    + destruct (last_value ["--fov"] argv) as [val|]; [|done].
      destruct Hfov as (v & Hst & Hv). unfold stores, convert in Hst.
      cbn in Hst. destruct val as [s|]; [|done].
      destruct (float_of_string s) as [f|] eqn:Hs; [|done].
      injection Hst as <-. eauto.
    + destruct (last_value ["--scale_geometry"] argv) as [val|]; [|done].
      destruct Hscale as (v & Hst & Hv). unfold stores, convert in Hst.
      cbn in Hst. destruct val as [s|]; [|done].
      destruct (float_of_string s) as [f|] eqn:Hs; [|done].
      injection Hst as <-. eauto.
    + destruct (last_value ["--tmp_dir"] argv) as [val|]; [|done].
      destruct Htmp as (v & Hst & Hv). unfold stores in Hst. cbn in Hst.
      destruct val as [s|]; [|done]. injection Hst as <-. eauto.
    + destruct (last_value ["--use_region"] argv) as [val|] eqn:Hl.
      * destruct Hregion as (v & Hst & Hv). unfold stores in Hst. cbn in Hst.
        destruct val as [s|]; [done|]. subst v.
        destruct (given ["--use_region"] argv) eqn:Hg; [done|].
        apply last_value_None in Hg. congruence.
      * apply last_value_None in Hl. by rewrite Hl.
Qed.


(** ** One turn of the loop *)

(** The three key codes. *)
Lemma ord_keys : ord "d" = 100 /\ ord "x" = 120 /\ ord "q" = 113.
Proof. by vm_compute. Qed.

Ltac split_ifs :=
  repeat match goal with
         | |- context [if ?b then _ else _] => destruct b eqn:?
         end.

(** A membership in a literal list, or a case that cannot be. *)
Ltac in_literal :=
  solve [ repeat first [apply list_elem_of_here | apply list_elem_of_further]
        | done
        | congruence ].

Ltac key_codes :=
  change (ord "d") with 100 in *;
  change (ord "x") with 120 in *;
  change (ord "q") with 113 in *.

Ltac run_loop_body :=
  key_codes;
  unfold loop_body, handle_keys, tracking_step, outcome, trace,
    mbind, M_bind, mret, M_ret, emit, raise; cbn; key_codes; cbn.

Lemma loop_body_malformed it s :
  it_ok it = false ->
  loop_body it s =
    ([vid_read (it_read it).1 (it_read it).2;
      set_color_camera_image (it_read it).2;
      tracker_UpdateCameras false], Raise malformed).
Proof.
  destruct it as [[r f] ok k t0 t1 pose]. cbn. intros ->. reflexivity.
Qed.

Lemma loop_body_returns it s :
  it_ok it = true -> exists c s', outcome (loop_body it s) = Ok (c, s').
Proof.
  destruct it as [[r f] ok k t0 t1 pose]. cbn. intros ->.
  run_loop_body. split_ifs; cbn; split_ifs; cbn; eauto.
Qed.

Lemma loop_body_keeps it s c s' :
  outcome (loop_body it s) = Ok (c, s') ->
  args s' = args s /\ height s' = height s /\ width s' = width s
  /\ f_approx s' = f_approx s
  /\ intrinsics_approx s' = intrinsics_approx s
  /\ cam_intrinsics s' = cam_intrinsics s
  /\ body2world_pose s' = body2world_pose s.
Proof.
  destruct it as [[r f] ok k t0 t1 pose]. run_loop_body.
  split_ifs; cbn; split_ifs; cbn; intros [= <- <-] || discriminate; done.
Qed.

Lemma loop_body_first it s c s' :
  outcome (loop_body it s) = Ok (c, s') -> first s' = false.
Proof.
  destruct it as [[r f] ok k t0 t1 pose]. run_loop_body.
  destruct (first s) eqn:Hf; cbn; split_ifs; cbn; split_ifs; cbn;
    intros [= <- <-] || discriminate; done.
Qed.

(** C4.  A turn of the loop raises if and only if
    [tracker.UpdateCameras] returned false, and what it raises is the
    [ValueError] of line 88, before the key is read; a loop that ends by
    an exception ended by that one, in a turn in which the check
    failed. *)
Theorem loop_raises_iff_cameras_malformed (it : Iteration) (s : Vars) :
  ((exists e, outcome (loop_body it s) = Raise e) <-> it_ok it = false)
  /\ (forall e, outcome (loop_body it s) = Raise e ->
       e = ValueError "Something is wrong with the provided images"
       /\ forall k, cv2_waitKey 1 k ∉ trace (loop_body it s))
  /\ (forall its e, outcome (while_true its s) = Raise e ->
       e = ValueError "Something is wrong with the provided images"
       /\ exists it', it' ∈ its /\ it_ok it' = false).
Proof.
  assert (Hiff : forall it s e, outcome (loop_body it s) = Raise e ->
                   it_ok it = false /\ e = malformed).
  { clear. intros it s e He. destruct (it_ok it) eqn:Hok.
    - destruct (loop_body_returns it s Hok) as (c & s' & Hr). congruence.
    - rewrite (loop_body_malformed it s Hok) in He. cbn in He.
      split; congruence. }
  split; [split|split].
  - intros [e He]. by apply Hiff in He as [? _].
  - intros Hok. rewrite (loop_body_malformed it s Hok). by eexists.
  - intros e He. destruct (Hiff _ _ _ He) as [Hok ->]. split; [done|].
    intros k Hin. rewrite (loop_body_malformed it s Hok) in Hin. cbn in Hin.
    list_cases Hin; discriminate.
  - intros its. revert s. induction its as [|it' its IH]; intros s e He.
    + discriminate.
    + cbn [while_true] in He.
      destruct (loop_body it' s) as [t [[[|] s']|e']] eqn:Hb.
      * destruct (while_true its s') as [t' r] eqn:Hw. cbn in He. subst r.
        destruct (IH s' e) as (-> & it'' & Hin & Hok);
          [by rewrite Hw|].
        split; [done|]. exists it''. split; [by right|done].
      * discriminate.
      * cbn in He. injection He as <-.
        destruct (Hiff it' s e') as [Hok ->]; [by rewrite Hb|].
        split; [done|]. exists it'. split; [by left|done].
Qed.



(** C6.  The pose of the body is written only by the reset of line 92
    and by the tracker's step: a turn that ends normally leaves it as it
    was, or has reset it to [body2world_pose] (in the first turn or on the
    key [d]), or has run the step with tracking enabled.  So in a turn
    after the first in which the key is not [d] and tracking is disabled
    where line 100 tests it, the loop body makes no call that writes
    [body.body2world_pose], whether the turn ends normally or by the
    exception; when the cameras are fine the turn ends normally, and then
    the pose after the turn is the pose before it and tracking is still
    disabled.  In such a turn tracking is disabled at line 100 exactly
    when it was disabled when the turn began and the key is not [x]. *)
Theorem pose_unchanged_without_reset_or_tracking (it : Iteration) (s : Vars) :
  (forall c s', outcome (loop_body it s) = Ok (c, s') ->
     body_body2world_pose s' = body_body2world_pose s
     \/ ((first s = true \/ it_key it = ord "d")
         /\ tracking_tested it s = false
         /\ body_body2world_pose s' = body2world_pose s
         /\ set_body_body2world_pose (body2world_pose s)
              ∈ trace (loop_body it s))
     \/ (tracking_tested it s = true
         /\ body_body2world_pose s' = it_pose it
         /\ tracker_ExecuteTrackingStep (i s) (it_pose it)
              ∈ trace (loop_body it s)))
  /\ (first s = false ->
      it_key it <> ord "d" ->
      tracking_tested it s = false ->
      forallb (fun e => negb (writes_pose e)) (trace (loop_body it s)) = true
      /\ (it_ok it = true -> exists c s', outcome (loop_body it s) = Ok (c, s'))
      /\ (forall c s', outcome (loop_body it s) = Ok (c, s') ->
           body_body2world_pose s' = body_body2world_pose s
           /\ tracking s' = false))
  /\ (first s = false ->
      it_key it <> ord "d" ->
      (tracking_tested it s = false <->
       tracking s = false /\ it_key it <> ord "x")).
Proof.
  split; [|split].
  - destruct it as [[r f] ok k t0 t1 pose].
    unfold tracking_tested. run_loop_body. destruct ok; cbn; [|done].
    destruct (first s) eqn:Hf; cbn;
      destruct (Z.eqb_spec k 100) as [Hd|Hd]; cbn;
      destruct (Z.eqb_spec k 120) as [Hx|Hx]; cbn;
      destruct (Z.eqb_spec k 113) as [Hq|Hq]; cbn;
      try lia; try (destruct (tracking s) eqn:Ht; cbn);
      intros c s' [= <- <-]; cbn;
      first
        [ by left
        | right; left; split; [by auto|]; split; [done|]; split; [done|];
          in_literal
        | right; right; split; [done|]; split; [done|]; in_literal ].
  - intros Hf Hd Ht.
    destruct it as [[r f] ok k t0 t1 pose]. cbn in Hd.
    unfold tracking_tested in Ht. revert Ht.
    key_codes. apply Z.eqb_neq in Hd.
    run_loop_body. rewrite Hf, Hd. cbn.
    destruct (k =? 120); cbn; [done|]. intros Ht.
    split; [|split].
    + destruct ok; cbn; [|done].
      destruct (k =? 113); cbn; rewrite ?Ht; done.
    + intros ->. cbn. destruct (k =? 113); cbn; rewrite ?Ht; cbn; eauto.
    + destruct ok; cbn; [|done].
      destruct (k =? 113); cbn; rewrite ?Ht; cbn;
        intros c s' [= <- <-]; by split.
  - intros Hf Hd. destruct it as [[r f] ok k t0 t1 pose]. cbn in Hd |- *.
    unfold tracking_tested. key_codes. apply Z.eqb_neq in Hd.
    run_loop_body. rewrite Hf, Hd. cbn.
    destruct (Z.eqb_spec k 120) as [Hx|Hx]; cbn.
    + split; [done|]. by intros [_ ?].
    + split; [by intros ->|by intros [-> _]].
Qed.

(** ** Before the loop *)

Lemma while_true_keeps its : forall s r,
  outcome (while_true its s) = Ok r ->
  intrinsics_approx (vars_of r) = intrinsics_approx s
  /\ cam_intrinsics (vars_of r) = cam_intrinsics s
  /\ body2world_pose (vars_of r) = body2world_pose s.
Proof.
  induction its as [|it its IH]; intros s r H.
  - cbn in H. by injection H as <-.
  - cbn [while_true] in H.
    destruct (loop_body it s) as [t [[[|] s']|e]] eqn:Hb; cbn in H.
    + assert (Hk : outcome (loop_body it s) = Ok (Next, s')) by by rewrite Hb.
      apply loop_body_keeps in Hk as (_ & _ & _ & _ & Hi & Hc & Hp).
      destruct (while_true its s') as [t' r'] eqn:Hw. cbn in H. subst r'.
      destruct (IH s' r) as (Hi' & Hc' & Hp'); [by rewrite Hw|].
      repeat split; congruence.
    + injection H as <-.
      assert (Hk : outcome (loop_body it s) = Ok (Stop, s')) by by rewrite Hb.
      by apply loop_body_keeps in Hk as (_ & _ & _ & _ & Hi & Hc & Hp).
    + discriminate.
Qed.

Lemma teardown_outcome r : outcome (teardown r) = Ok r.
Proof. by destruct r. Qed.

Lemma M_bind_outcome {A B} (m : M A) (f : A -> M B) b :
  outcome (m ≫= f) = Ok b ->
  exists a, outcome m = Ok a /\ outcome (f a) = Ok b.
Proof.
  unfold mbind, M_bind, outcome. destruct m as [t [a|e]]; cbn.
  - destruct (f a) as [t' r] eqn:Hf. cbn. intros ->. exists a.
    by rewrite Hf.
  - discriminate.
Qed.

Lemma M_bind_raise {A B} (m : M A) (f : A -> M B) t e :
  m = (t, Raise e) -> m ≫= f = (t, Raise e).
Proof. intros ->. reflexivity. Qed.

(** What [startup] computes when it succeeds. *)
Lemma startup_ok argv st s :
  outcome (startup argv st) = Ok s ->
  exists a fr h w c fov,
    parse_script_input argv = Ok a
    /\ a !! "fov" = Some (AFloat fov)
    /\ (first_read st).2 = Some fr
    /\ shape fr = [h; w; c]
    /\ args s = a /\ height s = h /\ width s = w
    /\ f_approx s = focal_approx w fov
    /\ intrinsics_approx s = make_intrinsics (focal_approx w fov) w h
    /\ cam_intrinsics s =
         make_cam_intrinsics (make_intrinsics (focal_approx w fov) w h)
    /\ body2world_pose s = initial_body2world_pose
    /\ first s = true /\ tracking s = false /\ i s = 0.
Proof.
  unfold startup. destruct st as [[r f] pose0]. cbn.
  destruct (parse_script_input argv) as [a|e]; [|discriminate].
  unfold frame_shape.
  destruct f as [fr|]; [|discriminate].
  unfold unpack3.
  destruct (shape fr) as [|h [|w [|c [|]]]] eqn:Hs; try discriminate.
  unfold args_fov.
  destruct (a !! "fov") as [[| |fov|]|] eqn:Hfov; try discriminate.
  cbn. intros [= <-]. exists a, fr, h, w, c, fov. cbn. repeat split; done.
Qed.

(** C3.  In a run of the script that has not failed, the intrinsics
    record is the one built before the loop from [args.fov] and the shape
    [(height, width, _)] of the first frame read, however many turns the
    loop has made and whatever frames it has read since: [fu] and [fv]
    are [(width/2)/tan(deg2rad(fov)/2)], [ppu] is [width/2], [ppv] is
    [height/2], [width] and [height] are those of the frame, the record
    has no other key, and it is the record the tracker was set up with. *)
Theorem intrinsics_derived_once (argv : list occurrence) (st : Startup)
        (its : list Iteration) (r : final) :
  outcome (script argv st its) = Ok r ->
  exists a fr height width channels fov,
    parse_script_input argv = Ok a
    /\ a !! "fov" = Some (AFloat fov)
    /\ (first_read st).2 = Some fr
    /\ shape fr = [height; width; channels]
    /\ let f := (truediv_int width 2 / np_tan (np_deg2rad fov / 2))%float in
       let intr := intrinsics_approx (vars_of r) in
       intr !! "fu" = Some (Float f)
       /\ intr !! "fv" = Some (Float f)
       /\ intr !! "ppu" = Some (Float (truediv_int width 2))
       /\ intr !! "ppv" = Some (Float (truediv_int height 2))
       /\ intr !! "width" = Some (Int width)
       /\ intr !! "height" = Some (Int height)
       /\ dom intr = list_to_set ["fu"; "fv"; "ppu"; "ppv"; "width"; "height"]
       /\ intrinsics_color (cam_intrinsics (vars_of r)) = intr.
Proof.
  unfold script. intros H.
  apply M_bind_outcome in H as (s & Hs & H).
  apply M_bind_outcome in H as (r' & Hw & H).
  rewrite teardown_outcome in H. injection H as ->.
  apply while_true_keeps in Hw as (Hi & Hc & _).
  apply startup_ok in Hs as
    (a & fr & h & w & c & fov & Hp & Hfov & Hfr & Hsh & _ & _ & _ & _
       & Hi0 & Hc0 & _).
  exists a, fr, h, w, c, fov. repeat (split; [done|]).
  cbn zeta. rewrite Hc, Hi, Hc0, Hi0.
  unfold make_intrinsics, focal_approx.
  repeat split; by simplify_map_eq.
Qed.

(** C10.  When the first [vid.read()] gives no frame, the script ends
    with the [AttributeError] of the read of [frame.shape] on [None],
    whatever the success flag says, and the run has made no call of
    [tracker.UpdateCameras].  When it gives a frame, the flag changes
    nothing in whether the startup succeeds. *)
Theorem startup_read_unchecked (argv : list occurrence) (st : Startup)
        (its : list Iteration) (flag : bool) :
  is_ok (parse_script_input argv) = true ->
  first_read st = (flag, None) ->
  outcome (script argv st its) =
    Raise (AttributeError "'NoneType' object has no attribute 'shape'")
  /\ trace (script argv st its) = [cv2_VideoCapture 0; vid_read flag None]
  /\ forallb (fun e => negb (is_UpdateCameras e)) (trace (script argv st its)) = true
  /\ (forall fr pose,
        is_ok (outcome (startup argv {| first_read := (flag, Some fr);
                                        setup_pose := pose |})) =
        is_ok (outcome (startup argv {| first_read := (negb flag, Some fr);
                                        setup_pose := pose |}))).
Proof.
  intros Hp Hr.
  assert (Hs : startup argv st =
               ([cv2_VideoCapture 0; vid_read flag None],
                Raise (AttributeError "'NoneType' object has no attribute 'shape'"))).
  { unfold startup. destruct st as [rd pose0]. cbn in Hr. subst rd.
    destruct (parse_script_input argv) as [a|e]; [|discriminate].
    reflexivity. }
  unfold script. rewrite (M_bind_raise _ _ _ _ Hs). cbn.
  repeat split.
  intros fr pose. unfold startup. cbn.
  destruct (parse_script_input argv) as [a|e]; [|discriminate]. cbn.
  destruct (unpack3 (shape fr)) as [[[h w] c]|e]; [|reflexivity]. cbn.
  destruct (args_fov a); reflexivity.
Qed.

(** ** Whole runs of the loop *)

Lemma M_bind_split {A B} (m : M A) (f : A -> M B) :
  m ≫= f =
    match outcome m with
    | Ok a => (trace m ++ trace (f a), outcome (f a))
    | Raise e => (trace m, Raise e)
    end.
Proof.
  unfold mbind, M_bind, outcome, trace. destruct m as [t [a|e]]; cbn;
    [by destruct (f a)|done].
Qed.

Lemma while_true_cons it its s :
  while_true (it :: its) s =
    match outcome (loop_body it s) with
    | Ok (Next, s') =>
        (trace (loop_body it s) ++ trace (while_true its s'),
         outcome (while_true its s'))
    | Ok (Stop, s') => (trace (loop_body it s), Ok (Exited s'))
    | Raise e => (trace (loop_body it s), Raise e)
    end.
Proof.
  cbn [while_true]. unfold outcome, trace.
  destruct (loop_body it s) as [t [[[|] s']|e]]; cbn; [|done..].
  by destruct (while_true its s').
Qed.

Lemma while_true_outcome it its s :
  outcome (while_true (it :: its) s) =
    match outcome (loop_body it s) with
    | Ok (Next, s') => outcome (while_true its s')
    | Ok (Stop, s') => Ok (Exited s')
    | Raise e => Raise e
    end.
Proof.
  rewrite while_true_cons.
  by destruct (outcome (loop_body it s)) as [[[|] s']|e].
Qed.

Lemma while_true_trace it its s :
  trace (while_true (it :: its) s) =
    trace (loop_body it s) ++
    match outcome (loop_body it s) with
    | Ok (Next, s') => trace (while_true its s')
    | _ => []
    end.
Proof.
  rewrite while_true_cons.
  destruct (outcome (loop_body it s)) as [[[|] s']|e]; cbn [trace fst];
    by rewrite ?app_nil_r.
Qed.

(** How a turn in which the cameras are fine ends. *)
Lemma loop_body_ctl it s :
  it_ok it = true ->
  exists s', outcome (loop_body it s) =
               Ok (if it_key it =? ord "q" then Stop else Next, s').
Proof.
  destruct it as [[r f] ok k t0 t1 pose]. cbn. intros ->.
  run_loop_body. split_ifs; cbn; split_ifs; cbn; eauto.
Qed.

(** X1.  The loop ends only by the key [q] or by the failed camera check:
    it is still running after the given turns exactly when every one of
    them went on; it has left by [break] exactly when the first turn that
    did not go on read [q] with the cameras fine; it has raised, and then
    the [ValueError] of line 88, exactly when in that turn the camera
    check failed. *)
Theorem loop_ends_by_q_or_malformed (its : list Iteration) (s : Vars) :
  match outcome (while_true its s) with
  | Ok (Running _) => Forall goes_on its
  | Ok (Exited _) =>
      exists pre it post,
        its = pre ++ it :: post /\ Forall goes_on pre
        /\ it_ok it = true /\ it_key it = ord "q"
  | Raise e =>
      e = ValueError "Something is wrong with the provided images"
      /\ exists pre it post,
           its = pre ++ it :: post /\ Forall goes_on pre /\ it_ok it = false
  end.
Proof.
  revert s. induction its as [|it its IH]; intros s; [by constructor|].
  rewrite while_true_cons.
  destruct (it_ok it) eqn:Hok.
  - destruct (loop_body_ctl it s Hok) as [s' Hs]. rewrite Hs.
    destruct (Z.eqb_spec (it_key it) (ord "q")) as [Hq|Hq]; cbn.
    + exists [], it, its. by repeat split.
    + specialize (IH s').
      destruct (outcome (while_true its s')) as [[s''|s'']|e].
      * constructor; [by split|done].
      * destruct IH as (pre & it' & post & -> & Hpre & Hok' & Hq').
        exists (it :: pre), it', post. repeat split; try done.
        constructor; [by split|done].
      * destruct IH as (-> & pre & it' & post & -> & Hpre & Hok').
        split; [done|]. exists (it :: pre), it', post. repeat split; try done.
        constructor; [by split|done].
  - rewrite (loop_body_malformed it s Hok). cbn. split; [done|].
    exists [], it, its. by repeat split.
Qed.

Lemma loop_body_counter it s :
  match outcome (loop_body it s) with
  | Ok (Next, s') =>
      i s' = i s + 1
      /\ viewer_updates (trace (loop_body it s)) = [i s + 1]
      /\ Forall (fun k => k = i s) (tracking_steps (trace (loop_body it s)))
  | Ok (Stop, s') =>
      i s' = i s
      /\ viewer_updates (trace (loop_body it s)) = []
      /\ tracking_steps (trace (loop_body it s)) = []
  | Raise _ =>
      viewer_updates (trace (loop_body it s)) = []
      /\ tracking_steps (trace (loop_body it s)) = []
  end.
Proof.
  destruct it as [[r f] ok k t0 t1 pose].
  run_loop_body. split_ifs; cbn; split_ifs; cbn;
    repeat split; repeat constructor.
Qed.

Lemma viewer_updates_app t t' :
  viewer_updates (t ++ t') = viewer_updates t ++ viewer_updates t'.
Proof. apply omap_app. Qed.

Lemma tracking_steps_app t t' :
  tracking_steps (t ++ t') = tracking_steps t ++ tracking_steps t'.
Proof. apply omap_app. Qed.

(** The frames of a loop that starts with the counter at [i s]. *)
Lemma while_true_counter its : forall s r,
  outcome (while_true its s) = Ok r ->
  exists n : nat,
    i (vars_of r) = i s + Z.of_nat n
    /\ viewer_updates (trace (while_true its s)) =
         (fun k => i s + Z.of_nat k) <$> seq 1 n
    /\ Forall (fun k => i s <= k < i s + Z.of_nat n)
              (tracking_steps (trace (while_true its s)))
    /\ match r with
       | Running _ => n = length its
       | Exited _ => (n < length its)%nat
       end.
Proof.
  induction its as [|it its IH]; intros s r.
  - cbn. intros [= <-]. exists 0%nat. cbn. repeat split; [lia|constructor].
  - rewrite while_true_outcome, while_true_trace.
    pose proof (loop_body_counter it s) as Hc.
    destruct (outcome (loop_body it s)) as [[[|] s']|e]; [| |done].
    + destruct Hc as (Hi & Hv & Ht). intros Hr.
      destruct (IH s' r Hr) as (n & Hn & Hvn & Htn & Hlen).
      exists (S n). split; [lia|]. split; [|split].
      * rewrite viewer_updates_app, Hv, Hvn. cbn. f_equal.
        rewrite <- (fmap_S_seq 1 n), <- list_fmap_compose.
        apply list_fmap_ext. intros j k _. cbn. lia.
      * rewrite tracking_steps_app. apply Forall_app. split.
        -- eapply Forall_impl; [exact Ht|]. intros k ->. lia.
        -- eapply Forall_impl; [exact Htn|]. intros k Hk. cbn beta in Hk. lia.
      * destruct r; cbn; lia.
    + destruct Hc as (Hi & Hv & Ht). intros [= <-].
      exists 0%nat. rewrite app_nil_r, Hv, Ht. cbn.
      repeat split; [lia|constructor|lia].
Qed.

(** ** Whole runs of the script *)

Lemma script_outcome argv st its :
  outcome (script argv st its) =
    match outcome (startup argv st) with
    | Ok s => outcome (while_true its s)
    | Raise e => Raise e
    end.
Proof.
  unfold script. rewrite M_bind_split.
  destruct (outcome (startup argv st)) as [s|e]; [|done].
  cbn [outcome snd]. rewrite M_bind_split.
  change (snd (while_true its s)) with (outcome (while_true its s)).
  destruct (outcome (while_true its s)) as [r|e]; [|done].
  cbn [snd]. apply teardown_outcome.
Qed.

Lemma script_trace argv st its :
  trace (script argv st its) =
    trace (startup argv st) ++
    match outcome (startup argv st) with
    | Ok s =>
        trace (while_true its s) ++
        match outcome (while_true its s) with
        | Ok (Exited _) => [vid_release; cv2_destroyAllWindows]
        | _ => []
        end
    | Raise _ => []
    end.
Proof.
  unfold script. rewrite M_bind_split.
  destruct (outcome (startup argv st)) as [s|e]; cbn [trace fst];
    [|by rewrite app_nil_r].
  f_equal. rewrite M_bind_split.
  destruct (outcome (while_true its s)) as [[s'|s']|e]; cbn [trace fst];
    by rewrite ?app_nil_r.
Qed.

(** The calls [startup] makes, however it ends. *)
Lemma startup_trace argv st :
  viewer_updates (trace (startup argv st)) = []
  /\ tracking_steps (trace (startup argv st)) = []
  /\ forallb (fun e => negb (is_release e)) (trace (startup argv st)) = true.
Proof.
  unfold startup. destruct st as [[r f] pose0]. cbn.
  destruct (parse_script_input argv) as [a|e]; [|done]. cbn.
  destruct f as [fr|]; [|done]. cbn.
  destruct (unpack3 (shape fr)) as [[[h w] c]|e]; [|done]. cbn.
  destruct (args_fov a); done.
Qed.

Lemma loop_body_no_release it s :
  forallb (fun e => negb (is_release e)) (trace (loop_body it s)) = true.
Proof.
  destruct it as [[r f] ok k t0 t1 pose].
  run_loop_body. split_ifs; cbn; split_ifs; cbn; done.
Qed.

Lemma while_true_no_release its : forall s,
  forallb (fun e => negb (is_release e)) (trace (while_true its s)) = true.
Proof.
  induction its as [|it its IH]; intros s; [done|].
  rewrite while_true_trace, forallb_app, loop_body_no_release.
  destruct (outcome (loop_body it s)) as [[[|] s']|e]; cbn; by rewrite ?IH.
Qed.

(** X2.  In a run that has not failed, the viewer was updated once for
    every turn the loop went through, with the frame numbers 1, 2, ... in
    order, the counter [i] is the number of those turns, and every
    tracking step was given a number below it: the number of all the
    turns when the loop is still running, of the turns before the one
    that read [q] when it has left. *)
Theorem frames_are_numbered (argv : list occurrence) (st : Startup)
        (its : list Iteration) (r : final) :
  outcome (script argv st its) = Ok r ->
  exists n : nat,
    i (vars_of r) = Z.of_nat n
    /\ viewer_updates (trace (script argv st its)) = Z.of_nat <$> seq 1 n
    /\ Forall (fun k => 0 <= k < Z.of_nat n)
              (tracking_steps (trace (script argv st its)))
    /\ match r with
       | Running _ => n = length its
       | Exited _ => (n < length its)%nat
       end.
Proof.
  rewrite script_outcome, script_trace.
  destruct (startup_trace argv st) as (Hv0 & Ht0 & _).
  destruct (outcome (startup argv st)) as [s|e] eqn:Hs; [|done].
  apply startup_ok in Hs as (_&_&_&_&_&_&_&_&_&_&_&_&_&_&_&_&_&_&_& Hi0).
  intros Hr. destruct (while_true_counter its s r Hr) as (n & Hn & Hv & Ht & Hlen).
  rewrite Hr, Hi0 in *. exists n. split; [lia|].
  rewrite !viewer_updates_app, !tracking_steps_app, Hv0, Ht0, Hv.
  assert (viewer_updates match r with
                         | Exited _ => [vid_release; cv2_destroyAllWindows]
                         | Running _ => []
                         end = []) as -> by by destruct r.
  assert (tracking_steps match r with
                         | Exited _ => [vid_release; cv2_destroyAllWindows]
                         | Running _ => []
                         end = []) as -> by by destruct r.
  rewrite !app_nil_r. cbn [app]. split; [|split; [|done]].
  - apply list_fmap_ext. intros j k _. lia.
  - eapply Forall_impl; [exact Ht|]. intros k Hk. cbn beta in Hk. lia.
Qed.

(** X3.  The capture is released and the windows are closed exactly when
    the loop is left by [q], and then as the last two calls of the run;
    a run that ends by an exception, at startup or in the loop, and a run
    that is still going make neither call. *)
Theorem capture_released_only_on_q (argv : list occurrence) (st : Startup)
        (its : list Iteration) :
  match outcome (script argv st its) with
  | Ok (Exited _) =>
      exists t, trace (script argv st its) =
                  t ++ [vid_release; cv2_destroyAllWindows]
                /\ forallb (fun e => negb (is_release e)) t = true
  | _ => forallb (fun e => negb (is_release e)) (trace (script argv st its)) = true
  end.
Proof.
  rewrite script_outcome, script_trace.
  destruct (startup_trace argv st) as (_ & _ & H0).
  destruct (outcome (startup argv st)) as [s|e]; [|by rewrite app_nil_r].
  pose proof (while_true_no_release its s) as Hw.
  destruct (outcome (while_true its s)) as [[s'|s']|e].
  - by rewrite app_nil_r, forallb_app, H0, Hw.
  - eexists. rewrite app_assoc. split; [reflexivity|].
    by rewrite forallb_app, H0, Hw.
  - by rewrite app_nil_r, forallb_app, H0, Hw.
Qed.

(** ** The namespace the script computes with *)

(** What a destination holds after a parse: its default, or what an
    occurrence of its option stored. *)
Lemma parse_value arg argv ns seen v :
  arg ∈ script_arguments ->
  consume parser argv (set_defaults parser) [] [] = Ok (ns, seen, []) ->
  ns !! dest arg = Some v ->
  (v = default arg /\ given (option_strings arg) argv = false)
  \/ exists o, o ∈ argv /\ o.1 ∈ option_strings arg /\ stores arg o.2 v.
Proof.
  intros Harg Hc Hv.
  destruct (consume_stored _ _ _ _ _ _ _ _ _ Hc Hv)
    as [[Hdef Hun]|(o & a & Ho & Hf & Hd & Hst)].
  - left. split.
    + each_action Harg; cbn in Hdef; by injection Hdef as <-.
    + destruct (given (option_strings arg) argv) eqn:Hg; [exfalso|done].
      apply given_true in Hg as (o & Ho & Hfl).
      destruct (consume_recognised _ _ _ _ _ _ _ Hc o Ho) as (a & w & Hf & _).
      apply (Hun o a Ho Hf). by rewrite (flag_action _ _ _ Harg Hf Hfl).
  - right. exists o. split; [done|].
    pose proof Hf as Hf'. apply parser_dest in Hf' as [Hin Hfl].
    apply elem_of_cons in Hin as [->|Hin].
    { unfold stores in Hst. cbn in Hst. by destruct (o.2). }
    assert (a = arg) as -> by by apply dest_unique.
    by split.
Qed.

(** X4.  After a successful parse the four optional destinations hold
    values of the declared kinds: [fov] and [scale_geometry] hold floats,
    each the default or [float] of a string given for it, [tmp_dir] holds
    a string, and [use_region] holds [True] exactly when the flag was
    given. *)
Theorem namespace_is_typed (argv : list occurrence) (ns : Namespace) :
  parse_script_input argv = Ok ns ->
  (exists f, ns !! "fov" = Some (AFloat f)
     /\ (f = 50.0%float /\ given ["--fov"] argv = false
         \/ exists s, ("--fov", Some s) ∈ argv /\ float_of_string s = Some f))
  /\ (exists g, ns !! "scale_geometry" = Some (AFloat g)
        /\ (g = 0.001%float /\ given ["--scale_geometry"] argv = false
            \/ exists s, ("--scale_geometry", Some s) ∈ argv
                         /\ float_of_string s = Some g))
  /\ (exists t, ns !! "tmp_dir" = Some (AStr t))
  /\ ns !! "use_region" = Some (ABool (given ["--use_region"] argv)).
Proof.
  intros Hp. apply parse_ok_inv in Hp as (seen & Hc & _).
  assert (Hsome : forall arg, arg ∈ script_arguments ->
                    exists v, ns !! dest arg = Some v).
  { intros arg Harg. eapply consume_keeps; [exact Hc|].
    each_action Harg; by eexists. }
  assert (Hfloat : forall arg d0, arg ∈ script_arguments ->
            action arg = store type_float -> default arg = AFloat d0 ->
            exists f, ns !! dest arg = Some (AFloat f)
              /\ (f = d0 /\ given (option_strings arg) argv = false
                  \/ exists fl s, fl ∈ option_strings arg
                       /\ (fl, Some s) ∈ argv /\ float_of_string s = Some f)).
  { intros arg d0 Harg Hact Hdef. destruct (Hsome arg Harg) as [v Hv].
    destruct (parse_value _ _ _ _ _ Harg Hc Hv)
      as [[-> Hg]|([fl val] & Ho & Hfl & Hst)].
    - exists d0. rewrite Hv, Hdef. split; [done|]. by left.
    - unfold stores in Hst. rewrite Hact in Hst. cbn in Hst.
      destruct val as [s|]; [|done]. unfold convert in Hst.
      destruct (float_of_string s) as [f|] eqn:Hfs; [|done].
      injection Hst as <-. exists f. split; [done|]. right.
      exists fl, s. by repeat split. }
  split; [|split; [|split]].
  - destruct (Hfloat fov_argument 50.0%float) as (f & Hf & Hsrc);
      [exact fov_declared|done..|].
    exists f. split; [done|].
    destruct Hsrc as [?|(fl & s & Hfl & Ho & Hs)]; [by left|right].
    cbn in Hfl. list_cases Hfl. subst fl. eauto.
  - destruct (Hfloat scale_geometry_argument 0.001%float) as (f & Hf & Hsrc);
      [exact scale_geometry_declared|done..|].
    exists f. split; [done|].
    destruct Hsrc as [?|(fl & s & Hfl & Ho & Hs)]; [by left|right].
    cbn in Hfl. list_cases Hfl. subst fl. eauto.
  - destruct (Hsome tmp_dir_argument) as [v Hv]; [exact tmp_dir_declared|].
    destruct (parse_value tmp_dir_argument _ _ _ _ tmp_dir_declared Hc Hv)
      as [[-> _]|([fl val] & Ho & Hfl & Hst)]; [exists "tmp"; exact Hv|].
    unfold stores in Hst. cbn in Hst. destruct val as [s|]; [|done].
    injection Hst as <-. exists s. exact Hv.
  - destruct (Hsome use_region_argument) as [v Hv]; [exact use_region_declared|].
    destruct (parse_value use_region_argument _ _ _ _ use_region_declared Hc Hv)
      as [[-> Hg]|([fl val] & Ho & Hfl & Hst)].
    + cbn in Hg. by rewrite Hg.
    + unfold stores in Hst. cbn in Hst. destruct val as [s|]; [done|].
      subst v. cbn in Hv. rewrite Hv. do 2 f_equal. symmetry.
      unfold given. apply existsb_exists. exists (fl, None).
      split; [by apply list_elem_of_In|by apply bool_decide_eq_true].
Qed.

Lemma parse_fov argv a :
  parse_script_input argv = Ok a -> exists f, args_fov a = Ok f.
Proof.
  intros Hp. apply parse_ok_inv in Hp as (seen & Hc & _).
  assert (exists v, a !! "fov" = Some v) as [v Hv].
  { eapply (consume_keeps _ _ _ _ _ _ _ "fov"); [exact Hc|]. by eexists. }
  unfold args_fov. rewrite Hv.
  destruct (parse_value fov_argument _ _ _ _ fov_declared Hc Hv)
    as [[-> _]|([fl val] & Ho & Hfl & Hst)]; [by eexists|].
  unfold stores in Hst. cbn in Hst. destruct val as [s|]; [|done].
  destruct (float_of_string s); [|done].
  injection Hst as <-. by eexists.
Qed.

(** X5.  The startup succeeds exactly when the command line parses and
    the first read gives a frame whose shape has three entries, whatever
    the success flag of the read; when it fails, the tracker has not been
    set up. *)
Theorem startup_succeeds_iff (argv : list occurrence) (st : Startup) :
  (is_ok (outcome (startup argv st)) = true <->
   is_ok (parse_script_input argv) = true
   /\ exists fr, (first_read st).2 = Some fr /\ length (shape fr) = 3%nat)
  /\ (is_ok (outcome (startup argv st)) = false ->
      forallb (fun e => negb (is_setup e)) (trace (startup argv st)) = true).
Proof.
  split; [split|].
  - destruct (outcome (startup argv st)) as [s|e] eqn:Hs; [|done]. intros _.
    apply startup_ok in Hs as (a & fr & h & w & c & fov & Hp & _ & Hfr & Hsh & _).
    rewrite Hp. split; [done|]. exists fr. by rewrite Hsh.
  - intros [Hp (fr & Hfr & Hlen)].
    destruct (parse_script_input argv) as [a|e] eqn:Hpa; [|done].
    destruct (parse_fov _ _ Hpa) as [f Hf].
    unfold startup. destruct st as [[r fo] pose0]. cbn in Hfr. subst fo.
    rewrite Hpa. cbn.
    destruct (shape fr) as [|h [|w [|c [|]]]]; try done. cbn.
    by rewrite Hf.
  - unfold startup. destruct st as [[r f] pose0]. cbn.
    destruct (parse_script_input argv) as [a|e]; [|done]. cbn.
    destruct f as [fr|]; [|done]. cbn.
    destruct (unpack3 (shape fr)) as [[[h w] c]|e]; [|done]. cbn.
    destruct (args_fov a); done.
Qed.

(** ** The pose of the body over a run *)

Lemma poses_written_app t t' :
  poses_written (t ++ t') = (poses_written t ++ poses_written t')%list.
Proof. apply omap_app. Qed.

Lemma pose_after_app p t t' :
  pose_after p (t ++ t') = pose_after (pose_after p t) t'.
Proof.
  unfold pose_after. rewrite poses_written_app, last_app.
  by destruct (last (poses_written t')).
Qed.

Lemma poses_written_nil t :
  poses_written t = [] ->
  (forall p, set_body_body2world_pose p ∉ t)
  /\ (forall k p, tracker_ExecuteTrackingStep k p ∉ t).
Proof.
  intros Hnil.
  assert (Hin : forall e p, e ∈ t ->
            match e with
            | set_body_body2world_pose q | tracker_ExecuteTrackingStep _ q =>
                Some q
            | _ => None
            end = Some p -> False).
  { intros e p He Hp.
    assert (p ∈ poses_written t) as Hmem
      by (apply list_elem_of_omap; eauto).
    rewrite Hnil in Hmem. by apply elem_of_nil in Hmem. }
  split; [intros p H|intros k p H]; by eapply Hin.
Qed.

(** The pose events of one turn, and what the turn leaves. *)
Lemma loop_body_writes it s :
  (forall p, set_body_body2world_pose p ∈ trace (loop_body it s) ->
             p = body2world_pose s)
  /\ (forall k p, tracker_ExecuteTrackingStep k p ∈ trace (loop_body it s) ->
                  k = i s /\ p = it_pose it)
  /\ (forall c s', outcome (loop_body it s) = Ok (c, s') ->
        body_body2world_pose s' =
          pose_after (body_body2world_pose s) (trace (loop_body it s))
        /\ (first s = true -> poses_written (trace (loop_body it s)) <> [])
        /\ i s' = match c with Next => i s + 1 | Stop => i s end).
Proof.
  destruct it as [[r f] ok k t0 t1 pose]. run_loop_body. unfold pose_after.
  destruct ok; cbn;
    [|split; [|split]; [intros p H|intros k' p H|done]; list_cases H;
      by simplify_eq].
  destruct (first s) eqn:Hf; cbn; split_ifs; cbn; split_ifs; cbn;
    (split; [|split];
     [ intros p H; list_cases H; by simplify_eq
     | intros k' p H; list_cases H; by simplify_eq
     | intros c s' [= <- <-]; cbn; by repeat split ]).
Qed.

Lemma while_true_writes its : forall s r,
  outcome (while_true its s) = Ok r ->
  body_body2world_pose (vars_of r) =
    pose_after (body_body2world_pose s) (trace (while_true its s))
  /\ (forall p, set_body_body2world_pose p ∈ trace (while_true its s) ->
                p = body2world_pose s)
  /\ (forall k p, tracker_ExecuteTrackingStep k p ∈ trace (while_true its s) ->
        exists pre it post,
          its = (pre ++ it :: post)%list
          /\ k = i s + Z.of_nat (length pre) /\ p = it_pose it)
  /\ match its with
     | [] => vars_of r = s
     | _ :: _ =>
         first (vars_of r) = false
         /\ (first s = true -> poses_written (trace (while_true its s)) <> [])
     end.
Proof.
  induction its as [|it its IH]; intros s r.
  - cbn. intros [= <-]. split; [done|].
    split; [intros p H; by apply elem_of_nil in H|].
    split; [intros k p H; by apply elem_of_nil in H|done].
  - rewrite while_true_outcome, while_true_trace.
    destruct (loop_body_writes it s) as (Hset & Hstep & Hend).
    destruct (outcome (loop_body it s)) as [[[|] s']|e] eqn:Hb; [| |done].
    + intros Hr. destruct (Hend _ _ eq_refl) as (Hp & Hfirst & Hi).
      pose proof (loop_body_first _ _ _ _ Hb) as Hf'.
      pose proof (loop_body_keeps _ _ _ _ Hb) as (_ & _ & _ & _ & _ & _ & Hb2w).
      destruct (IH s' r Hr) as (Hp' & Hset' & Hstep' & Hrest).
      split; [by rewrite pose_after_app, <- Hp|]. split; [|split; [|split]].
      * intros p [H|H]%elem_of_app; [by apply Hset|].
        rewrite (Hset' p H). exact Hb2w.
      * intros k' p [H|H]%elem_of_app.
        -- destruct (Hstep k' p H) as [-> ->]. exists [], it, its.
           cbn. repeat split; lia.
        -- destruct (Hstep' k' p H) as (pre & it' & post & -> & -> & ->).
           exists (it :: pre), it', post. cbn [length]. repeat split; lia.
      * destruct its; [by rewrite Hrest|by destruct Hrest].
      * intros Hf Happ. rewrite poses_written_app in Happ.
        apply app_eq_nil in Happ as [Happ _]. by apply Hfirst.
    + intros [= <-]. cbn [vars_of]. rewrite app_nil_r.
      destruct (Hend _ _ eq_refl) as (Hp & Hfirst & Hi).
      split; [done|]. split; [exact Hset|]. split; [|split].
      * intros k' p H. destruct (Hstep k' p H) as [-> ->]. exists [], it, its.
        cbn. repeat split; lia.
      * by eapply loop_body_first.
      * exact Hfirst.
Qed.

Lemma startup_writes argv st :
  poses_written (trace (startup argv st)) = []
  /\ forall s, outcome (startup argv st) = Ok s ->
       body_body2world_pose s = setup_pose st.
Proof.
  unfold startup. destruct st as [[rd f] pose0]. cbn.
  destruct (parse_script_input argv) as [a|e]; [|done]. cbn.
  destruct f as [fr|]; [|done]. cbn.
  destruct (unpack3 (shape fr)) as [[[h w] c]|e]; [|done]. cbn.
  destruct (args_fov a); [|done]. cbn. split; [done|]. by intros s [= <-].
Qed.

(** X6.  The body holds the pose last written into it: in a run that
    has not failed, [body.body2world_pose] is the pose of the last reset
    or tracking step of the run, and the pose of the setup when there was
    none.  Every reset wrote the initial pose of lines 60-65, and the step
    numbered [k] ran in the turn of that number and left the pose that turn
    gives.  Once the loop has made a turn a pose was written, so the pose
    of the setup does not outlive the first turn, and [first] is false. *)
Theorem body_pose_is_initial_or_tracked (argv : list occurrence)
        (st : Startup) (its : list Iteration) (r : final) :
  outcome (script argv st its) = Ok r ->
  body_body2world_pose (vars_of r) =
    pose_after (setup_pose st) (trace (script argv st its))
  /\ (forall p, set_body_body2world_pose p ∈ trace (script argv st its) ->
                p = initial_body2world_pose)
  /\ (forall k p,
        tracker_ExecuteTrackingStep k p ∈ trace (script argv st its) ->
        exists pre it post,
          its = (pre ++ it :: post)%list
          /\ k = Z.of_nat (length pre) /\ p = it_pose it)
  /\ match its with
     | [] => first (vars_of r) = true
             /\ poses_written (trace (script argv st its)) = []
     | _ :: _ => first (vars_of r) = false
                 /\ poses_written (trace (script argv st its)) <> []
     end.
Proof.
  rewrite script_outcome, script_trace.
  destruct (startup_writes argv st) as [Hw0 Hpose0].
  destruct (poses_written_nil _ Hw0) as [Hset0 Hstep0].
  destruct (outcome (startup argv st)) as [s|e] eqn:Hs; [|done].
  specialize (Hpose0 s eq_refl).
  apply startup_ok in Hs as
    (_&_&_&_&_&_&_&_&_&_&_&_&_&_&_&_& Hb2w & Hfirst & _ & Hi0).
  intros Hr. rewrite Hr.
  destruct (while_true_writes its s r Hr) as (Hp & Hset & Hstep & Hrest).
  set (tail := match r with
               | Exited _ => [vid_release; cv2_destroyAllWindows]
               | Running _ => []
               end).
  assert (Htail : poses_written tail = []) by by destruct r.
  destruct (poses_written_nil _ Htail) as [Hset1 Hstep1].
  assert (Hw : poses_written (trace (startup argv st)
                                ++ trace (while_true its s) ++ tail)
               = poses_written (trace (while_true its s))).
  { by rewrite !poses_written_app, Hw0, Htail, app_nil_r. }
  split; [|split; [|split]].
  - unfold pose_after in *. by rewrite Hw, Hp, Hpose0.
  - intros p [H|[H|H]%elem_of_app]%elem_of_app.
    + by destruct (Hset0 p).
    + by rewrite (Hset p H).
    + by destruct (Hset1 p).
  - intros k p [H|[H|H]%elem_of_app]%elem_of_app.
    + by destruct (Hstep0 k p).
    + destruct (Hstep k p H) as (pre & it & post & -> & -> & ->).
      exists pre, it, post. repeat split. lia.
    + by destruct (Hstep1 k p).
  - rewrite Hw. destruct its as [|it its].
    + rewrite Hrest. split; [done|]. done.
    + destruct Hrest as [Hf Hne]. split; [done|]. by apply Hne.
Qed.

End Properties.

(** ** The theorems at concrete runs *)

Lemma parse_script_input_six_flags_witness :
  (exists code,
     parse_script_input (lib := sample_libraries) [("-b", Some "obj_000014")] =
       Raise (SystemExit code))
  /\ exists ns,
       parse_script_input (lib := sample_libraries) sample_command_line = Ok ns
       /\ ns !! "body_name" = Some (AStr "obj_000014")
       /\ ns !! "fov" = Some (AFloat 60)
       /\ ns !! "scale_geometry" = Some (AFloat 0.001)
       /\ ns !! "use_region" = Some (ABool true).
Proof.
  split.
  - destruct (parse_script_input_six_flags (lib := sample_libraries)
                [("-b", Some "obj_000014")]) as (_ & _ & _ & _ & Hmissing & _).
    apply Hmissing. right. reflexivity.
  - destruct (parse_script_input (lib := sample_libraries) sample_command_line)
      as [ns|e] eqn:Hp; [|discriminate Hp].
    exists ns. split; [reflexivity|].
    destruct (parse_script_input_six_flags (lib := sample_libraries)
                sample_command_line) as (_ & _ & _ & _ & _ & Hok).
    destruct (Hok ns Hp) as (_ & Hbody & _ & Hfov & Hscale & _ & Hregion).
    split; [|split; [|split; [exact Hscale|exact Hregion]]].
    + destruct Hbody as (b & Hlast & Hb).
      assert (Hb' : b = "obj_000014") by (injection Hlast as <-; reflexivity).
      rewrite <- Hb'. exact Hb.
    + destruct Hfov as (s & f & Hs & Hf & Hv).
      assert (Hf' : f = 60%float).
      { injection Hs as <-. injection Hf as <-. reflexivity. }
      rewrite <- Hf'. exact Hv.
Defined.

Lemma loop_raises_iff_cameras_malformed_witness :
  outcome (loop_body (sample_iteration 120 false) sample_vars) =
    Raise (ValueError "Something is wrong with the provided images").
Proof.
  destruct (loop_raises_iff_cameras_malformed
              (sample_iteration 120 false) sample_vars) as ([_ Hraise] & Hwhich & _).
  destruct (Hraise eq_refl) as [e He].
  destruct (Hwhich e He) as [-> _]. exact He.
Defined.


Lemma pose_unchanged_without_reset_or_tracking_witness :
  forallb (fun e => negb (writes_pose e))
          (trace (loop_body (sample_iteration 97 true) sample_vars)) = true
  /\ exists s', outcome (loop_body (sample_iteration 97 true) sample_vars) = Ok (Next, s')
                /\ body_body2world_pose s' = [[2%float]].
Proof.
  assert (Hd : it_key (sample_iteration 97 true) <> ord "d") by discriminate.
  destruct (pose_unchanged_without_reset_or_tracking
              (sample_iteration 97 true) sample_vars) as (_ & Hturn & _).
  destruct (Hturn eq_refl Hd eq_refl) as (Htrace & _ & Hpose).
  split; [exact Htrace|].
  eexists. split; [reflexivity|]. eapply Hpose. reflexivity.
Defined.

Lemma intrinsics_derived_once_witness :
  exists r,
    outcome (script (lib := sample_libraries) sample_argv sample_startup
                    [sample_iteration 120 true; sample_iteration 113 true]) = Ok r
    /\ intrinsics_approx (vars_of r) !! "width" = Some (Int 640)
    /\ intrinsics_approx (vars_of r) !! "ppv" = Some (Float 240).
Proof.
  destruct (outcome (script (lib := sample_libraries) sample_argv sample_startup
                            [sample_iteration 120 true; sample_iteration 113 true]))
    as [r|e] eqn:Hr; [|discriminate Hr].
  exists r. split; [reflexivity|].
  destruct (intrinsics_derived_once (lib := sample_libraries) _ _ _ _ Hr)
    as (a & fr & h & w & c & fov & _ & _ & Hfr & Hsh & H).
  cbn in Hfr. injection Hfr as <-. cbn in Hsh. injection Hsh as <- <- <-.
  destruct H as (_ & _ & _ & Hppv & Hw & _). split; [exact Hw|exact Hppv].
Defined.

Lemma startup_read_unchecked_witness :
  outcome (script (lib := sample_libraries) sample_argv
                  {| first_read := (false, None); setup_pose := [] |}
                  [sample_iteration 120 true]) =
    Raise (AttributeError "'NoneType' object has no attribute 'shape'").
Proof.
  destruct (startup_read_unchecked (lib := sample_libraries) sample_argv
              {| first_read := (false, None); setup_pose := [] |}
              [sample_iteration 120 true] false eq_refl eq_refl) as [H _].
  exact H.
Defined.

Lemma frames_are_numbered_witness :
  exists r,
    outcome (script (lib := sample_libraries) sample_argv sample_startup
                    [sample_iteration 97 true; sample_iteration 120 true;
                     sample_iteration 113 true]) = Ok r
    /\ i (vars_of r) = 2
    /\ viewer_updates
         (trace (script (lib := sample_libraries) sample_argv sample_startup
                        [sample_iteration 97 true; sample_iteration 120 true;
                         sample_iteration 113 true])) = [1; 2].
Proof.
  destruct (outcome (script (lib := sample_libraries) sample_argv sample_startup
                            [sample_iteration 97 true; sample_iteration 120 true;
                             sample_iteration 113 true]))
    as [r|e] eqn:Hr; [|discriminate Hr].
  exists r. split; [reflexivity|].
  destruct (frames_are_numbered (lib := sample_libraries) _ _ _ _ Hr)
    as (n & Hn & Hv & _ & _).
  assert (Hi : i (vars_of r) = 2) by (injection Hr as <-; reflexivity).
  split; [exact Hi|].
  rewrite Hv. assert (n = 2%nat) as -> by lia. reflexivity.
Defined.

Lemma namespace_is_typed_witness :
  exists ns,
    parse_script_input (lib := sample_libraries)
      [("-b", Some "obj_000014"); ("--fov", Some "60"); ("-m", Some "models");
       ("--use_region", None)] = Ok ns
    /\ ns !! "use_region" = Some (ABool true)
    /\ exists f, ns !! "fov" = Some (AFloat f).
Proof.
  destruct (parse_script_input (lib := sample_libraries)
              [("-b", Some "obj_000014"); ("--fov", Some "60");
               ("-m", Some "models"); ("--use_region", None)])
    as [ns|e] eqn:Hp; [|discriminate Hp].
  exists ns. split; [reflexivity|].
  destruct (namespace_is_typed (lib := sample_libraries) _ _ Hp)
    as ((f & Hf & _) & _ & _ & Hregion).
  split; [exact Hregion|]. exists f. exact Hf.
Defined.

Lemma body_pose_is_initial_or_tracked_witness :
  exists r,
    outcome (script (lib := sample_libraries) sample_argv sample_startup
                    [sample_iteration 120 true; sample_iteration 97 true;
                     sample_iteration 113 true]) = Ok r
    /\ first (vars_of r) = false
    /\ body_body2world_pose (vars_of r) = [[1%float]].
Proof.
  destruct (outcome (script (lib := sample_libraries) sample_argv sample_startup
                            [sample_iteration 120 true; sample_iteration 97 true;
                             sample_iteration 113 true]))
    as [r|e] eqn:Hr; [|discriminate Hr].
  exists r. split; [reflexivity|].
  destruct (body_pose_is_initial_or_tracked (lib := sample_libraries) _ _ _ _ Hr)
    as (Hpose & _ & _ & Hfirst & _).
  split; [exact Hfirst|]. rewrite Hpose. reflexivity.
Defined.

End WebcamProperties.

(* ===================================================================== *)
(** * Properties of the cost classes *)
(* ===================================================================== *)

Module CostsProperties.

Import Costs.

Section Properties.

Context {pin : Pinocchio}.

(** ** Running the store monad *)

Lemma bind_run {A B} (m : C A) (f : A -> C B) st :
  (m ≫= f) st = match m st with Ok (a, st') => f a st' | Raise e => Raise e end.
Proof. reflexivity. Qed.

Lemma getattr_run self name st o :
  objs st !! self = Some o ->
  getattr self name st =
    match dict o !! name with
    | Some v => Ok (v, st)
    | None => Raise (no_attribute (cls o) name)
    end.
Proof.
  intros H. unfold getattr, get_object. rewrite bind_run, H.
  by destruct (dict o !! name).
Qed.

Lemma setattr_run self name v st o :
  objs st !! self = Some o ->
  setattr self name v st =
    Ok (tt, {| objs := <[self := {| cls := cls o;
                                    dict := <[name := v]> (dict o) |}]> (objs st);
               datas := datas st; viewer := viewer st |}).
Proof. intros H. unfold setattr. by rewrite H. Qed.

(** One assignment [self.name = v] of an [__init__], on the store the
    assignments before it left. *)
Ltac assign :=
  rewrite bind_run;
  erewrite setattr_run by (cbn; apply lookup_insert_eq);
  cbn [objs datas viewer cls dict]; rewrite ?insert_insert_eq.

(** A read of a key in a [__dict__] written by assignments. *)
Ltac read_dict :=
  repeat first
    [ rewrite lookup_insert_eq
    | rewrite lookup_insert_ne by discriminate
    | rewrite lookup_empty ].

Ltac start_init :=
  rewrite bind_run; unfold new_object; cbn [objs datas viewer].

(** ** What each [__init__] leaves in the store *)

Lemma Cost3d_init_run rmodel rdata frame_index ptarget viz st :
  Cost3d_init rmodel rdata frame_index ptarget viz st =
    Ok (fresh (dom (objs st)),
        with_object (fresh (dom (objs st)))
          {| cls := Cost3d;
             dict := <["viz" := viz_value viz]>
                     (<["frame_index" :=
                          VNum (Int (default (nframes rmodel - 1) frame_index))]>
                     (<["ptarget" := VVec (default default_position ptarget)]>
                     (<["rdata" := VData rdata]>
                     (<["rmodel" := VModel rmodel]> ∅)))) |} st).
Proof.
  unfold Cost3d_init. start_init. repeat assign. reflexivity.
Qed.

Lemma Cost6d_init_run rmodel rdata frame_index Mtarget viz st :
  Cost6d_init rmodel rdata frame_index Mtarget viz st =
    Ok (fresh (dom (objs st)),
        with_object (fresh (dom (objs st)))
          {| cls := Cost6d;
             dict := <["viz" := viz_value viz]>
                     (<["frame_index" :=
                          VNum (Int (default (nframes rmodel - 1) frame_index))]>
                     (<["Mtarget" :=
                          VSE3 (default (SE3_of (utils_rotate "x" quarter_pi)
                                                default_position) Mtarget)]>
                     (<["rdata" := VData rdata]>
                     (<["rmodel" := VModel rmodel]> ∅)))) |} st).
Proof.
  unfold Cost6d_init. start_init. repeat assign. reflexivity.
Qed.

Lemma CostPosture_init_run rmodel rdata qref viz drawn st :
  CostPosture_init rmodel rdata qref viz drawn st =
    match joints rmodel !! 1%nat with
    | Some j =>
        Ok (fresh (dom (objs st)),
            with_object (fresh (dom (objs st)))
              {| cls := CostPosture;
                 dict := <["removeFreeFlyer" := VBool (joint_nq j =? 7)]>
                         (<["qref" := VVec (default drawn qref)]> ∅) |} st)
    | None => Raise (IndexError "Index out of range")
    end.
Proof.
  unfold CostPosture_init. start_init. assign.
  destruct (joints rmodel !! 1%nat) as [j|]; [|reflexivity].
  repeat assign. reflexivity.
Qed.

Lemma CostGravity_init_run rmodel rdata viz st :
  CostGravity_init rmodel rdata viz st =
    Ok (fresh (dom (objs st)),
        with_object (fresh (dom (objs st)))
          {| cls := CostGravity;
             dict := <["viz" := viz_value viz]>
                     (<["rdata" := VData rdata]>
                     (<["rmodel" := VModel rmodel]> ∅)) |} st).
Proof.
  unfold CostGravity_init. start_init. repeat assign. reflexivity.
Qed.

Lemma CostWeightedGravity_init_run rmodel rdata viz st :
  CostWeightedGravity_init rmodel rdata viz st =
    match np_zeros (nv rmodel) with
    | Ok z =>
        Ok (fresh (dom (objs st)),
            with_object (fresh (dom (objs st)))
              {| cls := CostWeightedGravity;
                 dict := <["v0" := VVec z]>
                         (<["viz" := viz_value viz]>
                         (<["rdata" := VData rdata]>
                         (<["rmodel" := VModel rmodel]> ∅))) |} st)
    | Raise e => Raise e
    end.
Proof.
  unfold CostWeightedGravity_init. start_init. repeat assign.
  unfold attr_model. rewrite !bind_run.
  erewrite getattr_run by (cbn; apply lookup_insert_eq).
  cbn [dict cls]. read_dict. cbn.
  unfold liftR at 1. destruct (np_zeros (nv rmodel)) as [z|e]; [|reflexivity].
  rewrite bind_run. cbn beta iota. repeat assign. reflexivity.
Qed.

Lemma CostPostureDiff_init_run rmodel rdata qref viz drawn st :
  CostPostureDiff_init rmodel rdata qref viz drawn st =
    Ok (fresh (dom (objs st)),
        with_object (fresh (dom (objs st)))
          {| cls := CostPostureDiff;
             dict := <["qref" := VVec (default drawn qref)]>
                     (<["rmodel" := VModel rmodel]> ∅) |} st).
Proof.
  unfold CostPostureDiff_init. start_init. repeat assign. reflexivity.
Qed.


Lemma np_zeros_ok n : 0 <= n -> np_zeros n = Ok (replicate (Z.to_nat n) 0%float).
Proof. intros H. unfold np_zeros. by apply Z.ltb_ge in H as ->. Qed.

(** ** Calls *)

Lemma call_method_run self name q st o :
  objs st !! self = Some o ->
  dict o !! name = None ->
  call_method self name q st =
    match find_method (cls o) name with
    | Some f => f self q st
    | None => Raise (no_attribute (cls o) name)
    end.
Proof.
  intros H Hn. unfold call_method, get_object. rewrite bind_run, H, Hn.
  by destruct (find_method (cls o) name).
Qed.

Lemma call_residual_run self q st o :
  objs st !! self = Some o ->
  dict o !! "residual" = None ->
  call_residual self q st =
    match residual_of (cls o) with
    | Some f => f self q st
    | None => Raise (no_attribute (cls o) "residual")
    end.
Proof.
  intros H Hn. unfold call_residual, get_object. rewrite bind_run, H, Hn.
  by destruct (residual_of (cls o)).
Qed.



Lemma not_in_dom (d : gmap string value) (name : string) (names : list string) :
  dom d = list_to_set names -> name ∉ names -> d !! name = None.
Proof.
  intros Hd Hn. apply not_elem_of_dom. rewrite Hd.
  by rewrite elem_of_list_to_set.
Qed.

(** ** Running the methods *)

Lemma getattr_some self name st o v :
  objs st !! self = Some o -> dict o !! name = Some v ->
  getattr self name st = Ok (v, st).
Proof. intros Ho Hv. by rewrite (getattr_run _ _ _ _ Ho), Hv. Qed.

Lemma getattr_none self name st o :
  objs st !! self = Some o -> dict o !! name = None ->
  getattr self name st = Raise (no_attribute (cls o) name).
Proof. intros Ho Hv. by rewrite (getattr_run _ _ _ _ Ho), Hv. Qed.

Lemma attr_vec_run self name st o v :
  objs st !! self = Some o -> dict o !! name = Some (VVec v) ->
  attr_vec self name st = Ok (v, st).
Proof.
  intros Ho Hv. unfold attr_vec.
  by rewrite bind_run, (getattr_some _ _ _ _ _ Ho Hv).
Qed.

Lemma attr_model_run self name st o m :
  objs st !! self = Some o -> dict o !! name = Some (VModel m) ->
  attr_model self name st = Ok (m, st).
Proof.
  intros Ho Hv. unfold attr_model.
  by rewrite bind_run, (getattr_some _ _ _ _ _ Ho Hv).
Qed.

Lemma attr_data_run self name st o d :
  objs st !! self = Some o -> dict o !! name = Some (VData d) ->
  attr_data self name st = Ok (d, st).
Proof.
  intros Ho Hv. unfold attr_data.
  by rewrite bind_run, (getattr_some _ _ _ _ _ Ho Hv).
Qed.

Lemma attr_int_run self name st o z :
  objs st !! self = Some o -> dict o !! name = Some (VNum (Int z)) ->
  attr_int self name st = Ok (z, st).
Proof.
  intros Ho Hv. unfold attr_int.
  by rewrite bind_run, (getattr_some _ _ _ _ _ Ho Hv).
Qed.

Lemma attr_SE3_run self name st o m :
  objs st !! self = Some o -> dict o !! name = Some (VSE3 m) ->
  attr_SE3 self name st = Ok (m, st).
Proof.
  intros Ho Hv. unfold attr_SE3.
  by rewrite bind_run, (getattr_some _ _ _ _ _ Ho Hv).
Qed.

Lemma on_data_run {A} d (f : Data -> Data * A) st x :
  datas st !! d = Some x ->
  on_data d f st =
    Ok ((f x).2, {| objs := objs st; datas := <[d := (f x).1]> (datas st);
                    viewer := viewer st |}).
Proof. intros H. unfold on_data. rewrite H. by destruct (f x). Qed.





(** ** The two methods that read a name nothing binds *)

Lemma CostPosture_calcDiff_raises self q st o :
  objs st !! self = Some o ->
  cls o = CostPosture ->
  dict o !! "removeFreeFlyer" = Some (VBool true) ->
  dict o !! "rmodel" = None ->
  CostPosture_calcDiff self q st = Raise (no_attribute CostPosture "rmodel").
Proof.
  intros Hobj Hcls Hff Hnone. unfold CostPosture_calcDiff.
  rewrite bind_run, (getattr_run _ _ _ _ Hobj), Hff. cbv beta iota.
  rewrite bind_run. unfold truthy at 1, mret, C_ret. cbv beta iota.
  rewrite bind_run. unfold attr_model.
  rewrite bind_run, (getattr_run _ _ _ _ Hobj), Hnone, Hcls. reflexivity.
Qed.

(** C8.  On a model whose first joint is a free flyer, [CostPosture(...)]
    succeeds and builds an instance without the attribute [rmodel]; on
    that instance, in whatever store it is called and for whatever
    configuration, [calcDiff] raises the [AttributeError] of the read of
    [self.rmodel], called directly or through the instance. *)
Theorem CostPosture_calcDiff_free_flyer
        (rmodel : Model) (rdata : loc) (qref : option vec) (viz : option loc)
        (drawn : vec) (st : store) (j : Joint) :
  joints rmodel !! 1%nat = Some j ->
  joint_nq j = 7 ->
  exists self st1 o,
    CostPosture_init rmodel rdata qref viz drawn st = Ok (self, st1)
    /\ objs st1 !! self = Some o
    /\ dict o !! "rmodel" = None
    /\ forall q st2,
         objs st2 !! self = Some o ->
         CostPosture_calcDiff self q st2 =
           Raise (AttributeError "'CostPosture' object has no attribute 'rmodel'")
         /\ call_method self "calcDiff" q st2 =
           Raise (AttributeError "'CostPosture' object has no attribute 'rmodel'").
Proof.
  intros Hj Hnq. rewrite CostPosture_init_run, Hj, Hnq.
  set (self := fresh (dom (objs st))).
  eexists self, _, _. split; [reflexivity|].
  split; [cbn; apply lookup_insert_eq|].
  split; [reflexivity|].
  intros q st2 Hobj.
  assert (CostPosture_calcDiff self q st2 =
            Raise (no_attribute CostPosture "rmodel")) as Hraise
    by (eapply CostPosture_calcDiff_raises; [exact Hobj|reflexivity..]).
  split; [exact Hraise|].
  by rewrite (call_method_run _ _ _ _ _ Hobj).
Qed.

(** ** The test block on a robot with a free flyer *)

Lemma test_CostPosture_raises rmodel rdata q qref3 tol st j :
  joints rmodel !! 1%nat = Some j ->
  joint_nq j = 7 ->
  test rmodel (new_CostPosture rmodel rdata None None qref3) q tol st =
    Raise (no_attribute CostPosture "rmodel").
Proof.
  intros Hj Hnq. unfold test. rewrite bind_run. cbn [construct].
  rewrite CostPosture_init_run, Hj, Hnq.
  unfold check_gradient. rewrite bind_run.
  erewrite call_method_run;
    [|cbn; apply lookup_insert_eq|cbn [dict]; by read_dict].
  cbn [cls find_method class_methods List.find fst snd String.eqb fmap
       option_fmap option_map Ascii.eqb Bool.eqb].
  erewrite CostPosture_calcDiff_raises;
    [reflexivity|cbn; apply lookup_insert_eq|reflexivity..].
Qed.

(** C2, on the code.  On a robot whose first joint is a free flyer the
    test block does not run to its end: when the tests of [Cost3d] and
    [Cost6d] pass, the test of [CostPosture] ends in the [AttributeError]
    of [calcDiff], before its assertion and before the three tests that
    follow. *)
Theorem self_test_stops_at_CostPosture
        (rmodel : Model) (rdata : loc) (q qref3 qref6 : vec) (st : store)
        (j : Joint) :
  joints rmodel !! 1%nat = Some j ->
  joint_nq j = 7 ->
  is_ok (self_test rmodel rdata q qref3 qref6 st) = false
  /\ forall st',
       tests_before_CostPosture rmodel rdata q st = Ok (tt, st') ->
       self_test rmodel rdata q qref3 qref6 st =
         Raise (AttributeError "'CostPosture' object has no attribute 'rmodel'").
Proof.
  intros Hj Hnq. unfold self_test.
  split.
  - rewrite bind_run.
    destruct (tests_before_CostPosture rmodel rdata q st) as [[[] st']|e];
      [|reflexivity].
    by rewrite bind_run, (test_CostPosture_raises _ _ _ _ _ _ _ Hj Hnq).
  - intros st' H.
    by rewrite bind_run, H, bind_run,
      (test_CostPosture_raises _ _ _ _ _ _ _ Hj Hnq).
Qed.

Lemma load_global_bound name st :
  name_is_bound name = true -> load_global name st = Ok (VGlobal name, st).
Proof. unfold load_global. by intros ->. Qed.

Lemma load_global_unbound name st :
  name_is_bound name = false ->
  load_global name st = Raise (name_not_defined name).
Proof. unfold load_global. by intros ->. Qed.

(** [M] is bound neither by the module nor by the builtins. *)
Lemma M_is_not_bound : name_is_bound "M" = false.
Proof. by vm_compute. Qed.

Lemma Cost6d_callback_raises self q st o v :
  objs st !! self = Some o ->
  dict o !! "viz" = Some (VViz v) ->
  Cost6d_callback self q st = Raise (name_not_defined "M").
Proof.
  intros Hobj Hviz. unfold Cost6d_callback.
  rewrite bind_run, (getattr_run _ _ _ _ Hobj), Hviz. cbv beta iota.
  rewrite bind_run, load_global_bound by by vm_compute.
  rewrite bind_run, (getattr_run _ _ _ _ Hobj), Hviz. cbv beta iota.
  rewrite bind_run, load_global_bound by by vm_compute.
  rewrite bind_run, load_global_unbound by exact M_is_not_bound.
  reflexivity.
Qed.

(** C9.  [Cost6d(...)] with a viewer builds an instance whose [viz] is
    that viewer; on an instance whose [viz] is a viewer, in whatever store
    and for whatever configuration, [callback] raises the [NameError] of
    the read of [M], called directly or through the instance, and so
    before any call on the viewer. *)
Theorem Cost6d_callback_name_error
        (rmodel : Model) (rdata : loc) (frame_index : option Z)
        (Mtarget : option SE3) (viz : loc) (st : store) :
  exists self st1 o,
    Cost6d_init rmodel rdata frame_index Mtarget (Some viz) st = Ok (self, st1)
    /\ objs st1 !! self = Some o
    /\ dict o !! "viz" = Some (VViz viz)
    /\ forall q st2 o2,
         objs st2 !! self = Some o2 ->
         cls o2 = Cost6d ->
         dict o2 !! "viz" = Some (VViz viz) ->
         dict o2 !! "callback" = None ->
         Cost6d_callback self q st2 = Raise (NameError "name 'M' is not defined")
         /\ call_method self "callback" q st2 =
              Raise (NameError "name 'M' is not defined").
Proof.
  rewrite Cost6d_init_run. set (self := fresh (dom (objs st))).
  eexists self, _, _. split; [reflexivity|].
  split; [cbn; apply lookup_insert_eq|].
  split; [reflexivity|].
  intros q st2 o2 Hobj Hcls Hviz Hcb.
  assert (Cost6d_callback self q st2 = Raise (name_not_defined "M")) as Hraise
    by (eapply Cost6d_callback_raises; eauto).
  split; [exact Hraise|].
  by rewrite (call_method_run _ _ _ _ _ Hobj Hcb), Hcls.
Qed.

Lemma np_sub_same_length a b :
  length a = length b -> np_sub a b = Ok (zip_with PrimFloat.sub a b).
Proof.
  intros H. unfold np_sub, broadcast2. by apply Nat.eqb_eq in H as ->.
Qed.

(** ** CostPosture *)

(** [residual] on an instance, from what its attributes hold. *)
Lemma CostPosture_residual_run self q st o b qref :
  objs st !! self = Some o ->
  dict o !! "removeFreeFlyer" = Some (VBool b) ->
  dict o !! "qref" = Some (VVec qref) ->
  length q = length qref ->
  CostPosture_residual self q st =
    Ok (VVec (if b then zip_with PrimFloat.sub (drop 7 q) (drop 7 qref)
              else zip_with PrimFloat.sub q qref), st).
Proof.
  intros Ho Hb Hq Hlen. unfold CostPosture_residual.
  rewrite bind_run, (getattr_some _ _ _ _ _ Ho Hb). cbv beta iota.
  rewrite bind_run. unfold truthy at 1, mret, C_ret. cbv beta iota.
  destruct b; rewrite bind_run, (attr_vec_run _ _ _ _ _ Ho Hq); cbv beta iota;
    rewrite bind_run, (np_sub_same_length _ _ Hlen); cbn [liftR];
    by rewrite ?zip_with_drop.
Qed.

Lemma CostPosture_calc_run self q st o b qref :
  objs st !! self = Some o ->
  cls o = CostPosture ->
  dict o !! "removeFreeFlyer" = Some (VBool b) ->
  dict o !! "qref" = Some (VVec qref) ->
  dict o !! "residual" = None ->
  length q = length qref ->
  sum_of_squared_residual self q st =
    Ok (VNum (py_sum (np_square
                        (if b then zip_with PrimFloat.sub (drop 7 q) (drop 7 qref)
                         else zip_with PrimFloat.sub q qref))), st).
Proof.
  intros Ho Hc Hb Hq Hr Hlen. unfold sum_of_squared_residual.
  rewrite bind_run, (call_residual_run _ _ _ _ Ho Hr), Hc.
  cbn [residual_of].
  by rewrite (CostPosture_residual_run _ _ _ _ _ _ Ho Hb Hq Hlen).
Qed.

(** X7.  On a model whose first joint is not a free flyer, [CostPosture]
    builds an instance on which, for a configuration of the length of
    [qref], [residual] is [q - qref], [calc] the sum of its squares and
    [calcDiff] twice the residual, and none of the three changes the
    store: the class uses neither the model nor the data. *)
Theorem CostPosture_without_free_flyer
        (rmodel : Model) (rdata : loc) (qref : option vec) (viz : option loc)
        (drawn : vec) (st : store) (j : Joint) :
  joints rmodel !! 1%nat = Some j ->
  joint_nq j <> 7 ->
  exists self st1 o,
    CostPosture_init rmodel rdata qref viz drawn st = Ok (self, st1)
    /\ objs st1 !! self = Some o
    /\ forall q st2,
         objs st2 !! self = Some o ->
         length q = length (default drawn qref) ->
         let r := zip_with PrimFloat.sub q (default drawn qref) in
         call_method self "residual" q st2 = Ok (VVec r, st2)
         /\ call_method self "calc" q st2 =
              Ok (VNum (py_sum (np_square r)), st2)
         /\ call_method self "calcDiff" q st2 = Ok (VVec (np_scale 2 r), st2).
Proof.
  intros Hj Hnq. rewrite CostPosture_init_run, Hj.
  apply Z.eqb_neq in Hnq. rewrite Hnq.
  set (self := fresh (dom (objs st))).
  eexists self, _, _. split; [reflexivity|].
  split; [cbn; apply lookup_insert_eq|].
  intros q st2 Ho Hlen r.
  assert (Hres : CostPosture_residual self q st2 = Ok (VVec r, st2))
    by exact (CostPosture_residual_run self q st2 _ false (default drawn qref)
                Ho eq_refl eq_refl Hlen).
  split; [|split].
  - by rewrite (call_method_run _ _ _ _ _ Ho).
  - rewrite (call_method_run _ _ _ _ _ Ho); [|reflexivity]. cbn [cls].
    change (find_method CostPosture "calc") with (Some sum_of_squared_residual).
    exact (CostPosture_calc_run self q st2 _ false (default drawn qref)
             Ho eq_refl eq_refl eq_refl eq_refl Hlen).
  - rewrite (call_method_run _ _ _ _ _ Ho); [|reflexivity]. cbn [cls].
    change (find_method CostPosture "calcDiff") with (Some CostPosture_calcDiff).
    unfold CostPosture_calcDiff.
    rewrite bind_run, (getattr_some _ _ _ _ (VBool false) Ho); [|reflexivity].
    cbv beta iota. rewrite bind_run. unfold truthy at 1, mret, C_ret.
    cbv beta iota.
    rewrite bind_run, (call_residual_run _ _ _ _ Ho); [|reflexivity].
    cbn [cls residual_of]. by rewrite Hres.
Qed.

(** X8.  On a model whose first joint is a free flyer, [residual] and
    [calc] of a [CostPosture] work, and do not see the first seven
    coordinates: [residual] is [(q - qref)[7:]], and two configurations of
    the length of [qref] that agree from the eighth coordinate on have the
    same residual and the same cost. *)
Theorem CostPosture_ignores_free_flyer
        (rmodel : Model) (rdata : loc) (qref : option vec) (viz : option loc)
        (drawn : vec) (st : store) (j : Joint) :
  joints rmodel !! 1%nat = Some j ->
  joint_nq j = 7 ->
  exists self st1 o,
    CostPosture_init rmodel rdata qref viz drawn st = Ok (self, st1)
    /\ objs st1 !! self = Some o
    /\ forall q st2,
         objs st2 !! self = Some o ->
         length q = length (default drawn qref) ->
         call_method self "residual" q st2 =
           Ok (VVec (zip_with PrimFloat.sub (drop 7 q)
                              (drop 7 (default drawn qref))), st2)
         /\ forall q',
              length q' = length q ->
              drop 7 q' = drop 7 q ->
              call_method self "residual" q' st2 =
                call_method self "residual" q st2
              /\ call_method self "calc" q' st2 = call_method self "calc" q st2.
Proof.
  intros Hj Hnq. rewrite CostPosture_init_run, Hj, Hnq.
  set (self := fresh (dom (objs st))).
  eexists self, _, _. split; [reflexivity|].
  split; [cbn; apply lookup_insert_eq|].
  intros q st2 Ho Hlen.
  assert (Hres : forall p, length p = length (default drawn qref) ->
            call_method self "residual" p st2 =
              Ok (VVec (zip_with PrimFloat.sub (drop 7 p)
                                 (drop 7 (default drawn qref))), st2)).
  { intros p Hp. rewrite (call_method_run _ _ _ _ _ Ho); [|reflexivity].
    cbn [cls].
    change (find_method CostPosture "residual") with (Some CostPosture_residual).
    exact (CostPosture_residual_run self p st2 _ true (default drawn qref)
             Ho eq_refl eq_refl Hp). }
  assert (Hcalc : forall p, length p = length (default drawn qref) ->
            call_method self "calc" p st2 =
              Ok (VNum (py_sum (np_square
                     (zip_with PrimFloat.sub (drop 7 p)
                               (drop 7 (default drawn qref))))), st2)).
  { intros p Hp. rewrite (call_method_run _ _ _ _ _ Ho); [|reflexivity].
    cbn [cls].
    change (find_method CostPosture "calc") with (Some sum_of_squared_residual).
    exact (CostPosture_calc_run self p st2 _ true (default drawn qref)
             Ho eq_refl eq_refl eq_refl eq_refl Hp). }
  split; [by apply Hres|].
  intros q' Hlen' Hdrop.
  rewrite !Hres, !Hcalc by congruence. by rewrite Hdrop.
Qed.

(** ** [callback] *)

(** X9.  [callback] is a method of [Cost3d] and [Cost6d] only: on an
    instance of one of the four other classes a call of it is an
    [AttributeError].  On a [Cost3d] or a [Cost6d] built without a viewer
    it returns [None] and leaves the store as it is: no kinematics is
    run and no call is made on a viewer. *)
Theorem callback_without_viewer (k : construction) (st st' : store)
        (self : loc) (q : vec) :
  construct k st = Ok (self, st') ->
  match class_of k with
  | Cost3d | Cost6d =>
      construction_viz k = None ->
      call_method self "callback" q st' = Ok (VNone, st')
  | c => call_method self "callback" q st' = Raise (no_attribute c "callback")
  end.
Proof.
  destruct k; cbn [construct class_of construction_viz].
  - rewrite Cost3d_init_run. intros [= <- <-] ->.
    erewrite call_method_run; [|cbn; apply lookup_insert_eq|reflexivity].
    cbn [cls]. change (find_method Cost3d "callback") with (Some Cost3d_callback).
    unfold Cost3d_callback. rewrite bind_run.
    by erewrite getattr_some; [|cbn; apply lookup_insert_eq|reflexivity].
  - rewrite Cost6d_init_run. intros [= <- <-] ->.
    erewrite call_method_run; [|cbn; apply lookup_insert_eq|reflexivity].
    cbn [cls]. change (find_method Cost6d "callback") with (Some Cost6d_callback).
    unfold Cost6d_callback. rewrite bind_run.
    by erewrite getattr_some; [|cbn; apply lookup_insert_eq|reflexivity].
  - rewrite CostPosture_init_run.
    destruct (joints rmodel !! 1%nat); [|discriminate]. intros [= <- <-].
    by erewrite call_method_run; [|cbn; apply lookup_insert_eq|reflexivity].
  - rewrite CostGravity_init_run. intros [= <- <-].
    by erewrite call_method_run; [|cbn; apply lookup_insert_eq|reflexivity].
  - rewrite CostWeightedGravity_init_run.
    destruct (np_zeros (nv rmodel)); [|discriminate]. intros [= <- <-].
    by erewrite call_method_run; [|cbn; apply lookup_insert_eq|reflexivity].
  - rewrite CostPostureDiff_init_run. intros [= <- <-].
    by erewrite call_method_run; [|cbn; apply lookup_insert_eq|reflexivity].
Qed.

(** ** Cost6d *)

(** A read of an attribute the instance [o] holds, on a store that has
    [o] at [self] whatever its workspaces are. *)
Ltac read_attr lem :=
  rewrite bind_run;
  erewrite lem by (cbn [objs]; eassumption);
  cbv beta iota.

Ltac run_on_data :=
  rewrite bind_run;
  erewrite on_data_run
    by (cbn [datas]; first [eassumption | apply lookup_insert_eq]);
  cbn [fst snd objs datas viewer]; rewrite ?insert_insert_eq.

(** [residual] on an instance, from what its attributes and its workspace
    hold. *)
Lemma Cost6d_residual_run self q st o m d k T x :
  objs st !! self = Some o ->
  dict o !! "rmodel" = Some (VModel m) ->
  dict o !! "rdata" = Some (VData d) ->
  dict o !! "frame_index" = Some (VNum (Int k)) ->
  dict o !! "Mtarget" = Some (VSE3 T) ->
  datas st !! d = Some x ->
  let xM := updateFramePlacement m (forwardKinematics m x q) k in
  let dM := SE3_mul (SE3_inverse T) xM.2 in
  Cost6d_residual self q st =
    Ok (VVec (log_vector dM),
        {| objs := <[self := {| cls := cls o;
                                dict := <["deltaM" := VSE3 dM]> (dict o) |}]>
                     (objs st);
           datas := <[d := xM.1]> (datas st);
           viewer := viewer st |}).
Proof.
  intros Ho Hm Hd Hk HT Hx xM dM. unfold Cost6d_residual.
  read_attr attr_model_run. read_attr attr_data_run. run_on_data.
  read_attr attr_model_run. read_attr attr_data_run. read_attr attr_int_run.
  run_on_data.
  read_attr attr_SE3_run.
  rewrite bind_run. erewrite setattr_run by (cbn [objs]; eassumption).
  cbn [objs datas viewer].
  rewrite bind_run.
  erewrite attr_SE3_run;
    [reflexivity|cbn [objs]; apply lookup_insert_eq
    |cbn [dict]; apply lookup_insert_eq].
Qed.

(** X10.  [Cost6d] keeps the placement error in an attribute that
    [residual] writes: a new instance has no [deltaM], and [calcDiff],
    which reads it, writes it first by its call of [residual].  On a new
    instance whose workspace exists [calcDiff] therefore returns, with the
    logarithm and its Jacobian taken at the [deltaM] of the configuration
    it is called on, and leaves that [deltaM] in the instance. *)
Theorem Cost6d_calcDiff_sets_deltaM
        (rmodel : Model) (rdata : loc) (frame_index : option Z)
        (Mtarget : option SE3) (viz : option loc) (st st1 : store)
        (self : loc) (x : Data) (q : vec) :
  construct (new_Cost6d rmodel rdata frame_index Mtarget viz) st
    = Ok (self, st1) ->
  datas st !! rdata = Some x ->
  let T := default (SE3_of (utils_rotate "x" quarter_pi) default_position)
                   Mtarget in
  let k := default (nframes rmodel - 1) frame_index in
  let xJ := computeFrameJacobian rmodel x q k in
  let xM := updateFramePlacement rmodel (forwardKinematics rmodel xJ.1 q) k in
  let dM := SE3_mul (SE3_inverse T) xM.2 in
  getattr self "deltaM" st1 = Raise (no_attribute Cost6d "deltaM") /\
  exists st2 : store,
    call_method self "calcDiff" q st1 =
      Ok (VVec (np_matvec (np_matmul (mat_scale 2 (transpose xJ.2))
                                     (transpose (Jlog6 dM)))
                          (log_vector dM)), st2) /\
    getattr self "deltaM" st2 = Ok (VSE3 dM, st2).
Proof.
  cbn [construct]. rewrite Cost6d_init_run. intros [= <- <-] Hx.
  set (self := fresh (dom (objs st))).
  set (o := {| cls := Cost6d; dict := _ |}).
  assert (Ho : objs (with_object self o st) !! self = Some o)
    by (cbn; apply lookup_insert_eq).
  split.
  { by erewrite getattr_none; [|exact Ho|]. }
  erewrite call_method_run; [|exact Ho|reflexivity].
  change (find_method (cls o) "calcDiff") with (Some Cost6d_calcDiff).
  unfold Cost6d_calcDiff.
  assert (Hm : dict o !! "rmodel" = Some (VModel rmodel)) by reflexivity.
  assert (Hd : dict o !! "rdata" = Some (VData rdata)) by reflexivity.
  assert (Hk : dict o !! "frame_index"
               = Some (VNum (Int (default (nframes rmodel - 1) frame_index))))
    by reflexivity.
  assert (HT : dict o !! "Mtarget"
               = Some (VSE3 (default (SE3_of (utils_rotate "x" quarter_pi)
                                             default_position) Mtarget)))
    by reflexivity.
  assert (Hx' : datas (with_object self o st) !! rdata = Some x) by exact Hx.
  assert (Hc : cls o = Cost6d) by reflexivity.
  assert (Hr : dict o !! "residual" = None) by reflexivity.
  clearbody o self.
  read_attr attr_model_run. read_attr attr_data_run. read_attr attr_int_run.
  run_on_data.
  rewrite bind_run.
  erewrite call_residual_run; [|cbn [objs]; exact Ho|exact Hr].
  rewrite Hc. cbn [residual_of].
  erewrite Cost6d_residual_run;
    [|cbn [objs]; exact Ho|exact Hm|exact Hd|exact Hk|exact HT
     |cbn [datas]; apply lookup_insert_eq].
  cbn [objs datas viewer]. rewrite insert_insert_eq.
  rewrite bind_run.
  erewrite attr_SE3_run;
    [|cbn [objs]; apply lookup_insert_eq|cbn [dict]; apply lookup_insert_eq].
  eexists. split; [reflexivity|].
  erewrite getattr_some;
    [reflexivity|cbn [objs]; apply lookup_insert_eq
    |cbn [dict]; apply lookup_insert_eq].
Qed.

(** ** The finite differences of the test block *)

Section Tdiff1.

Variable func : vec -> C value.
Variable exp : vec -> vec -> vec.
Variable f : vec -> float.
Variable python : bool.
Variable eps : float.
Variable q : vec.

Hypothesis eps_cancels : (eps - eps)%float = 0%float.
Hypothesis func_scalar :
  forall v st, exists st', func v st = Ok (float_value python (f v), st').

(** The quotient [Tdiff1] appends for the direction [k]. *)
Local Abbreviation quotient n k :=
  ((f (exp q (perturbation n k eps)) - f q) / eps)%float.

Lemma float_value_sub a b st :
  value_sub (float_value python a) (float_value python b) st =
    Ok (float_value python (a - b), st).
Proof. by destruct python. Qed.

Lemma float_value_div a st :
  value_div (float_value python a) eps st =
    if python && PrimFloat.is_zero eps then Raise ZeroDivisionError
    else Ok (float_value python (a / eps), st).
Proof.
  destruct python; cbn -[PrimFloat.is_zero]; [|reflexivity].
  unfold mbind, C_bind, mret, C_ret, throw.
  by destruct (PrimFloat.is_zero eps).
Qed.

(** The loop finds [v] zero at each turn and leaves it zero. *)
Lemma Tdiff1_loop_scalar (n : nat) (ks : list nat) :
  python && PrimFloat.is_zero eps = false ->
  Forall (fun k => (k < n)%nat) ks ->
  forall fs st, exists st',
    Tdiff1_loop func exp q (float_value python (f q)) eps ks
                (replicate n 0%float) fs st
    = Ok ((fs ++ ((fun k => float_value python (quotient n k)) <$> ks))%list,
          st').
Proof using eps_cancels func_scalar.
  intros Hdiv. induction 1 as [|k ks Hk _ IH]; intros fs st.
  - exists st. cbn. by rewrite app_nil_r.
  - cbn [Tdiff1_loop].
    destruct (func_scalar (exp q (<[k := eps]> (replicate n 0%float))) st)
      as [st1 H1].
    rewrite bind_run, H1. cbv beta iota.
    rewrite bind_run, float_value_sub. cbv beta iota.
    rewrite float_value_div, Hdiv.
    rewrite list_lookup_insert_eq by (by rewrite length_replicate).
    change (default 0%float (Some eps)) with eps.
    rewrite eps_cancels, list_insert_insert_eq.
    rewrite (list_insert_id (replicate n 0%float) k 0%float)
      by (by apply lookup_replicate_2).
    destruct (IH (fs ++ [float_value python (quotient n k)])%list st1)
      as [st2 H2].
    exists st2. etrans; [exact H2|]. by rewrite <- app_assoc.
Qed.

Lemma all_numbers_floats (a : vec) :
  all_numbers (float_value python <$> a) = Some a.
Proof.
  induction a as [|x a IH]; [done|]. cbn. destruct python; cbn in *;
    by rewrite IH.
Qed.

(** X11.  [Tdiff1] perturbs one direction at a time: for a function whose
    value is a float (of Python or of NumPy) that depends on its argument
    only, and a finite step [eps], it returns the array of the [nv]
    quotients [(func(exp(q, eps e_k)) - func(q)) / eps], [e_k] the [k]-th
    unit vector.  A zero step is a [ZeroDivisionError] when the values are
    Python floats; on NumPy scalars the quotients are then infinities or
    NaNs.  With [nv = 0] there is no quotient and line 183 raises
    [IndexError]. *)
Theorem Tdiff1_forward_differences (nv : Z) (st : store) :
  (nv = 0 ->
   Tdiff1 func exp nv q eps st = Raise (IndexError "list index out of range")) /\
  (0 < nv ->
   if python && PrimFloat.is_zero eps
   then Tdiff1 func exp nv q eps st = Raise ZeroDivisionError
   else exists st',
     Tdiff1 func exp nv q eps st =
       Ok (VVec ((fun k => quotient (Z.to_nat nv) k) <$> seq 0 (Z.to_nat nv)),
           st')).
Proof using eps_cancels func_scalar.
  destruct (func_scalar q st) as [st0 H0].
  unfold Tdiff1. rewrite !bind_run, H0. split.
  - intros ->. reflexivity.
  - intros Hpos. rewrite np_zeros_ok by lia.
    rewrite bind_run. cbn [liftR]. rewrite bind_run.
    destruct (python && PrimFloat.is_zero eps) eqn:Hdiv.
    + destruct (Z.to_nat nv) as [|n] eqn:Hn; [lia|]. cbn [seq Tdiff1_loop].
      destruct (func_scalar (exp q (<[0%nat := eps]> (replicate (S n) 0%float)))
                            st0) as [st1 H1].
      rewrite bind_run, H1. cbv beta iota.
      rewrite bind_run, float_value_sub. cbv beta iota.
      by rewrite float_value_div, Hdiv.
    + assert (Hks : Forall (fun k => (k < Z.to_nat nv)%nat)
                           (seq 0 (Z.to_nat nv))).
      { apply Forall_forall. intros k Hk%elem_of_seq. lia. }
      destruct (Tdiff1_loop_scalar (Z.to_nat nv) _ Hdiv Hks [] st0)
        as [st1 H1].
      rewrite H1. exists st1. cbn [app].
      assert (Hfs : (fun k => float_value python (quotient (Z.to_nat nv) k))
                      <$> seq 0 (Z.to_nat nv)
                    = float_value python
                        <$> ((fun k => quotient (Z.to_nat nv) k)
                               <$> seq 0 (Z.to_nat nv)))
        by (by rewrite <- list_fmap_compose).
      rewrite Hfs. clear Hfs.
      assert (Hlen : length ((fun k => quotient (Z.to_nat nv) k)
                               <$> seq 0 (Z.to_nat nv)) = Z.to_nat nv)
        by (by rewrite length_fmap, length_seq).
      set (qs := (fun k => quotient (Z.to_nat nv) k) <$> seq 0 (Z.to_nat nv))
        in *.
      clearbody qs. destruct qs as [|x a]; [cbn in Hlen; lia|].
      pose proof (all_numbers_floats (x :: a)) as Hall.
      cbn [fmap list_fmap] in *. unfold np_array_of.
      destruct python; cbn [float_value] in *; by rewrite Hall.
Qed.

End Tdiff1.

(** ** What evaluating a cost leaves alone *)

Section Keeps.

Variable self : loc.
Variable o : object.

Local Abbreviation keeps := (keeps_at self o).

Lemma keeps_bind {A B} (m : C A) (f : A -> C B) :
  keeps m -> (forall a, keeps (f a)) -> keeps (m ≫= f).
Proof.
  intros Hm Hf st Ho b st2. rewrite bind_run.
  destruct (m st) as [[a st1]|e] eqn:Hrun; [|discriminate].
  intros Hb. destruct (Hm st Ho a st1 Hrun) as [Ho1 Hv1].
  destruct (Hf a st1 ltac:(by rewrite Ho1) b st2 Hb) as [Ho2 Hv2].
  split; congruence.
Qed.

Lemma keeps_pure {A} (a : A) : keeps (mret a).
Proof. intros st _ b st' [= <- <-]. done. Qed.

Lemma keeps_throw {A} e : keeps (throw (A := A) e).
Proof. intros st _ b st' H. discriminate. Qed.

Lemma keeps_liftR {A} (r : result A) : keeps (liftR r).
Proof. intros st _ b st' H. unfold liftR in H. destruct r; by simplify_eq. Qed.

Lemma keeps_getattr s name : keeps (getattr s name).
Proof.
  intros st _ b st' H.
  unfold getattr, get_object, mbind, C_bind, mret, C_ret, throw in H.
  destruct (objs st !! s) as [o'|]; [|discriminate].
  destruct (dict o' !! name); by simplify_eq.
Qed.

Lemma keeps_on_data {A} d (f : Data -> Data * A) : keeps (on_data d f).
Proof.
  intros st _ b st' H. unfold on_data in H.
  destruct (datas st !! d) as [x|]; [|discriminate].
  destruct (f x). by simplify_eq.
Qed.

Ltac keeps_step :=
  first
    [ apply keeps_pure
    | apply keeps_throw
    | apply keeps_liftR
    | apply keeps_getattr
    | apply keeps_on_data
    | apply keeps_bind; [|intros ?]
    | match goal with
      | |- keeps (if ?b then _ else _) => destruct b
      | |- keeps (match ?v with _ => _ end) => destruct v
      | |- keeps (let '(_, _) := ?p in _) => destruct p
      end ].

Ltac keeps_all :=
  unfold attr_model, attr_data, attr_vec, attr_int, attr_SE3,
    as_model, as_data, as_vec, as_int, as_SE3, as_viz, truthy, wrong_type,
    read_data;
  repeat keeps_step.

Lemma keeps_Cost3d_residual q : keeps (Cost3d_residual self q).
Proof. unfold Cost3d_residual. keeps_all. Qed.

Lemma keeps_Cost3d_calcDiff q : keeps (Cost3d_calcDiff self q).
Proof. unfold Cost3d_calcDiff. keeps_all. Qed.

Lemma keeps_CostPosture_residual q : keeps (CostPosture_residual self q).
Proof. unfold CostPosture_residual. keeps_all. Qed.

Lemma keeps_CostGravity_residual q : keeps (CostGravity_residual self q).
Proof. unfold CostGravity_residual. keeps_all. Qed.

Lemma keeps_CostPostureDiff_residual q : keeps (CostPostureDiff_residual self q).
Proof. unfold CostPostureDiff_residual. keeps_all. Qed.

Lemma keeps_CostWeightedGravity_calc q : keeps (CostWeightedGravity_calc self q).
Proof. unfold CostWeightedGravity_calc. keeps_all. Qed.

Lemma keeps_CostWeightedGravity_calcDiff q :
  keeps (CostWeightedGravity_calcDiff self q).
Proof. unfold CostWeightedGravity_calcDiff. keeps_all. Qed.

Hypothesis not_Cost6d : cls o <> Cost6d.

Lemma keeps_call_residual q : keeps (call_residual self q).
Proof using not_Cost6d.
  intros st Ho. unfold call_residual, get_object. intros b st'.
  rewrite bind_run, Ho.
  destruct (dict o !! "residual"); [discriminate|].
  destruct (cls o) eqn:Hc; cbn [residual_of]; try discriminate.
  - by apply keeps_Cost3d_residual.
  - done.
  - by apply keeps_CostPosture_residual.
  - by apply keeps_CostGravity_residual.
  - by apply keeps_CostPostureDiff_residual.
Qed.

Lemma keeps_sum_of_squared_residual q : keeps (sum_of_squared_residual self q).
Proof using not_Cost6d.
  unfold sum_of_squared_residual.
  apply keeps_bind; [apply keeps_call_residual|intros r]. keeps_all.
Qed.

Lemma keeps_CostPosture_calcDiff q : keeps (CostPosture_calcDiff self q).
Proof using not_Cost6d.
  unfold CostPosture_calcDiff.
  apply keeps_bind; [apply keeps_getattr|intros b].
  apply keeps_bind; [keeps_all|intros [|]].
  - apply keeps_bind; [keeps_all|intros m].
    apply keeps_bind; [keeps_all|intros g].
    apply keeps_bind; [apply keeps_call_residual|intros r]. keeps_all.
  - apply keeps_bind; [apply keeps_call_residual|intros r]. keeps_all.
Qed.

Lemma keeps_CostGravity_calcDiff q : keeps (CostGravity_calcDiff self q).
Proof using not_Cost6d.
  unfold CostGravity_calcDiff.
  apply keeps_bind; [apply keeps_call_residual|intros g]. keeps_all.
Qed.

Lemma keeps_CostPostureDiff_calcDiff q : keeps (CostPostureDiff_calcDiff self q).
Proof using not_Cost6d.
  unfold CostPostureDiff_calcDiff.
  apply keeps_bind; [keeps_all|intros m].
  apply keeps_bind; [keeps_all|intros qref].
  destruct (dDifference m q qref) as [J J'].
  apply keeps_bind; [apply keeps_call_residual|intros r]. keeps_all.
Qed.

End Keeps.

(** X12.  Evaluating a cost does not touch the cost objects or the
    viewer: on an instance of any class but [Cost6d], a call of
    [residual], [calc] or [calcDiff] that returns has left every instance
    of the store, and the calls made on the viewer, as they were.  (What
    it may write is the [pin.Data] workspace.) *)
Theorem evaluation_keeps_instances (self : loc) (o : object) (name : string)
        (q : vec) (st : store) :
  objs st !! self = Some o ->
  cls o <> Cost6d ->
  name ∈ ["residual"; "calc"; "calcDiff"] ->
  keeps_instances (call_method self name q) st.
Proof.
  intros Ho Hc Hname b st'. unfold call_method, get_object.
  rewrite bind_run, Ho.
  destruct (dict o !! name); [discriminate|].
  list_cases Hname; subst name; destruct (cls o) eqn:Hcls;
    try (by destruct Hc);
    cbn [find_method class_methods List.find fst snd String.eqb Ascii.eqb
         Bool.eqb fmap option_fmap option_map];
    try discriminate;
    first
      [ by apply (keeps_Cost3d_residual self o)
      | by apply (keeps_CostPosture_residual self o)
      | by apply (keeps_CostGravity_residual self o)
      | by apply (keeps_CostPostureDiff_residual self o)
      | apply (keeps_sum_of_squared_residual self o); by rewrite ?Hcls
      | by apply (keeps_CostWeightedGravity_calc self o)
      | by apply (keeps_Cost3d_calcDiff self o)
      | apply (keeps_CostPosture_calcDiff self o); by rewrite ?Hcls
      | apply (keeps_CostGravity_calcDiff self o); by rewrite ?Hcls
      | by apply (keeps_CostWeightedGravity_calcDiff self o)
      | apply (keeps_CostPostureDiff_calcDiff self o); by rewrite ?Hcls ].
Qed.

End Properties.

(** ** The theorems at concrete instances *)



Lemma CostPosture_calcDiff_free_flyer_witness :
  exists self st1,
    CostPosture_init (pin := sample_pinocchio) sample_model 1%positive None None
                     sample_q sample_store = Ok (self, st1)
    /\ CostPosture_calcDiff self sample_q st1 =
         Raise (AttributeError "'CostPosture' object has no attribute 'rmodel'").
Proof.
  destruct (CostPosture_calcDiff_free_flyer (pin := sample_pinocchio)
              sample_model 1%positive None None sample_q sample_store
              {| joint_nq := 7 |} eq_refl eq_refl)
    as (self & st1 & o & Hinit & Hobj & _ & Hraise).
  exists self, st1. split; [exact Hinit|].
  destruct (Hraise sample_q st1 Hobj) as [H _]. exact H.
Defined.

Lemma self_test_stops_at_CostPosture_witness :
  self_test (pin := sample_pinocchio) sample_model 1%positive
            sample_q sample_q sample_q sample_store =
    Raise (AttributeError "'CostPosture' object has no attribute 'rmodel'").
Proof.
  destruct (tests_before_CostPosture (pin := sample_pinocchio)
              sample_model 1%positive sample_q sample_store)
    as [[[] st']|e] eqn:Hbefore; [|vm_compute in Hbefore; discriminate Hbefore].
  destruct (self_test_stops_at_CostPosture (pin := sample_pinocchio)
              sample_model 1%positive sample_q sample_q sample_q sample_store
              {| joint_nq := 7 |} eq_refl eq_refl) as [_ Hstops].
  exact (Hstops st' Hbefore).
Defined.

Lemma Cost6d_callback_name_error_witness :
  exists self st1,
    Cost6d_init (pin := sample_pinocchio) sample_model 1%positive None None
                (Some 2%positive) sample_store = Ok (self, st1)
    /\ call_method self "callback" sample_q st1 =
         Raise (NameError "name 'M' is not defined").
Proof.
  destruct (Cost6d_callback_name_error (pin := sample_pinocchio)
              sample_model 1%positive None None 2%positive sample_store)
    as (self & st1 & o & Hinit & Hobj & Hviz & Hraise).
  exists self, st1. split; [exact Hinit|].
  assert (Hcls : cls o = Cost6d).
  { rewrite Cost6d_init_run in Hinit. injection Hinit as <- <-.
    cbn in Hobj. rewrite lookup_insert_eq in Hobj. by injection Hobj as <-. }
  assert (Hcb : dict o !! "callback" = None).
  { rewrite Cost6d_init_run in Hinit. injection Hinit as <- <-.
    cbn in Hobj. rewrite lookup_insert_eq in Hobj. by injection Hobj as <-. }
  destruct (Hraise sample_q st1 o Hobj Hcls Hviz Hcb) as [_ H]. exact H.
Defined.

Lemma CostPosture_without_free_flyer_witness :
  exists self st1,
    CostPosture_init (pin := sample_pinocchio) sample_arm 1%positive
                     (Some [0.25; 0.25]%float) None [] sample_store
      = Ok (self, st1)
    /\ call_method self "residual" [0.5; 0.25]%float st1
         = Ok (VVec [0.25; 0]%float, st1)
    /\ call_method self "calcDiff" [0.5; 0.25]%float st1
         = Ok (VVec [0.5; 0]%float, st1).
Proof.
  assert (Hnq : joint_nq {| joint_nq := 1 |} <> 7) by (simpl; lia).
  destruct (CostPosture_without_free_flyer (pin := sample_pinocchio)
              sample_arm 1%positive (Some [0.25; 0.25]%float) None []
              sample_store {| joint_nq := 1 |} eq_refl Hnq)
    as (self & st1 & o & Hinit & Hobj & Hrun).
  exists self, st1. split; [exact Hinit|].
  destruct (Hrun [0.5; 0.25]%float st1 Hobj eq_refl) as (Hr & _ & Hd).
  split; [exact Hr|exact Hd].
Defined.

Lemma CostPosture_ignores_free_flyer_witness :
  exists self st1,
    CostPosture_init (pin := sample_pinocchio) sample_model 1%positive None None
                     sample_q sample_store = Ok (self, st1)
    /\ call_method self "residual" sample_q st1 = Ok (VVec [0%float], st1)
    /\ call_method self "calc" [1; 2; 3; 0; 0; 0; 1; 0.5]%float st1
         = call_method self "calc" sample_q st1.
Proof.
  destruct (CostPosture_ignores_free_flyer (pin := sample_pinocchio)
              sample_model 1%positive None None sample_q sample_store
              {| joint_nq := 7 |} eq_refl eq_refl)
    as (self & st1 & o & Hinit & Hobj & Hrun).
  exists self, st1. split; [exact Hinit|].
  destruct (Hrun sample_q st1 Hobj eq_refl) as [Hr Hsame].
  split; [exact Hr|].
  destruct (Hsame [1; 2; 3; 0; 0; 0; 1; 0.5]%float eq_refl eq_refl) as [_ Hc].
  exact Hc.
Defined.

Lemma callback_without_viewer_witness :
  exists self st1,
    construct (pin := sample_pinocchio)
              (new_Cost3d sample_model 1%positive None None None) sample_store
      = Ok (self, st1)
    /\ call_method self "callback" sample_q st1 = Ok (VNone, st1).
Proof.
  destruct (construct (pin := sample_pinocchio)
              (new_Cost3d sample_model 1%positive None None None) sample_store)
    as [[self st1]|e] eqn:Hc; [|vm_compute in Hc; discriminate Hc].
  exists self, st1. split; [reflexivity|].
  exact (callback_without_viewer (pin := sample_pinocchio)
           (new_Cost3d sample_model 1%positive None None None)
           sample_store st1 self sample_q Hc eq_refl).
Defined.

Lemma Cost6d_calcDiff_sets_deltaM_witness :
  exists self st1 st2,
    construct (pin := sample_pinocchio)
              (new_Cost6d sample_model 1%positive None None None) sample_store
      = Ok (self, st1)
    /\ getattr self "deltaM" st1
         = Raise (AttributeError "'Cost6d' object has no attribute 'deltaM'")
    /\ call_method self "calcDiff" sample_q st1
         = Ok (VVec (replicate 7 0%float), st2)
    /\ getattr self "deltaM" st2 = Ok (VSE3 (pin := sample_pinocchio) tt, st2).
Proof.
  destruct (construct (pin := sample_pinocchio)
              (new_Cost6d sample_model 1%positive None None None) sample_store)
    as [[self st1]|e] eqn:Hc; [|vm_compute in Hc; discriminate Hc].
  destruct (Cost6d_calcDiff_sets_deltaM (pin := sample_pinocchio)
              sample_model 1%positive None None None sample_store st1 self
              tt sample_q Hc eq_refl) as (Hfresh & st2 & Hrun & Hset).
  exists self, st1, st2. split; [reflexivity|].
  split; [exact Hfresh|]. split; [exact Hrun|exact Hset].
Defined.

Lemma evaluation_keeps_instances_witness :
  exists self st1 g st2,
    construct (pin := sample_pinocchio)
              (new_CostGravity sample_model 1%positive None) sample_store
      = Ok (self, st1)
    /\ call_method self "calcDiff" sample_q st1 = Ok (g, st2)
    /\ objs st2 = objs st1 /\ viewer st2 = viewer st1.
Proof.
  pose proof (CostGravity_init_run (pin := sample_pinocchio)
                sample_model 1%positive None sample_store) as Hc.
  set (self := fresh (dom (objs sample_store))) in Hc.
  set (o := {| cls := CostGravity; dict := _ |}) in Hc.
  destruct (call_method self "calcDiff" sample_q
              (with_object self o sample_store))
    as [[g st2]|e] eqn:Hrun; [|vm_compute in Hrun; discriminate Hrun].
  exists self, (with_object self o sample_store), g, st2.
  split; [exact Hc|]. split; [exact Hrun|].
  refine (evaluation_keeps_instances (pin := sample_pinocchio)
            self o "calcDiff" sample_q _ _ _ _ g st2 Hrun).
  - simpl. apply lookup_insert_eq.
  - simpl. discriminate.
  - do 2 apply list_elem_of_further. apply list_elem_of_here.
Defined.

Lemma Tdiff1_forward_differences_witness :
  (1e-6 - 1e-6)%float = 0%float
  /\ (exists st',
        Tdiff1 sample_func (zip_with PrimFloat.add) 2 [0; 0]%float 1e-6%float
               sample_store
          = Ok (VVec [1; 0]%float, st'))
  /\ Tdiff1 sample_func (zip_with PrimFloat.add) 2 [0; 0]%float 0%float
            sample_store
       = Raise ZeroDivisionError.
Proof.
  split; [reflexivity|]. split.
  - destruct (Tdiff1_forward_differences (pin := sample_pinocchio)
                sample_func (zip_with PrimFloat.add)
                (fun v => default 0%float (head v)) true 1e-6%float
                [0; 0]%float eq_refl (fun v st => ex_intro _ st eq_refl)
                2 sample_store) as [_ H].
    destruct (H eq_refl) as [st' H']. exists st'. exact H'.
  - destruct (Tdiff1_forward_differences (pin := sample_pinocchio)
                sample_func (zip_with PrimFloat.add)
                (fun v => default 0%float (head v)) true 0%float
                [0; 0]%float eq_refl (fun v st => ex_intro _ st eq_refl)
                2 sample_store) as [_ H].
    exact (H eq_refl).
Defined.

End CostsProperties.
